(** * FingerReader: the packet codec, the command engine and the sensor
    workflow of [FingerReader/__init__.py], embedded as pure functions over
    an explicit world (serial port, process-wide [Global] object, clock). *)

From Stdlib Require Import ZArith List Lia Bool.
From Stdlib.Strings Require Import Byte Ascii.
From stdpp Require Import base gmap strings list.

Open Scope Z_scope.

(** ** enums.py *)

Inductive DataType := COMMAND | ACK.

Inductive PayloadData :=
| SCAN | START_BIT | SUCCESS | BUFFER_IMAGE | SEARCH_TEMPLATE | TEMPLATE_INDEX
| COUNT_TEMPLATES | CREATE_TEMPLATE | STORE_TEMPLATE | DELETE_TEMPLATE
| ERASE_FINGERS.

Inductive Error :=
| NO_FINGER_FOUND | READIMAGE | MESSY_IMAGE | FEW_FEATURE_POINTS
| INVALID_IMAGE | NO_TEMPLATE_FOUND | COMMUNICATION
| CHARACTERISTICS_MISMATCH | INVALID_POSITION | FLASH | E_DELETE_TEMPLATE.

Inductive CharBuffer := READ | WRITE.

Inductive SensorStatus := FREE | BUSY.

(** The members of the four protocol enums, seen through
    [_enum_to_hexadecimal] ([int(data.value, 16)]). *)
Inductive Enum :=
| EData (d : DataType) | EPayload (p : PayloadData) | EError (e : Error)
| EBuffer (c : CharBuffer).

Coercion EData : DataType >-> Enum.
Coercion EPayload : PayloadData >-> Enum.
Coercion EError : Error >-> Enum.
Coercion EBuffer : CharBuffer >-> Enum.

Definition _enum_to_hexadecimal (data : Enum) : Z :=
  match data with
  | EData COMMAND => 0x01
  | EData ACK => 0x07
  | EPayload SCAN => 0x01
  | EPayload START_BIT => 0xEF01
  | EPayload SUCCESS => 0x00
  | EPayload BUFFER_IMAGE => 0x02
  | EPayload SEARCH_TEMPLATE => 0x04
  | EPayload TEMPLATE_INDEX => 0x1F
  | EPayload COUNT_TEMPLATES => 0x1D
  | EPayload CREATE_TEMPLATE => 0x05
  | EPayload STORE_TEMPLATE => 0x06
  | EPayload DELETE_TEMPLATE => 0x0C
  | EPayload ERASE_FINGERS => 0x0D
  | EError NO_FINGER_FOUND => 0x02
  | EError READIMAGE => 0x03
  | EError MESSY_IMAGE => 0x06
  | EError FEW_FEATURE_POINTS => 0x07
  | EError INVALID_IMAGE => 0x15
  | EError NO_TEMPLATE_FOUND => 0x09
  | EError COMMUNICATION => 0x01
  | EError CHARACTERISTICS_MISMATCH => 0x0A
  | EError INVALID_POSITION => 0x0B
  | EError FLASH => 0x18
  | EError E_DELETE_TEMPLATE => 0x10
  | EBuffer READ => 0x01
  | EBuffer WRITE => 0x02
  end.

(** ** exceptions.py, and the built-in exceptions the code can run into *)

Inductive Exn :=
| InvalidPacket | CorruptedPacket | CommunicationError | NoFingerFound
| ReadImageError | MessyImageError | FewFeaturePointsError
| InvalidImageError | UnknownError | NoTemplateFound | FingerNotFound
| ReadInputError | FingerExists | CharacteristicsMismatchError
| InvalidPosition | FlashError | DeleteTemplateError
| NoAvailablePositionFound | SensorIsBusy | KillSignal
| TypeError | IndexError | StructError.

Definition Exn_eqb (a b : Exn) : bool :=
  match a, b with
  | InvalidPacket, InvalidPacket | CorruptedPacket, CorruptedPacket
  | CommunicationError, CommunicationError | NoFingerFound, NoFingerFound
  | ReadImageError, ReadImageError | MessyImageError, MessyImageError
  | FewFeaturePointsError, FewFeaturePointsError
  | InvalidImageError, InvalidImageError | UnknownError, UnknownError
  | NoTemplateFound, NoTemplateFound | FingerNotFound, FingerNotFound
  | ReadInputError, ReadInputError | FingerExists, FingerExists
  | CharacteristicsMismatchError, CharacteristicsMismatchError
  | InvalidPosition, InvalidPosition | FlashError, FlashError
  | DeleteTemplateError, DeleteTemplateError
  | NoAvailablePositionFound, NoAvailablePositionFound
  | SensorIsBusy, SensorIsBusy | KillSignal, KillSignal
  | TypeError, TypeError | IndexError, IndexError
  | StructError, StructError => true
  | _, _ => false
  end.

(** ** global_manager.py

    [Global._data] is [{'status': FREE, 'signals': {}}].  Reading an
    attribute that is not set on the instance goes through [__getattr__] to
    [_data]; [g.status = s] sets an instance attribute, which from then on
    shadows [_data['status']].  A signal is [None] or a boolean. *)

Record Global := mkGlobal {
  data_status : SensorStatus;
  attr_status : option SensorStatus;
  signals : gmap string (option bool)
}.

Definition Global_init : Global :=
  {| data_status := FREE; attr_status := None; signals := ∅ |}.

Definition g_status (g : Global) : SensorStatus :=
  match attr_status g with
  | Some s => s
  | None => data_status g
  end.

(** [g.signals.get(key)], taken as a truth value. *)
Definition signal_is_set (g : Global) (key : string) : bool :=
  match signals g !! key with
  | Some (Some true) => true
  | _ => false
  end.

(** ** The transport: one byte written, one byte read with a timeout *)

Class Transport (P : Type) := {
  serial_write : byte -> P -> P;
  (** [None] is the empty [bytes] of a read that timed out. *)
  serial_read : P -> option byte * P
}.

(** An element of [received_data]: the unpacked integer, or the empty
    [bytes] object the decoder stores for a read that returned nothing. *)
Inductive fragment := Got (b : Z) | NoData.

(** ** Static helpers *)

(** [struct.pack('B', data)]; [None] stands for [struct.error]. *)
Definition _pack_bytes (data : Z) : option byte :=
  if (0 <=? data) && (data <=? 255) then Byte.of_N (Z.to_N data) else None.

(** [struct.unpack('B', data)[0]] *)
Definition _unpack_bytes (data : byte) : Z := Z.of_N (Byte.to_N data).

(** [x >> y & 0xFF] *)
Definition _shift_right (x y : Z) : Z := Z.land (Z.shiftr x y) 0xFF.

(** [x << y] on an integer [x]. *)
Definition _shift_left (x y : Z) : Z := Z.shiftl x y.

(** [a[i]] on a Python list; [None] stands for [IndexError]. *)
Definition py_index {A : Type} (l : list A) (i : Z) : option A :=
  if i <? 0
  then (if i + Z.of_nat (length l) <? 0 then None
        else l !! Z.to_nat (i + Z.of_nat (length l)))
  else l !! Z.to_nat i.

(** [int((data and (1 << pos)) > 0)] on an element of [received_data].
    [None] stands for the exception: comparing the empty [bytes] object with
    [0] is a [TypeError], a negative shift count a [ValueError].  The shift
    is evaluated only when [data] is non-zero. *)
Definition _get_bit_by_pos (data : fragment) (pos : Z) : option Z :=
  match data with
  | NoData => None
  | Got d =>
      if d =? 0 then Some (Z.b2z (0 <? d))
      else if pos <? 0 then None
      else Some (Z.b2z (0 <? _shift_left 1 pos))
  end.

(** ** The world the driver runs in *)

Record World (P : Type) := mkWorld {
  serial : P;                 (* self._serial *)
  written : list byte;        (* every byte handed to serial.write, in order *)
  address : Z;                (* self._address *)
  glob : Global;              (* the module-level g = Global() *)
  timeline : nat -> Z;        (* what the k-th call of time() returns *)
  ticks : nat                 (* calls of get_current_timestamp so far *)
}.

Arguments mkWorld {P}.
Arguments serial {P}.
Arguments written {P}.
Arguments address {P}.
Arguments glob {P}.
Arguments timeline {P}.
Arguments ticks {P}.

(** What running a piece of the driver gives: a value, a raised exception
    (both with the world they leave behind), or no answer within the fuel. *)
Inductive Outcome (W A : Type) :=
| Ret (a : A) (w : W)
| Raise (e : Exn) (w : W)
| Diverge.

Arguments Ret {W A}.
Arguments Raise {W A}.
Arguments Diverge {W A}.

Definition M (W A : Type) : Type := W -> Outcome W A.

Definition ret {W A} (a : A) : M W A := fun w => Ret a w.

Definition raise {W A} (e : Exn) : M W A := fun w => Raise e w.

Definition bind {W A B} (m : M W A) (k : A -> M W B) : M W B :=
  fun w =>
    match m w with
    | Ret a w' => k a w'
    | Raise e w' => Raise e w'
    | Diverge => Diverge
    end.

(** [try: body  except ...:]  [handler e] is [Some h] when a clause catches
    [e], and [h] is that clause's body. *)
Definition try_except {W A} (body : M W A) (handler : Exn -> option (M W A))
  : M W A :=
  fun w =>
    match body w with
    | Ret a w' => Ret a w'
    | Raise e w' =>
        match handler e with
        | Some h => h w'
        | None => Raise e w'
        end
    | Diverge => Diverge
    end.

Definition lift_option {W A} (e : Exn) (o : option A) : M W A :=
  match o with
  | Some a => ret a
  | None => raise e
  end.

Declare Scope py_scope.
Delimit Scope py_scope with py.
Notation "'let*' x ':=' m 'in' k" := (bind m (fun x => k))
  (at level 10, x pattern, m at level 100, k at level 200) : py_scope.
Notation "m ';;;' k" := (bind m (fun _ => k))
  (at level 100, k at level 200, right associativity) : py_scope.
Open Scope py_scope.

Section Driver.
Context {P : Type} `{Transport P}.

Local Abbreviation W := (World P).

Definition set_glob (gl : Global) (w : W) : W :=
  mkWorld (serial w) (written w) (address w) gl (timeline w) (ticks w).

(** [self._serial.write(self._pack_bytes(data))] *)
Definition write_packed (data : Z) : M W unit :=
  fun w =>
    match _pack_bytes data with
    | Some b =>
        Ret tt (mkWorld (serial_write b (serial w)) (written w ++ [b])
                  (address w) (glob w) (timeline w) (ticks w))
    | None => Raise StructError w
    end.

(** [self._serial.read()] *)
Definition read_fragment : M W (option byte) :=
  fun w =>
    let (r, p) := serial_read (serial w) in
    Ret r (mkWorld p (written w) (address w) (glob w) (timeline w) (ticks w)).

(** The [for i in range(0, len(payload))] loop of [_send_data]. *)
Fixpoint send_payload (payload : list Z) (packet_checksum : Z) : M W Z :=
  match payload with
  | [] => ret packet_checksum
  | x :: rest =>
      write_packed x ;;;
      send_payload rest (packet_checksum + x)
  end.

(** The port is taken to be there: the [self._serial is None] branch, which
    reopens the connection, belongs to the transport's life cycle. *)
Definition _send_data (data_type : DataType) (payload : list Z) : M W unit :=
  fun w =>
   (write_packed (_shift_right (_enum_to_hexadecimal START_BIT) 8) ;;;
    write_packed (_shift_right (_enum_to_hexadecimal START_BIT) 0) ;;;
    write_packed (_shift_right (address w) 24) ;;;
    write_packed (_shift_right (address w) 16) ;;;
    write_packed (_shift_right (address w) 8) ;;;
    write_packed (_shift_right (address w) 0) ;;;
    write_packed (_enum_to_hexadecimal data_type) ;;;
    let packet_length := Z.of_nat (length payload) + 2 in
    write_packed (_shift_right packet_length 8) ;;;
    write_packed (_shift_right packet_length 0) ;;;
    let packet_checksum :=
      _enum_to_hexadecimal data_type + _shift_right packet_length 8
      + _shift_right packet_length 0 in
    let* packet_checksum := send_payload payload packet_checksum in
    write_packed (_shift_right packet_checksum 8) ;;;
    write_packed (_shift_right packet_checksum 0)) w.

(** An integer is needed: shifting or adding the empty [bytes] object to an
    integer is a [TypeError]. *)
Definition as_int (x : fragment) : M W Z :=
  match x with
  | Got b => ret b
  | NoData => raise TypeError
  end.

(** [x != k] for an integer [k]: the empty [bytes] object differs from it. *)
Definition frag_ne (x : fragment) (k : Z) : bool :=
  match x with
  | Got b => negb (b =? k)
  | NoData => true
  end.

Definition item (received_data : list fragment) (i : Z) : M W fragment :=
  lift_option IndexError (py_index received_data i).

(** [_shift_left(l[i], 8) or _shift_left(l[j], 0)]: the right operand is
    evaluated only when the left one is zero. *)
Definition shift_or (received_data : list fragment) (i j : Z) : M W Z :=
  let* hi := item received_data i in
  let* hi := as_int hi in
  if _shift_left hi 8 =? 0
  then (let* lo := item received_data j in
        let* lo := as_int lo in
        ret (_shift_left lo 0))
  else ret (_shift_left hi 8).

Definition _check_packet_header (received_data : list fragment) : M W unit :=
  let* b0 := item received_data 0 in
  if frag_ne b0 (_shift_right (_enum_to_hexadecimal START_BIT) 8)
  then raise InvalidPacket
  else
    let* b1 := item received_data 1 in
    if frag_ne b1 (_shift_right (_enum_to_hexadecimal START_BIT) 0)
    then raise InvalidPacket
    else ret tt.

(** The [for i in range(9, 9 + packet_payload_length - 2)] loop of
    [_read_data]; [n] is the number of indices left, [i] the next one. *)
Fixpoint collect_payload (n : nat) (i : Z) (received_data : list fragment)
    (payload : list Z) (packet_checksum : Z) : M W (list Z * Z) :=
  match n with
  | O => ret (payload, packet_checksum)
  | S n' =>
      let* x := item received_data i in
      let* v := as_int x in
      collect_payload n' (i + 1) received_data (payload ++ [v])
        (packet_checksum + v)
  end.

(** [_read_data] from "The packet completely received" to its [return]. *)
Definition packet_received (received_data : list fragment)
    (_counter packet_payload_length : Z) : M W (Z * list Z) :=
  let* data_type := item received_data 6 in
  let* data_type := as_int data_type in
  let* l_hi := item received_data 7 in
  let* l_hi := as_int l_hi in
  let* l_lo := item received_data 8 in
  let* l_lo := as_int l_lo in
  let packet_checksum := data_type + l_hi + l_lo in
  let* pc :=
    collect_payload (Z.to_nat (packet_payload_length - 2)) 9
      received_data [] packet_checksum in
  let* received_checksum :=
    shift_or received_data (_counter - 2) (_counter - 1) in
  if negb (received_checksum =? snd pc)
  then raise CorruptedPacket
  else ret (data_type, fst pc).

(** The [while True] loop of [_read_data], one iteration per unit of fuel. *)
Fixpoint read_data_loop (fuel : nat) (received_data : list fragment)
    (_counter : Z) : M W (Z * list Z) :=
  match fuel with
  | O => fun _ => Diverge
  | S fuel' =>
      let* received_fragment := read_fragment in
      let received_data :=
        received_data ++
          [match received_fragment with
           | Some b => Got (_unpack_bytes b)
           | None => NoData
           end] in
      let _counter := _counter + 1 in
      if 12 <=? _counter then
        _check_packet_header received_data ;;;
        let* packet_payload_length := shift_or received_data 7 8 in
        if _counter <? packet_payload_length + 9
        then read_data_loop fuel' received_data _counter
        else packet_received received_data _counter packet_payload_length
      else read_data_loop fuel' received_data _counter
  end.

Definition _read_data (fuel : nat) : M W (Z * list Z) :=
  read_data_loop fuel [] 0.

(** ** The command engine *)

Definition first_byte (payload : list Z) : M W Z :=
  lift_option IndexError (py_index payload 0).

(** [_shift_left(payload[i], 8) or _shift_left(payload[j], 0)] on a decoded
    payload. *)
Definition payload_shift_or (payload : list Z) (i j : Z) : M W Z :=
  let* hi := lift_option IndexError (py_index payload i) in
  if _shift_left hi 8 =? 0
  then (let* lo := lift_option IndexError (py_index payload j) in
        ret (_shift_left lo 0))
  else ret (_shift_left hi 8).

Definition is_code (x : Z) (code : Enum) : bool :=
  x =? _enum_to_hexadecimal code.

Definition _scan (fuel : nat) : M W unit :=
  _send_data COMMAND [_enum_to_hexadecimal SCAN] ;;;
  let* ack := _read_data fuel in
  let (data_type, payload) := (ack : Z * list Z) in
  if negb (is_code data_type ACK) then raise InvalidPacket
  else
    let* p0 := first_byte payload in
    if is_code p0 SUCCESS then ret tt
    else if is_code p0 NO_FINGER_FOUND then raise NoFingerFound
    else if is_code p0 COMMUNICATION then raise CommunicationError
    else if is_code p0 READIMAGE then raise ReadImageError
    else raise UnknownError.

Definition _buffer_image (fuel : nat) (char_buffer : CharBuffer) : M W unit :=
  _send_data COMMAND
    [_enum_to_hexadecimal BUFFER_IMAGE; _enum_to_hexadecimal char_buffer] ;;;
  let* ack := _read_data fuel in
  let (data_type, payload) := (ack : Z * list Z) in
  if negb (is_code data_type ACK) then raise InvalidPacket
  else
    let* p0 := first_byte payload in
    if is_code p0 SUCCESS then ret tt
    else if is_code p0 COMMUNICATION then raise CommunicationError
    else if is_code p0 MESSY_IMAGE then raise MessyImageError
    else if is_code p0 FEW_FEATURE_POINTS then raise FewFeaturePointsError
    else if is_code p0 INVALID_IMAGE then raise InvalidImageError
    else raise UnknownError.

Definition _search_template (fuel : nat) (char_buffer : CharBuffer)
  : M W (Z * Z) :=
  let start_pos := 0x0000 in
  let total_templates := 0x00A3 in
  _send_data COMMAND
    [_enum_to_hexadecimal SEARCH_TEMPLATE; _enum_to_hexadecimal char_buffer;
     _shift_right start_pos 8; _shift_right start_pos 0;
     _shift_right total_templates 8; _shift_right total_templates 0] ;;;
  let* ack := _read_data fuel in
  let (data_type, payload) := (ack : Z * list Z) in
  if negb (is_code data_type ACK) then raise InvalidPacket
  else
    let* p0 := first_byte payload in
    if is_code p0 SUCCESS then
      let* template_pos := payload_shift_or payload 1 2 in
      let* score := payload_shift_or payload 3 4 in
      ret (template_pos, score)
    else if is_code p0 NO_TEMPLATE_FOUND then raise NoTemplateFound
    else if is_code p0 COMMUNICATION then raise CommunicationError
    else raise UnknownError.

Definition count_fingers (fuel : nat) : M W Z :=
  _send_data COMMAND [_enum_to_hexadecimal COUNT_TEMPLATES] ;;;
  let* ack := _read_data fuel in
  let (data_type, payload) := (ack : Z * list Z) in
  if negb (is_code data_type ACK) then raise InvalidPacket
  else
    let* p0 := first_byte payload in
    if is_code p0 SUCCESS then payload_shift_or payload 1 2
    else if is_code p0 COMMUNICATION then raise CommunicationError
    else raise UnknownError.

Definition _create_template (fuel : nat) : M W unit :=
  _send_data COMMAND [_enum_to_hexadecimal CREATE_TEMPLATE] ;;;
  let* ack := _read_data fuel in
  let (data_type, payload) := (ack : Z * list Z) in
  if negb (is_code data_type ACK) then raise InvalidPacket
  else
    let* p0 := first_byte payload in
    if is_code p0 SUCCESS then ret tt
    else if is_code p0 COMMUNICATION then raise CommunicationError
    else if is_code p0 CHARACTERISTICS_MISMATCH
         then raise CharacteristicsMismatchError
    else raise UnknownError.

Definition _store_template (fuel : nat) (position : Z)
    (char_buffer : CharBuffer) : M W Z :=
  _send_data COMMAND
    [_enum_to_hexadecimal STORE_TEMPLATE; _enum_to_hexadecimal char_buffer;
     _shift_right position 8; _shift_right position 0] ;;;
  let* ack := _read_data fuel in
  let (data_type, payload) := (ack : Z * list Z) in
  if negb (is_code data_type ACK) then raise InvalidPacket
  else
    let* p0 := first_byte payload in
    if is_code p0 SUCCESS then ret position
    else if is_code p0 COMMUNICATION then raise CommunicationError
    else if is_code p0 INVALID_POSITION then raise InvalidPosition
    else if is_code p0 FLASH then raise FlashError
    else raise UnknownError.

Definition get_available_position (fuel : nat) : M W Z :=
  count_fingers fuel.

(** ** The sensor workflow *)

(** [g.status = status] *)
Definition set_status (status : SensorStatus) : M W unit :=
  fun w =>
    Ret tt (set_glob (mkGlobal (data_status (glob w)) (Some status)
                        (signals (glob w))) w).

(** [g.signals[key] = None] *)
Definition clear_signal (key : string) : M W unit :=
  fun w =>
    Ret tt (set_glob (mkGlobal (data_status (glob w)) (attr_status (glob w))
                        (<[key := None]> (signals (glob w)))) w).

(** [int(time())] *)
Definition get_current_timestamp : M W Z :=
  fun w =>
    Ret (timeline w (ticks w))
      (mkWorld (serial w) (written w) (address w) (glob w) (timeline w)
         (S (ticks w))).

Definition kill_read_finger : string := "kill_read_finger".

(** The [except NoFingerFound] clause of [read]; [true] goes round the loop
    again. *)
Definition on_no_finger (fuel : nat) (timeout : option Z) (start_time : Z)
  : M W bool :=
  fun w =>
    if signal_is_set (glob w) kill_read_finger then
      (clear_signal kill_read_finger ;;;
       set_status FREE ;;;
       count_fingers fuel ;;;
       raise KillSignal) w
    else
      match timeout with
      | None => Ret true w
      | Some t =>
          if t =? 0 then Ret true w
          else
            (let* now := get_current_timestamp in
             if t <=? now - start_time then
               set_status FREE ;;;
               count_fingers fuel ;;;
               raise NoFingerFound
             else ret true) w
      end.

(** The [while True] loop of [read], one scan per unit of [polls]; [false]
    is the [break]. *)
Fixpoint read_loop (polls fuel : nat) (timeout : option Z) (start_time : Z)
  : M W unit :=
  match polls with
  | O => fun _ => Diverge
  | S polls' =>
      let* again :=
        try_except (_scan fuel ;;; ret false)
          (fun e =>
             match e with
             | NoFingerFound => Some (on_no_finger fuel timeout start_time)
             | _ => Some (set_status FREE ;;; raise ReadInputError)
             end) in
      if again then read_loop polls' fuel timeout start_time else ret tt
  end.

Definition read (fuel : nat) (timeout : option Z) : M W unit :=
  set_status BUSY ;;;
  let* start_time := get_current_timestamp in
  read_loop fuel fuel timeout start_time ;;;
  set_status FREE.

Definition check_finger (fuel : nat) (timeout : option Z) : M W (Z * Z) :=
  try_except
    (read fuel timeout ;;;
     _buffer_image fuel READ ;;;
     _search_template fuel READ)
    (fun e =>
       match e with
       | NoFingerFound => Some (raise NoFingerFound)
       | NoTemplateFound => Some (raise FingerNotFound)
       | _ => None
       end).

(** The [try] block of [_store_finger].  [self.get_available_position()] is
    a method call, resolved on the object at run time, so the block is
    written for any such method. *)
Definition store_finger_try (gap : nat -> M W Z) (fuel : nat)
    (position : option Z) : M W (option Z) :=
  read fuel None ;;;
  _buffer_image fuel WRITE ;;;
  _create_template fuel ;;;
  let* available_position :=
    match position with
    | Some p => ret p
    | None => gap fuel
    end in
  let* stored := _store_template fuel available_position WRITE in
  ret (Some stored).

(** [_store_finger]: the clause for [NoAvailablePositionFound] only logs, so
    the function falls off its end and returns [None]. *)
Definition store_finger_with (gap : nat -> M W Z) (fuel : nat)
    (position : option Z) : M W (option Z) :=
  try_except (store_finger_try gap fuel position)
    (fun e =>
       match e with
       | NoAvailablePositionFound => Some (ret None)
       | _ => Some (raise e)
       end).

Definition register_with (gap : nat -> M W Z) (fuel : nat)
    (position timeout : option Z) : M W (option Z) :=
  fun w =>
    match g_status (glob w) with
    | BUSY => Raise SensorIsBusy w
    | FREE =>
        (try_except (check_finger fuel timeout ;;; raise FingerExists)
           (fun e =>
              match e with
              | NoFingerFound => Some (raise NoFingerFound)
              | FingerNotFound => Some (ret tt)
              | _ => None
              end) ;;;
         store_finger_with gap fuel position) w
    end.

(** The two methods as the class has them. *)
Definition _store_finger : nat -> option Z -> M W (option Z) :=
  store_finger_with get_available_position.

Definition register : nat -> option Z -> option Z -> M W (option Z) :=
  register_with get_available_position.

(** ** The remaining commands *)

Definition _delete_template (fuel : nat) (position : Z) : M W unit :=
  let templates_to_delete := 0x0001 in
  _send_data COMMAND
    [_enum_to_hexadecimal DELETE_TEMPLATE;
     _shift_right position 8; _shift_right position 0;
     _shift_right templates_to_delete 8; _shift_right templates_to_delete 0] ;;;
  let* ack := _read_data fuel in
  let (data_type, payload) := (ack : Z * list Z) in
  if negb (is_code data_type ACK) then raise InvalidPacket
  else
    let* p0 := first_byte payload in
    if is_code p0 SUCCESS then ret tt
    else if is_code p0 COMMUNICATION then raise CommunicationError
    else if is_code p0 E_DELETE_TEMPLATE then raise DeleteTemplateError
    else raise UnknownError.

Definition delete (fuel : nat) (position : Z) : M W unit :=
  _delete_template fuel position.

Definition erase_fingers (fuel : nat) : M W unit :=
  _send_data COMMAND [_enum_to_hexadecimal ERASE_FINGERS] ;;;
  let* ack := _read_data fuel in
  let (data_type, payload) := (ack : Z * list Z) in
  if negb (is_code data_type ACK) then raise InvalidPacket
  else
    let* p0 := first_byte payload in
    if is_code p0 SUCCESS then ret tt
    else if is_code p0 COMMUNICATION then raise CommunicationError
    else raise UnknownError.

End Driver.

(** ** A fake transport

    [rx] holds the bytes still to be delivered; a read on an empty queue asks
    [respond] what the device answers to the bytes written since the last
    answer, and times out when the answer is empty. *)

Record Fake := mkFake {
  respond : list byte -> list (option byte);
  pending : list byte;
  rx : list (option byte)
}.

Definition Fake_write (b : byte) (f : Fake) : Fake :=
  mkFake (respond f) (pending f ++ [b]) (rx f).

Definition Fake_read (f : Fake) : option byte * Fake :=
  match rx f with
  | x :: r => (x, mkFake (respond f) (pending f) r)
  | [] =>
      match respond f (pending f) with
      | x :: r => (x, mkFake (respond f) [] r)
      | [] => (None, f)
      end
  end.

#[global] Instance Fake_Transport : Transport Fake :=
  {| serial_write := Fake_write; serial_read := Fake_read |}.

(** A transport that only plays back a script. *)
Definition scripted (script : list (option byte)) : Fake :=
  mkFake (fun _ => []) [] script.

Definition world0 {P} (p : P) (addr : Z) : World P :=
  mkWorld p [] addr Global_init (fun k => Z.of_nat k) 0%nat.

Definition result {W A} (o : Outcome W A) : option (A + Exn) :=
  match o with
  | Ret a _ => Some (inl a)
  | Raise e _ => Some (inr e)
  | Diverge => None
  end.

Definition final {W A} (o : Outcome W A) : option W :=
  match o with
  | Ret _ w | Raise _ w => Some w
  | Diverge => None
  end.

(** The bytes [_send_data] writes for a packet, on a port that starts with
    nothing written. *)
Definition encode (addr : Z) (data_type : DataType) (payload : list Z)
  : option (list byte) :=
  match _send_data data_type payload (world0 (scripted []) addr) with
  | Ret _ w => Some (written w)
  | _ => None
  end.

(** [_read_data] on a port that plays back [stream]. *)
Definition decode_stream (fuel : nat) (stream : list (option byte))
  : option (Z * list Z + Exn) :=
  result (_read_data fuel (world0 (scripted stream) 0xFFFFFFFF)).

(** ** The frame [_send_data] writes, as a list of integers *)

Fixpoint sum_bytes (payload : list Z) : Z :=
  match payload with
  | [] => 0
  | x :: rest => x + sum_bytes rest
  end.

Definition packet_length (payload : list Z) : Z :=
  Z.of_nat (length payload) + 2.

Definition packet_checksum (data_type : DataType) (payload : list Z) : Z :=
  _enum_to_hexadecimal data_type + _shift_right (packet_length payload) 8
  + _shift_right (packet_length payload) 0 + sum_bytes payload.

Definition frame (addr : Z) (data_type : DataType) (payload : list Z)
  : list Z :=
  [_shift_right (_enum_to_hexadecimal START_BIT) 8;
   _shift_right (_enum_to_hexadecimal START_BIT) 0;
   _shift_right addr 24; _shift_right addr 16;
   _shift_right addr 8; _shift_right addr 0;
   _enum_to_hexadecimal data_type;
   _shift_right (packet_length payload) 8;
   _shift_right (packet_length payload) 0]
  ++ payload
  ++ [_shift_right (packet_checksum data_type payload) 8;
      _shift_right (packet_checksum data_type payload) 0].

Definition byte_of (x : Z) : byte :=
  match Byte.of_N (Z.to_N x) with
  | Some b => b
  | None => "000"%byte
  end.

Definition frame_bytes (addr : Z) (data_type : DataType) (payload : list Z)
  : list byte :=
  map byte_of (frame addr data_type payload).

Definition is_byte (x : Z) : Prop := 0 <= x <= 255.

(** A two-byte field the decoder's [hi << 8 or lo] reads back as written:
    it fits 16 bits and its high byte or its low byte is zero. *)
Definition reads_back (v : Z) : Prop :=
  0 <= v < 65536 /\ (v < 256 \/ v mod 256 = 0).

Arguments _shift_left : simpl never.
Arguments _shift_right : simpl never.

(** What [_shift_left(hi, 8) or _shift_left(lo, 0)] evaluates to. *)
Definition or16 (hi lo : Z) : Z :=
  if _shift_left hi 8 =? 0 then _shift_left lo 0 else _shift_left hi 8.

(** The received integers the decoder takes for a packet of type [ty] with
    payload [payload]: start marker, any address, and a length and a checksum
    field that [or16] reads as the true length and sum. *)
Inductive accepted : list Z -> Z -> list Z -> Prop :=
| accepted_intro a3 a2 a1 a0 ty lh ll payload ch cl :
    payload <> [] ->
    or16 lh ll = packet_length payload ->
    or16 ch cl = ty + lh + ll + sum_bytes payload ->
    accepted
      ([0xEF; 0x01; a3; a2; a1; a0; ty; lh; ll] ++ payload ++ [ch; cl])
      ty payload.

(** The same layout without the checksum test: [recv] is what the decoder
    reads in the checksum field, [total] the sum it computes itself. *)
Inductive framed : list Z -> Z -> list Z -> Z -> Z -> Prop :=
| framed_intro a3 a2 a1 a0 ty lh ll payload ch cl :
    payload <> [] ->
    or16 lh ll = packet_length payload ->
    framed
      ([0xEF; 0x01; a3; a2; a1; a0; ty; lh; ll] ++ payload ++ [ch; cl])
      ty payload (or16 ch cl) (ty + lh + ll + sum_bytes payload).

Section Wire.
Context {P : Type} `{Transport P}.

Definition put_bytes (bs : list byte) (p : P) : P :=
  fold_left (fun q b => serial_write b q) bs p.

(** The world after [bs] went out through [serial.write]. *)
Definition emit (bs : list byte) (w : World P) : World P :=
  mkWorld (put_bytes bs (serial w)) (written w ++ bs) (address w) (glob w)
    (timeline w) (ticks w).

Definition with_serial (p : P) (w : World P) : World P :=
  mkWorld p (written w) (address w) (glob w) (timeline w) (ticks w).

(** The next reads of [p] return the bytes [bs], one each, and leave [p']. *)
Inductive delivers : P -> list byte -> P -> Prop :=
| delivers_nil p : delivers p [] p
| delivers_cons p b p1 bs p' :
    serial_read p = (Some b, p1) ->
    delivers p1 bs p' ->
    delivers p (b :: bs) p'.

(** From every port state in [Inv], the device answers the bytes [request]
    with the bytes [reply], and is in [Inv] again. *)
Definition answers (Inv : P -> Prop) (request reply : list byte) : Prop :=
  forall p, Inv p ->
    exists p', delivers (put_bytes request p) reply p' /\ Inv p'.

(** [w'] is [w] after the bytes [request] went out and some reads came
    in. *)
Definition exchanged (request : list byte) (w w' : World P) : Prop :=
  exists p, w' = with_serial p (emit request w).

(** From port state [p] the device answers [request] within [fuel] reads
    with a frame the decoder accepts, of type [ty] with payload [answer],
    and the port is then [p']. *)
Definition replies (fuel : nat) (p : P) (request : list byte) (ty : Z)
    (answer : list Z) (p' : P) : Prop :=
  exists bs,
    delivers (put_bytes request p) bs p' /\
    accepted (map _unpack_bytes bs) ty answer /\
    (length bs <= fuel)%nat.

(** What the decoder stores for one read. *)
Definition frag_of (r : option byte) : fragment :=
  match r with
  | Some b => Got (_unpack_bytes b)
  | None => NoData
  end.

(** The next reads of [p] return [rs], timed-out reads included, and leave
    [p']. *)
Inductive reads : P -> list (option byte) -> P -> Prop :=
| reads_nil p : reads p [] p
| reads_cons p r p1 rs p' :
    serial_read p = (r, p1) ->
    reads p1 rs p' ->
    reads p (r :: rs) p'.

(** [m] returns a value of [Q] or raises an exception of [allowed], in the
    world it started in. *)
Definition pure_such {A} (Q : A -> Prop) (allowed : Exn -> bool)
    (m : M (World P) A) : Prop :=
  forall w,
    (exists a, m w = Ret a w /\ Q a) \/
    (exists e, m w = Raise e w /\ allowed e = true).

End Wire.

(** ** Faults, and steps that leave the world alone *)

(** The exceptions [_read_data] can stop with. *)
Definition decode_fault (e : Exn) : bool :=
  match e with
  | InvalidPacket | CorruptedPacket | TypeError | IndexError => true
  | _ => false
  end.

(** The exceptions [count_fingers] can stop with. *)
Definition count_fault (e : Exn) : bool :=
  match e with
  | CommunicationError | UnknownError => true
  | _ => decode_fault e
  end.

(** The exceptions one request/response exchange can stop with. *)
Definition command_fault (e : Exn) : bool :=
  match e with
  | CommunicationError | NoFingerFound | ReadImageError | MessyImageError
  | FewFeaturePointsError | InvalidImageError | UnknownError
  | NoTemplateFound | CharacteristicsMismatchError | InvalidPosition
  | FlashError | DeleteTemplateError => true
  | _ => decode_fault e
  end.

(** The exceptions [read] can stop with. *)
Definition read_fault (e : Exn) : bool :=
  match e with
  | ReadInputError | KillSignal | NoFingerFound => true
  | _ => count_fault e
  end.

(** [m] returns or raises an exception of [allowed], in the world it
    started in. *)
Definition pure_with {W A} (allowed : Exn -> bool) (m : M W A) : Prop :=
  forall w,
    (exists a, m w = Ret a w) \/
    (exists e, m w = Raise e w /\ allowed e = true).

(** ** Requests on the wire *)

Definition scan_request (addr : Z) : list byte :=
  frame_bytes addr COMMAND [_enum_to_hexadecimal SCAN].

Definition count_request (addr : Z) : list byte :=
  frame_bytes addr COMMAND [_enum_to_hexadecimal COUNT_TEMPLATES].

Definition buffer_request (addr : Z) (char_buffer : CharBuffer) : list byte :=
  frame_bytes addr COMMAND
    [_enum_to_hexadecimal BUFFER_IMAGE; _enum_to_hexadecimal char_buffer].

Definition search_request (addr : Z) (char_buffer : CharBuffer) : list byte :=
  frame_bytes addr COMMAND
    [_enum_to_hexadecimal SEARCH_TEMPLATE; _enum_to_hexadecimal char_buffer;
     _shift_right 0x0000 8; _shift_right 0x0000 0;
     _shift_right 0x00A3 8; _shift_right 0x00A3 0].

Definition create_request (addr : Z) : list byte :=
  frame_bytes addr COMMAND [_enum_to_hexadecimal CREATE_TEMPLATE].

Definition store_request (addr position : Z) (char_buffer : CharBuffer)
  : list byte :=
  frame_bytes addr COMMAND
    [_enum_to_hexadecimal STORE_TEMPLATE; _enum_to_hexadecimal char_buffer;
     _shift_right position 8; _shift_right position 0].

Definition delete_request (addr position : Z) : list byte :=
  frame_bytes addr COMMAND
    [_enum_to_hexadecimal DELETE_TEMPLATE;
     _shift_right position 8; _shift_right position 0;
     _shift_right 0x0001 8; _shift_right 0x0001 0].

Definition erase_request (addr : Z) : list byte :=
  frame_bytes addr COMMAND [_enum_to_hexadecimal ERASE_FINGERS].

(** [k] scan requests in a row. *)
Definition scans (addr : Z) (k : nat) : list byte :=
  concat (replicate k (scan_request addr)).

(** From port state [p] the device answers [n] scan requests in a row with
    "no finger" (an acknowledgement with code 2), and the port is then
    [p']. *)
Inductive polled {P : Type} `{Transport P} (fuel : nat) (addr : Z)
  : nat -> P -> P -> Prop :=
| polled_O p : polled fuel addr 0 p p
| polled_S n p p1 p' rest :
    replies fuel p (scan_request addr) 7 (2 :: rest) p1 ->
    polled fuel addr n p1 p' ->
    polled fuel addr (S n) p p'.

(** [timeout] counts as true in [timeout and ...]. *)
Definition timeout_set (timeout : option Z) : bool :=
  match timeout with
  | Some t => negb (t =? 0)
  | None => false
  end.

(** What [read] has written beyond its scans when it leaves with [e]: the
    read-input fault leaves straight away, every other exception comes after
    the count request. *)
Definition exit_request (addr : Z) (e : Exn) : list byte :=
  if Exn_eqb e ReadInputError then [] else count_request addr.

(** The acknowledgements of a scan that saw no finger, and of a count. *)
Definition no_finger_reply (a : Z) : list byte :=
  frame_bytes a ACK [_enum_to_hexadecimal NO_FINGER_FOUND].

Definition count_reply (a hi lo : Z) : list byte :=
  frame_bytes a ACK [_enum_to_hexadecimal SUCCESS; hi; lo].

(** More fuel does not change an outcome once there is one. *)
Definition stable {W A} (m : nat -> M W A) : Prop :=
  forall f f' w, (f <= f')%nat -> m f w <> Diverge -> m f' w = m f w.

(** The exceptions [_read_data] does stop with. *)
Definition strict_fault (e : Exn) : bool :=
  match e with
  | InvalidPacket | CorruptedPacket | TypeError => true
  | _ => false
  end.

(** A stored element that is an integer is a byte. *)
Definition frag_byte (x : fragment) : Prop :=
  match x with
  | Got b => is_byte b
  | NoData => True
  end.

(** ** Scenarios *)

(** The device's acknowledgement carrying [payload], as the reads deliver
    it. *)
Definition reply (payload : list Z) : list (option byte) :=
  map Some (frame_bytes 0xFFFFFFFF ACK payload).

(** A driver on a port that plays back [script], flag and mode as the
    process starts with them, the clock advancing one unit per reading. *)
Definition on_script (script : list (option byte)) : World Fake :=
  world0 (scripted script) 0xFFFFFFFF.

(** Bit [k] of the [i]-th payload byte of a frame, inverted. *)
Definition flip_bit (k : Z) (b : byte) : byte :=
  byte_of (Z.lxor (_unpack_bytes b) (Z.shiftl 1 k)).

Definition flip_payload_bit (i : nat) (k : Z) (bs : list byte) : list byte :=
  alter (flip_bit k) (9 + i)%nat bs.

(** A device that answers whatever it is sent with "no finger". *)
Definition only_no_finger : Fake :=
  mkFake (fun request =>
            match request with
            | [] => []
            | _ => map Some (no_finger_reply 0xFFFFFFFF)
            end) [] [].

(** A device that answers a scan with "no finger" and a count with
    [count] templates (below 256), going by the opcode of the request. *)
Definition empty_sensor_answer (count : Z) (request : list byte)
  : list (option byte) :=
  match request !! 9%nat with
  | Some opcode =>
      if Byte.eqb opcode (byte_of (_enum_to_hexadecimal SCAN))
      then map Some (no_finger_reply 0xFFFFFFFF)
      else if Byte.eqb opcode (byte_of (_enum_to_hexadecimal COUNT_TEMPLATES))
      then map Some (count_reply 0xFFFFFFFF 0 count)
      else []
  | None => []
  end.

Definition empty_sensor (count : Z) : Fake :=
  mkFake (empty_sensor_answer count) [] [].

(** The world at start, with the cancellation flag raised. *)
Definition with_kill_flag {P} (w : World P) : World P :=
  mkWorld (serial w) (written w) (address w)
    (mkGlobal (data_status (glob w)) (attr_status (glob w))
       (<[kill_read_finger := Some true]> (signals (glob w))))
    (timeline w) (ticks w).

(** The driver at start on an empty sensor holding seven templates. *)
Definition idle_sensor_world : World Fake :=
  world0 (empty_sensor 7) 0xFFFFFFFF.

(** The frame of [payload] as [_send_data] lays it out, with [sent] in the
    place of the payload bytes: what arrives when payload bytes were damaged
    on the way and nothing else was. *)
Definition frame_carrying (addr : Z) (data_type : DataType)
    (payload sent : list Z) : list Z :=
  [_shift_right (_enum_to_hexadecimal START_BIT) 8;
   _shift_right (_enum_to_hexadecimal START_BIT) 0;
   _shift_right addr 24; _shift_right addr 16;
   _shift_right addr 8; _shift_right addr 0;
   _enum_to_hexadecimal data_type;
   _shift_right (packet_length payload) 8;
   _shift_right (packet_length payload) 0]
  ++ sent
  ++ [_shift_right (packet_checksum data_type payload) 8;
      _shift_right (packet_checksum data_type payload) 0].

(** ** global_manager.py: [Global.get] and its dotted keys *)

Module GlobalManager.

(** The values [_data] holds, at any depth. *)
#[warnings="-register-all"]
Inductive PyVal :=
| VNone
| VStatus (s : SensorStatus)
| VBool (b : bool)
| VInt (z : Z)
| VStr (s : string)
| VDict (d : gmap string PyVal).

(** [target_key.split('.')]: one segment more than there are dots, empty
    segments kept. *)
Fixpoint split_dot (s : string) : list string :=
  match s with
  | EmptyString => [EmptyString]
  | String c rest =>
      if Ascii.eqb c "."%char then EmptyString :: split_dot rest
      else
        match split_dot rest with
        | seg :: segs => String c seg :: segs
        | [] => [String c EmptyString]
        end
  end.

(** [value.get(key, default)]; [None] stands for the [AttributeError] of a
    value that is not a dict. *)
Definition dict_get (value : PyVal) (key : string) (default : PyVal)
  : option PyVal :=
  match value with
  | VDict d =>
      Some (match d !! key with
            | Some v => v
            | None => default
            end)
  | _ => None
  end.

(** The [for key_holder in _keys] loop of [get]. *)
Fixpoint get_loop (_data : gmap string PyVal) (iteration counter : nat)
    (_keys : list string) (result default_value : PyVal) : option PyVal :=
  match _keys with
  | [] => Some result
  | key_holder :: rest =>
      match
        (if Nat.eqb counter 1 then dict_get (VDict _data) key_holder (VDict ∅)
         else if Nat.ltb counter iteration
              then dict_get result key_holder (VDict ∅)
              else dict_get result key_holder default_value)
      with
      | Some result' =>
          get_loop _data iteration (S counter) rest result' default_value
      | None => None
      end
  end.

Definition get (_data : gmap string PyVal) (target_key : string)
    (default_value : PyVal) : option PyVal :=
  let _keys := split_dot target_key in
  let iteration := length _keys in
  if Nat.ltb 1 iteration
  then get_loop _data iteration 1 _keys VNone default_value
  else
    match _keys with
    | key0 :: _ => dict_get (VDict _data) key0 default_value
    | [] => None
    end.

(** [__getattr__] *)
Definition getattr (_data : gmap string PyVal) (target_key : string)
  : option PyVal :=
  get _data target_key VNone.

(** ['.'.join(keys)] *)
Fixpoint join_dot (keys : list string) : string :=
  match keys with
  | [] => EmptyString
  | [k] => k
  | k :: rest => String.append k (String "."%char (join_dot rest))
  end.

Fixpoint dot_free (s : string) : bool :=
  match s with
  | EmptyString => true
  | String c rest => negb (Ascii.eqb c "."%char) && dot_free rest
  end.

(** Going down a path of keys by hand: a missing key anywhere gives the
    default, a value in the way that is not a dict gives the
    [AttributeError]. *)
Fixpoint descend (d : gmap string PyVal) (keys : list string)
    (default : PyVal) : option PyVal :=
  match keys with
  | [] => None
  | [k] =>
      Some (match d !! k with
            | Some v => v
            | None => default
            end)
  | k :: rest =>
      match d !! k with
      | Some (VDict d') => descend d' rest default
      | Some _ => None
      | None => Some default
      end
  end.

(** [Global._data] as the driver's [Global] record has it. *)
Definition signal_value (v : option bool) : PyVal :=
  match v with
  | Some b => VBool b
  | None => VNone
  end.

Definition data_of (g : Global) : gmap string PyVal :=
  <["status" := VStatus (data_status g)]>
    (<["signals" := VDict (signal_value <$> signals g)]> ∅).

End GlobalManager.

(** ** dataclasses.py: [DataClass.to_json] *)

Module DataClasses.

(** What [loads(dumps(...))] gives for the fields of a dataclass. *)
Inductive Json := JNull | JInt (z : Z) | JStr (s : string) | JBool (b : bool).

Record SensorParameters := mkSensorParameters {
  id : Z;
  registration_status : Z;
  capacity : Z;
  security_level : Z;
  address : Z;
  packet_length : Z;
  baud_rate : Z
}.

(** [loads(dumps(self, cls=EnhancedJSONEncoder))]: the fields by name;
    integers come back from JSON as they went in. *)
Definition asdict (self : SensorParameters) : gmap string Json :=
  list_to_map
    [("id", JInt (id self));
     ("registration_status", JInt (registration_status self));
     ("capacity", JInt (capacity self));
     ("security_level", JInt (security_level self));
     ("address", JInt (address self));
     ("packet_length", JInt (packet_length self));
     ("baud_rate", JInt (baud_rate self))].

(** [data.get(field_name)] *)
Definition field_or_null (data : gmap string Json) (field_name : string)
  : Json :=
  match data !! field_name with
  | Some v => v
  | None => JNull
  end.

(** [to_json] from [data] on; [None] stands for an argument left out. *)
Definition select_fields (data : gmap string Json)
    (include exclude : option (list string)) : gmap string Json :=
  let _exclude :=
    match exclude with
    | Some (x :: l) => x :: l
    | _ => []
    end in
  match include with
  | Some (f :: fs) =>
      fold_left
        (fun result_fields field_name =>
           <[field_name := field_or_null data field_name]> result_fields)
        (f :: fs) ∅
  | _ =>
      fold_left (fun data excluded_field => base.delete excluded_field data)
        _exclude data
  end.

Definition to_json (self : SensorParameters)
    (include exclude : option (list string)) : gmap string Json :=
  select_fields (asdict self) include exclude.

End DataClasses.

(** * Properties *)

Section Codec.
Context {P : Type} `{Transport P}.
Local Abbreviation W := (World P).

Lemma shift_right_byte x y : is_byte (_shift_right x y).
Proof.
  unfold is_byte, _shift_right.
  change (Z.land (Z.shiftr x y) 0xFF) with (Z.land (Z.shiftr x y) (Z.ones 8)).
  rewrite Z.land_ones by lia.
  pose proof (Z.mod_pos_bound (Z.shiftr x y) (2 ^ 8)) as Hb.
  change (2 ^ 8) with 256 in *. lia.
Qed.

Lemma byte_of_N_some x : is_byte x -> Byte.of_N (Z.to_N x) = Some (byte_of x).
Proof.
  intros Hx. unfold byte_of.
  destruct (Byte.of_N (Z.to_N x)) eqn:E; [reflexivity|].
  apply Byte.of_N_None_iff in E. unfold is_byte in Hx. lia.
Qed.

Lemma pack_byte x : is_byte x -> _pack_bytes x = Some (byte_of x).
Proof.
  intros Hx. unfold _pack_bytes.
  assert (E : (0 <=? x) && (x <=? 255) = true).
  { unfold is_byte in Hx. apply andb_true_intro; split; apply Z.leb_le; lia. }
  rewrite E. now apply byte_of_N_some.
Qed.

Lemma unpack_byte_of x : is_byte x -> _unpack_bytes (byte_of x) = x.
Proof.
  intros Hx. unfold _unpack_bytes.
  rewrite (Byte.to_of_N _ (byte_of_N_some x Hx)).
  unfold is_byte in Hx. lia.
Qed.

Lemma emit_emit bs1 bs2 (w : W) : emit bs2 (emit bs1 w) = emit (bs1 ++ bs2) w.
Proof.
  unfold emit, put_bytes; simpl.
  now rewrite fold_left_app, <- app_assoc.
Qed.

Lemma write_packed_ok x (w : W) :
  is_byte x -> write_packed x w = Ret tt (emit [byte_of x] w).
Proof.
  intros Hx. unfold write_packed. now rewrite (pack_byte x Hx).
Qed.

Lemma send_payload_ok payload c (w : W) :
  Forall is_byte payload ->
  send_payload payload c w
  = Ret (c + sum_bytes payload) (emit (map byte_of payload) w).
Proof.
  intros Hp. revert c w.
  induction Hp as [|x rest Hx _ IH]; intros c w; simpl.
  - unfold ret, emit, put_bytes; simpl.
    rewrite app_nil_r, Z.add_0_r. now destruct w.
  - unfold bind. rewrite (write_packed_ok x w Hx), IH, emit_emit.
    simpl. now rewrite Z.add_assoc.
Qed.

Lemma send_data_ok data_type payload (w : W) :
  Forall is_byte payload ->
  _send_data data_type payload w
  = Ret tt (emit (frame_bytes (address w) data_type payload) w).
Proof.
  intros Hp. unfold _send_data, bind.
  repeat (rewrite write_packed_ok by
            (try apply shift_right_byte; destruct data_type; unfold is_byte;
             simpl; lia)).
  simpl address.
  rewrite send_payload_ok by assumption.
  repeat (rewrite write_packed_ok by apply shift_right_byte).
  repeat rewrite emit_emit.
  unfold frame_bytes, frame, packet_checksum, packet_length.
  rewrite !map_app. simpl. reflexivity.
Qed.

Lemma item_got (zs : list Z) i v (w : W) :
  0 <= i -> zs !! Z.to_nat i = Some v ->
  item (map Got zs) i w = Ret (Got v) w.
Proof.
  intros Hi Hl. unfold item, py_index.
  destruct (i <? 0) eqn:E; [apply Z.ltb_lt in E; lia|].
  rewrite list_lookup_fmap, Hl. reflexivity.
Qed.

Lemma shift_or_got (zs : list Z) i j hi lo (w : W) :
  0 <= i -> 0 <= j ->
  zs !! Z.to_nat i = Some hi -> zs !! Z.to_nat j = Some lo ->
  shift_or (map Got zs) i j w = Ret (or16 hi lo) w.
Proof.
  intros Hi Hj Hhi Hlo. unfold shift_or, bind, or16.
  rewrite (item_got zs i hi w Hi Hhi). cbn [as_int]. unfold ret at 1.
  destruct (_shift_left hi 8 =? 0); [|reflexivity].
  rewrite (item_got zs j lo w Hj Hlo). reflexivity.
Qed.

Lemma collect_payload_got payload pre post acc c (w : W) :
  collect_payload (length payload) (Z.of_nat (length pre))
    (map Got (pre ++ payload ++ post)) acc c w
  = Ret (acc ++ payload, c + sum_bytes payload) w.
Proof.
  revert pre acc c.
  induction payload as [|x rest IH]; intros pre acc c; simpl.
  - unfold ret. now rewrite app_nil_r, Z.add_0_r.
  - unfold bind.
    rewrite (item_got _ (Z.of_nat (length pre)) x w) by
      (try lia; rewrite Nat2Z.id, lookup_app_r by lia;
       now rewrite Nat.sub_diag).
    simpl.
    replace (Z.of_nat (length pre) + 1) with (Z.of_nat (length (pre ++ [x])))
      by (rewrite length_app; simpl; lia).
    replace (pre ++ x :: rest ++ post) with ((pre ++ [x]) ++ rest ++ post)
      by (now rewrite <- app_assoc).
    rewrite IH. now rewrite <- app_assoc, Z.add_assoc.
Qed.

Lemma prefix_lookup (pre rest zs : list Z) i v :
  pre ++ rest = zs -> zs !! i = Some v -> (i < length pre)%nat ->
  pre !! i = Some v.
Proof.
  intros <- Hz Hi. now rewrite lookup_app_l in Hz.
Qed.

Lemma read_fragment_some b p1 (w : W) :
  serial_read (serial w) = (Some b, p1) ->
  read_fragment w = Ret (Some b) (with_serial p1 w).
Proof. intros E. unfold read_fragment. now rewrite E. Qed.

Lemma accepted_framed zs ty payload :
  accepted zs ty payload -> exists total, framed zs ty payload total total.
Proof.
  intros [a3 a2 a1 a0 ty' lh ll pl ch cl Hne Hl Hc].
  exists (ty' + lh + ll + sum_bytes pl).
  rewrite <- Hc at 1. now constructor.
Qed.

Lemma framed_length zs ty payload recv total :
  framed zs ty payload recv total ->
  Z.of_nat (length zs) = packet_length payload + 9 /\ (12 <= length zs)%nat.
Proof.
  intros [a3 a2 a1 a0 ty' lh ll pl ch cl Hne _].
  unfold packet_length. simpl. rewrite length_app. simpl.
  destruct pl; [congruence|simpl; lia].
Qed.

(** The header check and the length field, on a prefix that holds them. *)
Lemma header_and_length (zs : list Z) lh ll {A} (k : Z -> M W A) (w : W) :
  zs !! 0%nat = Some 239 -> zs !! 1%nat = Some 1 ->
  zs !! 7%nat = Some lh -> zs !! 8%nat = Some ll ->
  (_check_packet_header (map Got zs) ;;;
   let* packet_payload_length := shift_or (map Got zs) 7 8 in
   k packet_payload_length) w
  = k (or16 lh ll) w.
Proof.
  intros H0 H1 H7 H8. unfold _check_packet_header.
  change (_shift_right (_enum_to_hexadecimal START_BIT) 8) with 239.
  change (_shift_right (_enum_to_hexadecimal START_BIT) 0) with 1.
  unfold bind.
  rewrite (item_got zs 0 239 w) by (lia || assumption).
  change (frag_ne (Got 239) 239) with false. cbv beta iota.
  rewrite (item_got zs 1 1 w) by (lia || assumption).
  change (frag_ne (Got 1) 1) with false. cbv beta iota. unfold ret at 1.
  rewrite (shift_or_got zs 7 8 lh ll w) by (lia || assumption).
  reflexivity.
Qed.

(** The end of the decoder, on a complete frame. *)
Lemma packet_received_framed zs ty payload recv total (w : W) :
  framed zs ty payload recv total ->
  packet_received (map Got zs) (Z.of_nat (length zs)) (packet_length payload) w
  = if negb (recv =? total) then Raise CorruptedPacket w
    else Ret (ty, payload) w.
Proof.
  intros Hacc. pose proof (framed_length _ _ _ _ _ Hacc) as [Hlen _].
  destruct Hacc as [a3 a2 a1 a0 ty lh ll payload ch cl Hne Hl].
  remember ([239; 1; a3; a2; a1; a0; ty; lh; ll] ++ payload ++ [ch; cl])
    as zs eqn:Ezs.
  assert (H0 : zs !! Z.to_nat 0 = Some 239) by (subst zs; reflexivity).
  assert (H1 : zs !! Z.to_nat 1 = Some 1) by (subst zs; reflexivity).
  assert (H6 : zs !! Z.to_nat 6 = Some ty) by (subst zs; reflexivity).
  assert (H7 : zs !! Z.to_nat 7 = Some lh) by (subst zs; reflexivity).
  assert (H8 : zs !! Z.to_nat 8 = Some ll) by (subst zs; reflexivity).
  assert (Hn : length zs = (9 + length payload + 2)%nat).
  { subst zs. simpl. rewrite length_app. simpl. lia. }
  assert (Hch : zs !! Z.to_nat (Z.of_nat (length zs) - 2) = Some ch).
  { replace (Z.to_nat (Z.of_nat (length zs) - 2)) with (9 + length payload)%nat
      by lia.
    subst zs.
    rewrite lookup_app_r by (simpl; lia).
    rewrite lookup_app_r by (simpl; lia).
    simpl length. replace (9 + length payload - 9 - length payload)%nat
      with 0%nat by lia. reflexivity. }
  assert (Hcl : zs !! Z.to_nat (Z.of_nat (length zs) - 1) = Some cl).
  { replace (Z.to_nat (Z.of_nat (length zs) - 1)) with (10 + length payload)%nat
      by lia.
    subst zs.
    rewrite lookup_app_r by (simpl; lia).
    rewrite lookup_app_r by (simpl; lia).
    simpl length. replace (10 + length payload - 9 - length payload)%nat
      with 1%nat by lia. reflexivity. }
  pose proof (collect_payload_got payload [239; 1; a3; a2; a1; a0; ty; lh; ll]
                [ch; cl] [] (ty + lh + ll) w) as Hcp.
  change (Z.of_nat (length [239; 1; a3; a2; a1; a0; ty; lh; ll])) with 9 in Hcp.
  rewrite <- Ezs in Hcp. clear Ezs.
  unfold packet_received, bind.
  rewrite (item_got zs 6 ty w) by (lia || assumption). cbn [as_int]. unfold ret at 1. cbv beta iota.
  rewrite (item_got zs 7 lh w) by (lia || assumption). cbn [as_int]. unfold ret at 1. cbv beta iota.
  rewrite (item_got zs 8 ll w) by (lia || assumption). cbn [as_int]. unfold ret at 1. cbv beta iota.
  replace (Z.to_nat (packet_length payload - 2)) with (length payload)
    by (unfold packet_length; lia).
  rewrite Hcp. cbv beta iota. cbn [fst snd app].
  rewrite (shift_or_got zs _ _ ch cl w) by (lia || assumption).
  cbv beta iota.
  destruct (negb (or16 ch cl =? ty + lh + ll + sum_bytes payload));
    reflexivity.
Qed.

Lemma framed_fields zs ty payload recv total :
  framed zs ty payload recv total ->
  exists lh ll,
    zs !! 0%nat = Some 239 /\ zs !! 1%nat = Some 1 /\
    zs !! 7%nat = Some lh /\ zs !! 8%nat = Some ll /\
    or16 lh ll = packet_length payload.
Proof.
  intros [a3 a2 a1 a0 ty' lh ll pl ch cl _ Hl].
  exists lh, ll. repeat split; try reflexivity; assumption.
Qed.

Lemma delivers_nil_inv (p p' : P) : delivers p [] p' -> p' = p.
Proof. intros Hd. now inversion Hd. Qed.

(** The decoder loop, part way through a frame: [pre] has been received,
    the bytes [post] are still to come. *)
Lemma read_data_loop_framed post :
  forall pre (w : W) fuel zs ty payload recv total p',
    framed zs ty payload recv total ->
    pre ++ map _unpack_bytes post = zs ->
    delivers (serial w) post p' ->
    (length post <= fuel)%nat ->
    post <> [] ->
    read_data_loop fuel (map Got pre) (Z.of_nat (length pre)) w
    = if negb (recv =? total) then Raise CorruptedPacket (with_serial p' w)
      else Ret (ty, payload) (with_serial p' w).
Proof.
  induction post as [|b post IH];
    intros pre w fuel zs ty payload recv total p' Hacc Hz Hd Hf Hne;
    [congruence|].
  destruct fuel as [|fuel]; [simpl in Hf; lia|].
  inversion Hd as [|q b' p1 bs q' Hread Hrest]; subst q b' bs q'.
  cbn [read_data_loop]. unfold bind at 1.
  rewrite (read_fragment_some b p1 w Hread). cbv beta iota zeta.
  replace (map Got pre ++ [Got (_unpack_bytes b)])
    with (map Got (pre ++ [_unpack_bytes b]))
    by (now rewrite map_app).
  replace (Z.of_nat (length pre) + 1)
    with (Z.of_nat (length (pre ++ [_unpack_bytes b])))
    by (rewrite length_app; simpl; lia).
  remember (pre ++ [_unpack_bytes b]) as pre' eqn:Epre.
  assert (Hz' : pre' ++ map _unpack_bytes post = zs).
  { subst pre'. rewrite <- app_assoc. exact Hz. }
  clear Hz Epre pre.
  destruct (framed_length _ _ _ _ _ Hacc) as [Hlen H12].
  assert (Hsplit : length zs = (length pre' + length post)%nat).
  { rewrite <- Hz', length_app, length_map. reflexivity. }
  simpl in Hf.
  destruct (12 <=? Z.of_nat (length pre')) eqn:E.
  - apply Z.leb_le in E.
    destruct (framed_fields _ _ _ _ _ Hacc)
      as (lh & ll & H0 & H1 & H7 & H8 & Hl).
    rewrite (header_and_length pre' lh ll) by
      (eapply prefix_lookup; [exact Hz'|eassumption|lia]).
    rewrite Hl.
    destruct post as [|b2 post].
    + simpl in Hz'. rewrite app_nil_r in Hz'. subst pre'.
      rewrite Hlen, Z.ltb_irrefl.
      rewrite <- Hlen, (packet_received_framed zs ty payload _ _ _ Hacc).
      now rewrite (delivers_nil_inv _ _ Hrest).
    + assert (Hlt : (Z.of_nat (length pre') <? packet_length payload + 9) = true).
      { apply Z.ltb_lt. simpl in Hsplit. lia. }
      rewrite Hlt.
      rewrite (IH pre' (with_serial p1 w) fuel zs ty payload recv total p');
        try assumption; try reflexivity; try discriminate.
      simpl in *. lia.
  - apply Z.leb_gt in E.
    destruct post as [|b2 post]; [simpl in Hsplit; lia|].
    rewrite (IH pre' (with_serial p1 w) fuel zs ty payload recv total p');
      try assumption; try reflexivity; try discriminate.
    simpl in *. lia.
Qed.

(** Decoding a delivered frame the decoder accepts. *)
Lemma read_data_accepts bs ty payload p' fuel (w : W) :
  accepted (map _unpack_bytes bs) ty payload ->
  delivers (serial w) bs p' ->
  (length bs <= fuel)%nat ->
  _read_data fuel w = Ret (ty, payload) (with_serial p' w).
Proof.
  intros Hacc Hd Hf. destruct (accepted_framed _ _ _ Hacc) as [total Hfr].
  unfold _read_data.
  change (read_data_loop fuel [] 0 w)
    with (read_data_loop fuel (map Got (@nil Z))
            (Z.of_nat (length (@nil Z))) w).
  rewrite (read_data_loop_framed bs [] w fuel _ ty payload total total p' Hfr);
    try assumption; try reflexivity.
  - now rewrite Z.eqb_refl.
  - intros ->. apply framed_length in Hfr. simpl in Hfr. lia.
Qed.

(** Decoding a delivered frame whose checksum field, as the decoder reads
    it, differs from the sum of what came before: a corruption fault. *)
Lemma read_data_rejects bs ty payload recv total p' fuel (w : W) :
  framed (map _unpack_bytes bs) ty payload recv total ->
  recv <> total ->
  delivers (serial w) bs p' ->
  (length bs <= fuel)%nat ->
  _read_data fuel w = Raise CorruptedPacket (with_serial p' w).
Proof.
  intros Hfr Hne Hd Hf. unfold _read_data.
  change (read_data_loop fuel [] 0 w)
    with (read_data_loop fuel (map Got (@nil Z))
            (Z.of_nat (length (@nil Z))) w).
  rewrite (read_data_loop_framed bs [] w fuel _ ty payload recv total p' Hfr);
    try assumption; try reflexivity.
  - apply Z.eqb_neq in Hne. now rewrite Hne.
  - intros ->. apply framed_length in Hfr. simpl in Hfr. lia.
Qed.

Lemma or16_reads_back v :
  reads_back v -> or16 (_shift_right v 8) (_shift_right v 0) = v.
Proof.
  intros [Hv Hz]. unfold or16, _shift_right, _shift_left.
  change (Z.land (Z.shiftr v 8) 0xFF) with (Z.land (Z.shiftr v 8) (Z.ones 8)).
  change (Z.land (Z.shiftr v 0) 0xFF) with (Z.land (Z.shiftr v 0) (Z.ones 8)).
  rewrite !Z.land_ones, !Z.shiftl_mul_pow2, !Z.shiftr_div_pow2 by lia.
  change (2 ^ 8) with 256. change (2 ^ 0) with 1.
  rewrite Z.div_1_r, Z.mul_1_r.
  pose proof (Z.div_mod v 256 ltac:(lia)) as Hdm.
  pose proof (Z.mod_pos_bound v 256 ltac:(lia)) as Hm.
  assert (Hq : 0 <= v / 256 < 256).
  { split; [apply Z.div_pos; lia|apply Z.div_lt_upper_bound; lia]. }
  rewrite (Z.mod_small (v / 256) 256) by lia.
  destruct (v / 256 * 256 =? 0) eqn:E.
  - apply Z.eqb_eq in E. lia.
  - apply Z.eqb_neq in E. destruct Hz as [Hz|Hz]; lia.
Qed.

Lemma frame_is_bytes addr data_type payload :
  Forall is_byte payload -> Forall is_byte (frame addr data_type payload).
Proof.
  intros Hp. unfold frame. cbn [app].
  repeat (apply List.Forall_cons; [try apply shift_right_byte|]).
  - destruct data_type; unfold is_byte; simpl; lia.
  - apply Forall_app; split; [assumption|].
    repeat (apply List.Forall_cons; [apply shift_right_byte|]).
    apply List.Forall_nil.
Qed.

Lemma unpack_frame_bytes addr data_type payload :
  Forall is_byte payload ->
  map _unpack_bytes (frame_bytes addr data_type payload)
  = frame addr data_type payload.
Proof.
  intros Hp. unfold frame_bytes. rewrite map_map.
  pose proof (frame_is_bytes addr data_type payload Hp) as Hf.
  induction Hf as [|x l Hx _ IH]; simpl; [reflexivity|].
  now rewrite (unpack_byte_of x Hx), IH.
Qed.

(** The encoder's frame is one the decoder accepts when the payload is not
    empty and both two-byte fields read back. *)
Lemma frame_accepted addr data_type payload :
  payload <> [] ->
  Forall is_byte payload ->
  reads_back (packet_length payload) ->
  reads_back (packet_checksum data_type payload) ->
  accepted (map _unpack_bytes (frame_bytes addr data_type payload))
    (_enum_to_hexadecimal data_type) payload.
Proof.
  intros Hne Hp Hl Hc. rewrite unpack_frame_bytes by assumption.
  unfold frame.
  change (_shift_right (_enum_to_hexadecimal START_BIT) 8) with 239.
  change (_shift_right (_enum_to_hexadecimal START_BIT) 0) with 1.
  apply accepted_intro; [assumption|now apply or16_reads_back|].
  now rewrite (or16_reads_back _ Hc).
Qed.

End Codec.

Lemma scripted_delivers bs : forall r pend rest,
  delivers (mkFake r pend (map Some bs ++ rest)) bs (mkFake r pend rest).
Proof.
  induction bs as [|b bs IH]; intros r pend rest; simpl.
  - constructor.
  - econstructor; [reflexivity|apply IH].
Qed.

Lemma scripted_plays bs : delivers (scripted (map Some bs)) bs (scripted []).
Proof.
  unfold scripted. rewrite <- (app_nil_r (map Some bs)).
  apply scripted_delivers.
Qed.

Lemma encode_frame_bytes addr data_type payload :
  Forall is_byte payload ->
  encode addr data_type payload = Some (frame_bytes addr data_type payload).
Proof.
  intros Hp. unfold encode. now rewrite send_data_ok.
Qed.

(** C1, as the code has it: for every packet type, every non-empty payload
    of bytes and every address, when the length field and the checksum field
    of the frame are values the decoder reads back exactly (below 65536,
    with a zero high byte or a zero low byte), feeding the bytes written by
    [_send_data] into [_read_data] returns the packet type and the payload
    unchanged, and raises no fault. *)
Theorem codec_roundtrip addr data_type payload fuel :
  payload <> [] ->
  Forall is_byte payload ->
  reads_back (packet_length payload) ->
  reads_back (packet_checksum data_type payload) ->
  (length payload + 11 <= fuel)%nat ->
  exists bs,
    encode addr data_type payload = Some bs /\
    decode_stream fuel (map Some bs)
    = Some (inl (_enum_to_hexadecimal data_type, payload)).
Proof.
  intros Hne Hp Hl Hc Hf.
  exists (frame_bytes addr data_type payload).
  split; [now apply encode_frame_bytes|].
  unfold decode_stream.
  rewrite (read_data_accepts (frame_bytes addr data_type payload)
             (_enum_to_hexadecimal data_type) payload (scripted [])).
  - reflexivity.
  - now apply frame_accepted.
  - apply scripted_plays.
  - unfold frame_bytes, frame. rewrite length_map. simpl.
    rewrite length_app. simpl. lia.
Qed.

Lemma codec_roundtrip_witness :
  exists bs,
    encode 0xFFFFFFFF COMMAND [0x01] = Some bs /\
    decode_stream 12 (map Some bs) = Some (inl (0x01, [0x01])).
Proof.
  apply (codec_roundtrip 0xFFFFFFFF COMMAND [0x01] 12).
  - discriminate.
  - repeat constructor; unfold is_byte; lia.
  - unfold reads_back, packet_length; simpl; lia.
  - unfold reads_back; vm_compute; split; [split; congruence|left; reflexivity].
  - simpl; lia.
Defined.





Section Exchange.
Context {P : Type} `{Transport P}.
Local Abbreviation W := (World P).

Lemma pure_ret {A} allowed (a : A) : pure_with (W:=W) allowed (ret a).
Proof. intros w. left. now exists a. Qed.

Lemma pure_raise {A} (allowed : Exn -> bool) e :
  allowed e = true -> pure_with (W:=W) (A:=A) allowed (raise e).
Proof. intros He w. right. now exists e. Qed.

Lemma pure_bind {A B} allowed (m : M W A) (k : A -> M W B) :
  pure_with allowed m -> (forall a, pure_with allowed (k a)) ->
  pure_with allowed (bind m k).
Proof.
  intros Hm Hk w. unfold bind.
  destruct (Hm w) as [[a ->]|(e & -> & He)].
  - apply Hk.
  - right. now exists e.
Qed.

Lemma pure_lift_option {A} (allowed : Exn -> bool) e (o : option A) :
  allowed e = true -> pure_with (W:=W) allowed (lift_option e o).
Proof.
  intros He. destruct o; [apply pure_ret|now apply pure_raise].
Qed.

Lemma pure_as_int allowed x :
  allowed TypeError = true -> pure_with (W:=W) allowed (as_int x).
Proof. intros He. destruct x; [apply pure_ret|now apply pure_raise]. Qed.

Ltac pure_steps :=
  repeat first
    [ apply pure_ret
    | apply pure_raise; reflexivity
    | apply pure_lift_option; reflexivity
    | apply pure_as_int; reflexivity
    | apply pure_bind; [|intros ?]
    | match goal with
      | |- pure_with _ (if ?b then _ else _) => destruct b
      | |- pure_with _ (let (_, _) := ?x in _) => destruct x
      end ].

Lemma pure_item rd i : pure_with (W:=W) decode_fault (item rd i).
Proof. unfold item. pure_steps. Qed.

Lemma pure_shift_or rd i j : pure_with (W:=W) decode_fault (shift_or rd i j).
Proof. unfold shift_or, item. pure_steps. Qed.

Lemma pure_check_packet_header rd :
  pure_with (W:=W) decode_fault (_check_packet_header rd).
Proof. unfold _check_packet_header, item. pure_steps. Qed.

Lemma pure_collect_payload n : forall i rd payload c,
  pure_with (W:=W) decode_fault (collect_payload n i rd payload c).
Proof.
  induction n as [|n IH]; intros i rd payload c; simpl.
  - apply pure_ret.
  - unfold item. pure_steps. apply IH.
Qed.

Lemma pure_packet_received rd c l :
  pure_with (W:=W) decode_fault (packet_received rd c l).
Proof.
  unfold packet_received, item.
  pure_steps; try apply pure_collect_payload; try apply pure_shift_or.
Qed.

(** [_read_data] touches nothing but the port, and stops only with a
    decoding fault. *)
Lemma read_data_loop_shape fuel : forall rd c (w : W),
  match read_data_loop fuel rd c w with
  | Ret _ w' => exists p, w' = with_serial p w
  | Raise e w' => (exists p, w' = with_serial p w) /\ decode_fault e = true
  | Diverge => True
  end.
Proof.
  induction fuel as [|fuel IH]; intros rd c w; [exact I|].
  cbn [read_data_loop]. unfold bind at 1, read_fragment.
  destruct (serial_read (serial w)) as [r p].
  change (mkWorld p (written w) (address w) (glob w) (timeline w) (ticks w))
    with (with_serial p w).
  set (rd' := rd ++ _). set (w1 := with_serial p w).
  assert (Hrec : match read_data_loop fuel rd' (c + 1) w1 with
                 | Ret _ w' => exists p, w' = with_serial p w
                 | Raise e w' =>
                     (exists p, w' = with_serial p w) /\ decode_fault e = true
                 | Diverge => True
                 end).
  { specialize (IH rd' (c + 1) w1).
    destruct (read_data_loop fuel rd' (c + 1) w1) as [a w'|e w'|]; [| |exact I].
    - destruct IH as [q ->]. now exists q.
    - destruct IH as [[q ->] He]. split; [now exists q|assumption]. }
  destruct (12 <=? c + 1); [|exact Hrec].
  unfold bind.
  destruct (pure_check_packet_header rd' w1) as [[[] ->]|(e & -> & He)];
    [|split; [now exists p|assumption]].
  destruct (pure_shift_or rd' 7 8 w1) as [[l ->]|(e & -> & He)];
    [|split; [now exists p|assumption]].
  destruct (c + 1 <? l + 9); [exact Hrec|].
  destruct (pure_packet_received rd' (c + 1) l w1) as [[a ->]|(e & -> & He)].
  - now exists p.
  - split; [now exists p|assumption].
Qed.

Lemma exchange_shape payload fuel {A} (post : Z * list Z -> M W A)
    (allowed : Exn -> bool) (w : W) :
  Forall is_byte payload ->
  (forall ack, pure_with allowed (post ack)) ->
  (forall e, decode_fault e = true -> allowed e = true) ->
  match (_send_data COMMAND payload ;;;
         let* ack := _read_data fuel in post ack) w with
  | Ret _ w' => exchanged (frame_bytes (address w) COMMAND payload) w w'
  | Raise e w' =>
      exchanged (frame_bytes (address w) COMMAND payload) w w' /\
      allowed e = true
  | Diverge => True
  end.
Proof.
  intros Hp Hpost Hsub. unfold bind.
  rewrite (send_data_ok COMMAND payload w Hp). unfold _read_data.
  set (w1 := emit _ w).
  pose proof (read_data_loop_shape fuel [] 0 w1) as Hr.
  destruct (read_data_loop fuel [] 0 w1) as [ack w2|e w2|]; [| |exact I].
  - destruct Hr as [p ->].
    destruct (Hpost ack (with_serial p w1)) as [[a ->]|(e & -> & He)].
    + now exists p.
    + split; [now exists p|assumption].
  - destruct Hr as [[p ->] He]. split; [now exists p|now apply Hsub].
Qed.

Ltac bytes_goal :=
  repeat (apply List.Forall_cons;
          [first [apply shift_right_byte
                 |unfold is_byte; simpl; lia
                 |match goal with
                  | |- is_byte (_enum_to_hexadecimal (EBuffer ?c)) =>
                      destruct c; unfold is_byte; simpl; lia
                  end]|]);
  apply List.Forall_nil.

Ltac command_shape :=
  apply exchange_shape;
  [ bytes_goal
  | intros [data_type payload]; cbv beta iota;
    unfold first_byte, payload_shift_or; pure_steps
  | intros e He; destruct e; (reflexivity || discriminate He) ].

Lemma scan_shape fuel (w : W) :
  match _scan fuel w with
  | Ret _ w' => exchanged (scan_request (address w)) w w'
  | Raise e w' =>
      exchanged (scan_request (address w)) w w' /\ command_fault e = true
  | Diverge => True
  end.
Proof. unfold _scan, scan_request. command_shape. Qed.

Lemma count_fingers_shape fuel (w : W) :
  match count_fingers fuel w with
  | Ret _ w' => exchanged (count_request (address w)) w w'
  | Raise e w' =>
      exchanged (count_request (address w)) w w' /\ count_fault e = true
  | Diverge => True
  end.
Proof. unfold count_fingers, count_request. command_shape. Qed.

Lemma buffer_image_shape fuel char_buffer (w : W) :
  match _buffer_image fuel char_buffer w with
  | Ret _ w' => exchanged (buffer_request (address w) char_buffer) w w'
  | Raise e w' =>
      exchanged (buffer_request (address w) char_buffer) w w' /\
      command_fault e = true
  | Diverge => True
  end.
Proof. unfold _buffer_image, buffer_request. command_shape. Qed.

Lemma search_template_shape fuel char_buffer (w : W) :
  match _search_template fuel char_buffer w with
  | Ret _ w' => exchanged (search_request (address w) char_buffer) w w'
  | Raise e w' =>
      exchanged (search_request (address w) char_buffer) w w' /\
      command_fault e = true
  | Diverge => True
  end.
Proof. unfold _search_template, search_request. command_shape. Qed.

Lemma create_template_shape fuel (w : W) :
  match _create_template fuel w with
  | Ret _ w' => exchanged (create_request (address w)) w w'
  | Raise e w' =>
      exchanged (create_request (address w)) w w' /\ command_fault e = true
  | Diverge => True
  end.
Proof. unfold _create_template, create_request. command_shape. Qed.

Lemma store_template_shape fuel position char_buffer (w : W) :
  match _store_template fuel position char_buffer w with
  | Ret _ w' => exchanged (store_request (address w) position char_buffer) w w'
  | Raise e w' =>
      exchanged (store_request (address w) position char_buffer) w w' /\
      command_fault e = true
  | Diverge => True
  end.
Proof. unfold _store_template, store_request. command_shape. Qed.

End Exchange.

Section Workflow.
Context {P : Type} `{Transport P}.
Local Abbreviation W := (World P).

Lemma scans_succ addr k :
  scans addr (S k) = scan_request addr ++ scans addr k.
Proof. reflexivity. Qed.

Lemma scans_one addr : scans addr 1 = scan_request addr.
Proof. unfold scans. cbn [replicate concat]. apply app_nil_r. Qed.

Lemma on_no_finger_shape fuel timeout start_time (w : W) :
  match on_no_finger fuel timeout start_time w with
  | Ret again w' =>
      again = true /\ written w' = written w /\ address w' = address w /\
      glob w' = glob w /\ serial w' = serial w
  | Raise e w' =>
      g_status (glob w') = FREE /\
      written w' = written w ++ count_request (address w) /\
      address w' = address w /\
      (e = KillSignal \/ (e = NoFingerFound /\ timeout_set timeout = true)
       \/ count_fault e = true)
  | Diverge => True
  end.
Proof.
  unfold on_no_finger.
  destruct (signal_is_set (glob w) kill_read_finger).
  - unfold bind, clear_signal, set_status. cbv beta iota.
    match goal with |- context [count_fingers fuel ?w2] =>
      pose proof (count_fingers_shape fuel w2) as Hc;
      destruct (count_fingers fuel w2) as [c w3|e w3|]; [| |exact I]
    end.
    + destruct Hc as [p ->]. unfold raise. repeat split; auto.
    + destruct Hc as [[p ->] He]. repeat split; auto.
  - destruct timeout as [t|]; [|unfold ret; repeat split; reflexivity].
    destruct (t =? 0) eqn:Et; [repeat split; reflexivity|].
    unfold bind, get_current_timestamp. cbv beta iota.
    destruct (t <=? timeline w (ticks w) - start_time);
      [|unfold ret; repeat split; reflexivity].
    unfold set_status. cbv beta iota.
    match goal with |- context [count_fingers fuel ?w2] =>
      pose proof (count_fingers_shape fuel w2) as Hc;
      destruct (count_fingers fuel w2) as [c w3|e w3|]; [| |exact I]
    end.
    + destruct Hc as [p ->]. unfold raise. repeat split; auto.
      right; left. split; [reflexivity|]. simpl. now rewrite Et.
    + destruct Hc as [[p ->] He]. repeat split; auto.
Qed.

Lemma count_fault_exit addr e :
  e = KillSignal \/ (e = NoFingerFound /\ True) \/ count_fault e = true ->
  exit_request addr e = count_request addr.
Proof.
  intros [->|[[-> _]|He]]; try reflexivity.
  destruct e; try discriminate He; reflexivity.
Qed.

(** What the detection loop leaves behind on each way out. *)
Lemma read_loop_shape polls : forall fuel timeout start_time (w : W),
  match read_loop polls fuel timeout start_time w with
  | Ret _ w' =>
      glob w' = glob w /\ address w' = address w /\
      exists k, written w' = written w ++ scans (address w) k
  | Raise e w' =>
      g_status (glob w') = FREE /\ address w' = address w /\
      (exists k, written w'
                 = written w ++ scans (address w) k
                   ++ exit_request (address w) e) /\
      (e = NoFingerFound -> timeout_set timeout = true)
  | Diverge => True
  end.
Proof.
  induction polls as [|polls IH]; intros fuel timeout start_time w; [exact I|].
  cbn [read_loop]. unfold bind, try_except.
  pose proof (scan_shape fuel w) as Hs.
  destruct (_scan fuel w) as [[] w1|e w1|]; [| |exact I].
  - destruct Hs as [p ->]. unfold ret. cbv beta iota.
    repeat split; try reflexivity.
    exists 1%nat. now rewrite scans_one.
  - destruct Hs as [[p ->] _].
    set (w1 := with_serial p (emit (scan_request (address w)) w)).
    destruct e;
      try (unfold set_status, raise; cbv beta iota;
           split; [reflexivity|split; [reflexivity|split; [|discriminate]]];
           exists 1%nat; rewrite scans_one;
           change (exit_request (address w) ReadInputError) with (@nil byte);
           rewrite app_nil_r; reflexivity).
    cbv beta iota.
    pose proof (on_no_finger_shape fuel timeout start_time w1) as Hn.
    destruct (on_no_finger fuel timeout start_time w1) as [again w2|e2 w2|];
      [| |exact I].
    + destruct Hn as (-> & Hw & Ha & Hg & _).
      specialize (IH fuel timeout start_time w2).
      destruct (read_loop polls fuel timeout start_time w2) as [[] w3|e3 w3|];
        [| |exact I].
      * destruct IH as (Hg3 & Ha3 & k & Hk).
        rewrite Hg3, Hg, Ha3, Ha. repeat split; try reflexivity.
        exists (S k). rewrite Hk, Hw, Ha, scans_succ. simpl.
        now rewrite <- !app_assoc.
      * destruct IH as (Hs3 & Ha3 & (k & Hk) & Ht).
        rewrite Ha3, Ha. repeat split; try assumption; try reflexivity.
        exists (S k). rewrite Hk, Hw, Ha, scans_succ. simpl.
        now rewrite <- !app_assoc.
    + destruct Hn as (Hs2 & Hw & Ha & He).
      repeat split; try assumption.
      * exists 1%nat. rewrite Hw, scans_one, count_fault_exit.
        -- simpl. now rewrite <- app_assoc.
        -- destruct He as [He|[[He _]|He]]; auto.
      * intros ->. destruct He as [He|[[_ He]|He]];
          [discriminate|assumption|discriminate].
Qed.

Lemma read_loop_faults polls : forall fuel timeout start_time (w : W) e w',
  read_loop polls fuel timeout start_time w = Raise e w' ->
  read_fault e = true.
Proof.
  induction polls as [|polls IH]; intros fuel timeout start_time w e w' Hr;
    [discriminate|].
  cbn [read_loop] in Hr. unfold bind, try_except in Hr.
  destruct (_scan fuel w) as [[] w1|e1 w1|]; [discriminate| |discriminate].
  destruct e1;
    try (unfold set_status, raise in Hr; cbv beta iota in Hr;
         injection Hr as <- _; reflexivity).
  pose proof (on_no_finger_shape fuel timeout start_time w1) as Hn.
  destruct (on_no_finger fuel timeout start_time w1) as [again w2|e2 w2|];
    [| |discriminate].
  - destruct Hn as (-> & _). now apply IH in Hr.
  - injection Hr as <- _. destruct Hn as (_ & _ & _ & He).
    destruct He as [->|[[-> _]|He]]; try reflexivity.
    destruct e2; try discriminate He; reflexivity.
Qed.

Lemma read_faults fuel timeout (w : W) e w' :
  read fuel timeout w = Raise e w' -> read_fault e = true.
Proof.
  unfold read, bind, set_status, get_current_timestamp. cbv beta iota.
  match goal with |- context [read_loop fuel fuel timeout ?st ?w1] =>
    pose proof (read_loop_faults fuel fuel timeout st w1) as Hl;
    destruct (read_loop fuel fuel timeout st w1) as [[] w2|e2 w2|];
      try discriminate
  end.
  intros [= <- _]. now apply (Hl e2 w2).
Qed.

(** With the class's own [get_available_position], nothing in the [try]
    block of [_store_finger] raises [NoAvailablePositionFound]. *)
Lemma store_finger_try_faults fuel position (w : W) e w' :
  store_finger_try get_available_position fuel position w = Raise e w' ->
  e <> NoAvailablePositionFound.
Proof.
  unfold store_finger_try, bind. intros Hr ->.
  pose proof (read_faults fuel None w) as Hread.
  destruct (read fuel None w) as [[] w1|e1 w1|]; [| |discriminate].
  2: { injection Hr as -> _. specialize (Hread _ _ eq_refl). discriminate. }
  pose proof (buffer_image_shape fuel WRITE w1) as Hb.
  destruct (_buffer_image fuel WRITE w1) as [[] w2|e2 w2|]; [| |discriminate].
  2: { injection Hr as -> _. destruct Hb as [_ Hb]. discriminate. }
  pose proof (create_template_shape fuel w2) as Hc.
  destruct (_create_template fuel w2) as [[] w3|e3 w3|]; [| |discriminate].
  2: { injection Hr as -> _. destruct Hc as [_ Hc]. discriminate. }
  assert (Hpos : forall o : Outcome W Z,
             match o with
             | Raise e4 _ => command_fault e4 = true
             | _ => True
             end ->
             match o with
             | Ret available_position w4 =>
                 match _store_template fuel available_position WRITE w4 with
                 | Ret a w5 => ret (Some a) w5
                 | Raise e5 w5 => Raise e5 w5
                 | Diverge => Diverge
                 end
             | Raise e4 w4 => Raise e4 w4
             | Diverge => Diverge
             end = Raise NoAvailablePositionFound w' -> False).
  { intros [p4 w4|e4 w4|] Ho Heq; [| |discriminate].
    - pose proof (store_template_shape fuel p4 WRITE w4) as Hst.
      destruct (_store_template fuel p4 WRITE w4) as [a w5|e5 w5|];
        try discriminate.
      injection Heq as -> _. destruct Hst as [_ Hst]. discriminate.
    - injection Heq as -> _. discriminate. }
  destruct position as [p|].
  - apply (Hpos (ret p w3)); [exact I|exact Hr].
  - apply (Hpos (get_available_position fuel w3)); [|exact Hr].
    unfold get_available_position.
    pose proof (count_fingers_shape fuel w3) as Hcf.
    destruct (count_fingers fuel w3) as [c w4|e4 w4|]; try exact I.
    destruct Hcf as [_ Hcf]. destruct e4; try discriminate Hcf; reflexivity.
Qed.

Lemma read_shape fuel timeout (w : W) :
  match read fuel timeout w with
  | Ret _ w' =>
      g_status (glob w') = FREE /\ address w' = address w /\
      exists k, written w' = written w ++ scans (address w) k
  | Raise e w' =>
      g_status (glob w') = FREE /\ address w' = address w /\
      (exists k, written w'
                 = written w ++ scans (address w) k
                   ++ exit_request (address w) e) /\
      (e = NoFingerFound -> timeout_set timeout = true)
  | Diverge => True
  end.
Proof.
  unfold read, bind, set_status, get_current_timestamp. cbv beta iota.
  match goal with |- context [read_loop fuel fuel timeout ?st ?w1] =>
    pose proof (read_loop_shape fuel fuel timeout st w1) as Hl;
    destruct (read_loop fuel fuel timeout st w1) as [[] w2|e w2|]; [| |exact I]
  end.
  - destruct Hl as (_ & Ha & k & Hk). repeat split; try assumption.
    now exists k.
  - exact Hl.
Qed.

Lemma check_finger_ret fuel timeout (w : W) ps w' :
  check_finger fuel timeout w = Ret ps w' ->
  exists k,
    written w'
    = written w ++ scans (address w) k
      ++ buffer_request (address w) READ ++ search_request (address w) READ.
Proof.
  unfold check_finger, try_except, bind.
  pose proof (read_shape fuel timeout w) as Hr.
  destruct (read fuel timeout w) as [[] w1|e w1|];
    [|destruct e; discriminate|discriminate].
  destruct Hr as (_ & Ha1 & k & Hk).
  pose proof (buffer_image_shape fuel READ w1) as Hb.
  destruct (_buffer_image fuel READ w1) as [[] w2|e w2|];
    [|destruct e; discriminate|discriminate].
  destruct Hb as [p2 ->].
  match goal with |- context [_search_template fuel READ ?w2] =>
    pose proof (search_template_shape fuel READ w2) as Hs;
    destruct (_search_template fuel READ w2) as [ps3 w3|e w3|];
      [|destruct e; discriminate|discriminate]
  end.
  destruct Hs as [p3 ->]. intros [= _ <-].
  exists k. simpl. rewrite Hk, Ha1. now rewrite <- !app_assoc.
Qed.

(** C4, as the code has it: [read] first sets the mode to BUSY, and on
    every way out (return or exception) the mode is FREE.  What it has
    written by then is a run of scan requests, followed by one
    count-templates request exactly when it leaves with an exception other
    than the read-input fault (time-out, cancellation, or a fault of that
    very count exchange); the return after a successful scan and the
    read-input fault send no count request. *)
Theorem read_exit_paths fuel timeout (w : W) :
  (exists w1,
     set_status BUSY w = Ret tt w1 /\ g_status (glob w1) = BUSY /\
     read fuel timeout w
     = (let* start_time := get_current_timestamp in
        read_loop fuel fuel timeout start_time ;;;
        set_status FREE) w1) /\
  match read fuel timeout w with
  | Ret _ w' =>
      g_status (glob w') = FREE /\
      exists k, written w' = written w ++ scans (address w) k
  | Raise e w' =>
      g_status (glob w') = FREE /\
      exists k, written w'
                = written w ++ scans (address w) k
                  ++ exit_request (address w) e
  | Diverge => True
  end.
Proof.
  split.
  - eexists. repeat split.
  - pose proof (read_shape fuel timeout w) as Hr.
    destruct (read fuel timeout w) as [[] w'|e w'|]; [| |exact I].
    + destruct Hr as (Hs & _ & Hk). now split.
    + destruct Hr as (Hs & _ & Hk & _). now split.
Qed.

(** C5: when the verify step of [register] returns a match, [register]
    raises [FingerExists] in the very world verify left; all that has been
    written is scan requests, one buffer-image request and one
    search-template request, so no create-template or store-template
    exchange is issued. *)
Theorem register_refuses_known_finger fuel position timeout (w : W) ps w' :
  g_status (glob w) = FREE ->
  check_finger fuel timeout w = Ret ps w' ->
  register fuel position timeout w = Raise FingerExists w' /\
  exists k,
    written w'
    = written w ++ scans (address w) k
      ++ buffer_request (address w) READ ++ search_request (address w) READ.
Proof.
  intros Hfree Hcheck. split.
  - unfold register, register_with. rewrite Hfree.
    unfold bind, try_except. rewrite Hcheck. reflexivity.
  - exact (check_finger_ret fuel timeout w ps w' Hcheck).
Qed.

End Workflow.

Lemma register_refuses_known_finger_witness :
  exists w',
    register 20 None None
      (on_script (reply [0x00] ++ reply [0x00] ++ reply [0x00; 0; 3; 0; 9]))
    = Raise FingerExists w' /\
    exists k,
      written w'
      = [] ++ scans 0xFFFFFFFF k
        ++ buffer_request 0xFFFFFFFF READ ++ search_request 0xFFFFFFFF READ.
Proof.
  eexists.
  apply (register_refuses_known_finger 20 None None
           (on_script (reply [0x00] ++ reply [0x00] ++ reply [0x00; 0; 3; 0; 9]))
           (3, 9)).
  - reflexivity.
  - vm_compute. reflexivity.
Defined.



(** ** The detection loop against a device that sees no finger *)

Lemma first_true (f : nat -> bool) n :
  f n = true ->
  exists m, (m <= n)%nat /\ f m = true /\
            forall j, (j < m)%nat -> f j = false.
Proof.
  revert f. induction n as [|n IH]; intros f Hn.
  - exists 0%nat. repeat split; [lia|assumption|intros; lia].
  - destruct (f 0%nat) eqn:E0.
    + exists 0%nat. repeat split; [lia|assumption|intros; lia].
    + destruct (IH (fun k => f (S k)) Hn) as (m & Hm & Hfm & Hlt).
      exists (S m). repeat split; [lia|assumption|].
      intros [|j] Hj; [assumption|apply Hlt; lia].
Qed.

Section NoFinger.
Context {P : Type} `{Transport P}.
Local Abbreviation W := (World P).

Variable Inv : P -> Prop.
Variables a hi lo : Z.

(** The reading part of the decoder never gets to twelve bytes. *)
Lemma read_data_loop_short fuel : forall rd c (w : W),
  c + Z.of_nat fuel < 12 -> read_data_loop fuel rd c w = Diverge.
Proof.
  induction fuel as [|fuel IH]; intros rd c w Hc; [reflexivity|].
  cbn [read_data_loop]. unfold bind, read_fragment.
  destruct (serial_read (serial w)) as [r p].
  destruct (12 <=? c + 1) eqn:E; [apply Z.leb_le in E; lia|].
  apply IH. lia.
Qed.

Lemma scan_short fuel (w : W) : (fuel < 12)%nat -> _scan fuel w = Diverge.
Proof.
  intros Hf. unfold _scan, bind.
  rewrite send_data_ok by (repeat constructor; unfold is_byte; simpl; lia).
  unfold _read_data. rewrite read_data_loop_short by lia. reflexivity.
Qed.

Lemma no_finger_accepted :
  accepted (map _unpack_bytes (no_finger_reply a))
    (_enum_to_hexadecimal ACK) [_enum_to_hexadecimal NO_FINGER_FOUND].
Proof.
  unfold no_finger_reply.
  apply (frame_accepted a ACK [_enum_to_hexadecimal NO_FINGER_FOUND]).
  - discriminate.
  - repeat constructor; unfold is_byte; simpl; lia.
  - unfold reads_back, packet_length; simpl; lia.
  - unfold reads_back. vm_compute. split; [split; congruence|left; reflexivity].
Qed.

Lemma count_checksum :
  packet_checksum ACK [_enum_to_hexadecimal SUCCESS; hi; lo] = 12 + hi + lo.
Proof.
  unfold packet_checksum, packet_length. cbn [length sum_bytes].
  change (_shift_right (Z.of_nat 3 + 2) 8) with 0.
  change (_shift_right (Z.of_nat 3 + 2) 0) with 5.
  change (_enum_to_hexadecimal ACK) with 7.
  change (_enum_to_hexadecimal SUCCESS) with 0. lia.
Qed.

Lemma count_accepted :
  is_byte hi -> is_byte lo -> reads_back (12 + hi + lo) ->
  accepted (map _unpack_bytes (count_reply a hi lo))
    (_enum_to_hexadecimal ACK) [_enum_to_hexadecimal SUCCESS; hi; lo].
Proof.
  intros Hhi Hlo Hs. unfold count_reply.
  apply (frame_accepted a ACK [_enum_to_hexadecimal SUCCESS; hi; lo]).
  - discriminate.
  - apply List.Forall_cons; [unfold is_byte; simpl; lia|].
    apply List.Forall_cons; [assumption|].
    apply List.Forall_cons; [assumption|apply List.Forall_nil].
  - unfold reads_back, packet_length; simpl; lia.
  - now rewrite count_checksum.
Qed.

(** One scan exchange with such a device. *)
Lemma scan_reports_no_finger (w : W) :
  Inv (serial w) ->
  answers Inv (scan_request (address w)) (no_finger_reply a) ->
  exists p',
    Inv p' /\
    forall fuel, (12 <= fuel)%nat ->
      _scan fuel w
      = Raise NoFingerFound
          (with_serial p' (emit (scan_request (address w)) w)).
Proof.
  intros Hinv Hans. destruct (Hans _ Hinv) as (p' & Hd & Hinv').
  exists p'. split; [assumption|]. intros fuel Hf.
  unfold _scan, bind.
  rewrite send_data_ok by (repeat constructor; unfold is_byte; simpl; lia).
  fold (scan_request (address w)).
  rewrite (read_data_accepts (no_finger_reply a) (_enum_to_hexadecimal ACK)
             [_enum_to_hexadecimal NO_FINGER_FOUND] p' fuel
             (emit (scan_request (address w)) w) no_finger_accepted Hd)
    by exact Hf.
  reflexivity.
Qed.

(** The count exchange with a device that answers it. *)
Lemma count_fingers_answered (w : W) :
  Inv (serial w) ->
  answers Inv (count_request (address w)) (count_reply a hi lo) ->
  is_byte hi -> is_byte lo -> reads_back (12 + hi + lo) ->
  exists p',
    Inv p' /\
    forall fuel, (14 <= fuel)%nat ->
      count_fingers fuel w
      = Ret (or16 hi lo)
          (with_serial p' (emit (count_request (address w)) w)).
Proof.
  intros Hinv Hans Hhi Hlo Hs. destruct (Hans _ Hinv) as (p' & Hd & Hinv').
  exists p'. split; [assumption|]. intros fuel Hf.
  unfold count_fingers, bind.
  rewrite send_data_ok by (repeat constructor; unfold is_byte; simpl; lia).
  fold (count_request (address w)).
  rewrite (read_data_accepts (count_reply a hi lo) (_enum_to_hexadecimal ACK)
             [_enum_to_hexadecimal SUCCESS; hi; lo] p' fuel
             (emit (count_request (address w)) w)
             (count_accepted Hhi Hlo Hs) Hd) by exact Hf.
  cbv beta iota.
  change (negb (is_code (_enum_to_hexadecimal ACK) ACK)) with false.
  cbv beta iota. unfold first_byte, payload_shift_or, bind, or16.
  change (py_index [_enum_to_hexadecimal SUCCESS; hi; lo] 0)
    with (Some (_enum_to_hexadecimal SUCCESS)).
  change (py_index [_enum_to_hexadecimal SUCCESS; hi; lo] 1) with (Some hi).
  change (py_index [_enum_to_hexadecimal SUCCESS; hi; lo] 2) with (Some lo).
  cbn [lift_option]. unfold ret. cbv beta iota.
  change (is_code (_enum_to_hexadecimal SUCCESS) SUCCESS) with true.
  cbv beta iota.
  destruct (_shift_left hi 8 =? 0); reflexivity.
Qed.

(** With no time-out in force and the flag down, the loop asks again and
    again. *)
Lemma read_loop_never_leaves polls :
  forall fuel timeout start_time (w : W),
    Inv (serial w) ->
    answers Inv (scan_request (address w)) (no_finger_reply a) ->
    signal_is_set (glob w) kill_read_finger = false ->
    timeout_set timeout = false ->
    read_loop polls fuel timeout start_time w = Diverge.
Proof.
  induction polls as [|polls IH];
    intros fuel timeout start_time w Hinv Hans Hflag Hts; [reflexivity|].
  cbn [read_loop]. unfold bind, try_except.
  destruct (le_lt_dec 12 fuel) as [Hf|Hf].
  - destruct (scan_reports_no_finger w Hinv Hans) as (p1 & Hinv1 & Hscan).
    rewrite (Hscan fuel Hf). cbv beta iota.
    unfold on_no_finger. cbn [glob with_serial emit]. rewrite Hflag.
    assert (Hgo : forall w1 : W,
               match timeout with
               | Some t =>
                   if t =? 0 then Ret true w1
                   else
                     (let* now := get_current_timestamp in
                      if t <=? now - start_time
                      then set_status FREE ;;; count_fingers fuel ;;;
                           raise NoFingerFound
                      else ret true) w1
               | None => Ret true w1
               end = Ret true w1).
    { intros w1. destruct timeout as [t|]; [|reflexivity].
      simpl in Hts. apply negb_false_iff in Hts. now rewrite Hts. }
    rewrite Hgo. cbv beta iota.
    apply IH; assumption.
  - now rewrite scan_short.
Qed.

(** With a time-out [T] in force and the flag down, the loop leaves at the
    first clock reading that is [T] or more past the start: [n] readings
    come before it. *)
Lemma read_loop_times_out n :
  forall T start_time (w : W),
    Inv (serial w) ->
    answers Inv (scan_request (address w)) (no_finger_reply a) ->
    answers Inv (count_request (address w)) (count_reply a hi lo) ->
    is_byte hi -> is_byte lo -> reads_back (12 + hi + lo) ->
    signal_is_set (glob w) kill_read_finger = false ->
    T <> 0 ->
    (forall j, (j < n)%nat ->
               timeline w (ticks w + j)%nat - start_time < T) ->
    T <= timeline w (ticks w + n)%nat - start_time ->
    exists w',
      g_status (glob w') = FREE /\
      ticks w' = (ticks w + n + 1)%nat /\
      timeline w' = timeline w /\
      forall polls fuel, (n < polls)%nat -> (14 <= fuel)%nat ->
        read_loop polls fuel (Some T) start_time w = Raise NoFingerFound w'.
Proof.
  induction n as [|n IH];
    intros T start_time w Hinv Hscans Hcounts Hhi Hlo Hs Hflag HT Hearly Hlate.
  - destruct (scan_reports_no_finger w Hinv Hscans) as (p1 & Hinv1 & Hscan).
    set (w1 := with_serial p1 (emit (scan_request (address w)) w)) in *.
    set (w3 := set_glob (mkGlobal (data_status (glob w1)) (Some FREE)
                           (signals (glob w1)))
                 (mkWorld (serial w1) (written w1) (address w1) (glob w1)
                    (timeline w1) (S (ticks w1)))).
    destruct (count_fingers_answered w3 Hinv1 Hcounts Hhi Hlo Hs)
      as (p2 & Hinv2 & Hcount).
    exists (with_serial p2 (emit (count_request (address w3)) w3)).
    split; [reflexivity|]. split; [simpl; lia|]. split; [reflexivity|].
    intros polls fuel Hp Hf. destruct polls as [|polls]; [lia|].
    cbn [read_loop]. unfold bind, try_except.
    rewrite (Hscan fuel) by lia. cbv beta iota.
    unfold on_no_finger.
    change (glob w1) with (glob w). rewrite Hflag.
    apply Z.eqb_neq in HT. rewrite HT.
    unfold bind, get_current_timestamp. cbv beta iota.
    change (timeline w1 (ticks w1)) with (timeline w (ticks w)).
    rewrite Nat.add_0_r in Hlate. apply Z.leb_le in Hlate. rewrite Hlate.
    unfold set_status. cbv beta iota.
    match goal with |- context [count_fingers fuel ?x] => change x with w3 end.
    rewrite (Hcount fuel Hf). reflexivity.
  - destruct (scan_reports_no_finger w Hinv Hscans) as (p1 & Hinv1 & Hscan).
    set (w1 := with_serial p1 (emit (scan_request (address w)) w)) in *.
    set (w2 := mkWorld (serial w1) (written w1) (address w1) (glob w1)
                 (timeline w1) (S (ticks w1))).
    destruct (IH T start_time w2 Hinv1 Hscans Hcounts Hhi Hlo Hs Hflag HT)
      as (w' & Hfree & Hticks & Htl & Hrun).
    + intros j Hj. specialize (Hearly (S j) ltac:(lia)).
      simpl. now replace (S (ticks w + j)) with (ticks w + S j)%nat by lia.
    + simpl. now replace (S (ticks w + n)) with (ticks w + S n)%nat by lia.
    + exists w'. split; [assumption|]. split; [simpl in Hticks; lia|].
      split; [assumption|].
      intros polls fuel Hp Hf. destruct polls as [|polls]; [lia|].
      cbn [read_loop]. unfold bind, try_except.
      rewrite (Hscan fuel) by lia. cbv beta iota.
      unfold on_no_finger.
      change (glob w1) with (glob w). rewrite Hflag.
      pose proof HT as HT'. apply Z.eqb_neq in HT'. rewrite HT'.
      unfold bind, get_current_timestamp. cbv beta iota.
      change (timeline w1 (ticks w1)) with (timeline w (ticks w)).
      specialize (Hearly 0%nat ltac:(lia)). rewrite Nat.add_0_r in Hearly.
      assert (Hnot : (T <=? timeline w (ticks w) - start_time) = false)
        by (apply Z.leb_gt; lia).
      rewrite Hnot. unfold ret. cbv beta iota.
      apply Hrun; lia.
Qed.

(** C6, as the code has it: with a time-out [T] other than zero and the
    cancellation flag down, against a device that answers every scan with
    the no-finger code and the count-templates request with a well-formed
    success acknowledgement, and a clock that at some later reading is [T]
    or more past the start, [read] stops (for every fuel from some bound
    on) by raising [NoFingerFound]; the mode is FREE and the last clock
    reading it took is [T] or more past the start. *)
Theorem read_times_out T (w : W) :
  Inv (serial w) ->
  answers Inv (scan_request (address w)) (no_finger_reply a) ->
  answers Inv (count_request (address w)) (count_reply a hi lo) ->
  is_byte hi -> is_byte lo -> reads_back (12 + hi + lo) ->
  signal_is_set (glob w) kill_read_finger = false ->
  T <> 0 ->
  (exists n, T <= timeline w (ticks w + S n)%nat - timeline w (ticks w)) ->
  exists N w',
    (forall fuel, (N <= fuel)%nat ->
       read fuel (Some T) w = Raise NoFingerFound w') /\
    g_status (glob w') = FREE /\
    T <= timeline w (ticks w' - 1)%nat - timeline w (ticks w).
Proof.
  intros Hinv Hscans Hcounts Hhi Hlo Hs Hflag HT [n Hn].
  set (f := fun j =>
              T <=? timeline w (ticks w + S j)%nat - timeline w (ticks w)).
  destruct (first_true f n) as (m & _ & Hm & Hbefore).
  { unfold f. now apply Z.leb_le. }
  unfold f in Hm. apply Z.leb_le in Hm.
  set (w0 := mkWorld (serial w) (written w) (address w)
               (mkGlobal (data_status (glob w)) (Some BUSY)
                  (signals (glob w)))
               (timeline w) (S (ticks w))).
  destruct (read_loop_times_out m T (timeline w (ticks w)) w0
              Hinv Hscans Hcounts Hhi Hlo Hs Hflag HT)
    as (w' & Hfree & Hticks & Htl & Hrun).
  - intros j Hj. specialize (Hbefore j Hj). unfold f in Hbefore.
    apply Z.leb_gt in Hbefore. simpl.
    now replace (S (ticks w + j)) with (ticks w + S j)%nat by lia.
  - simpl. now replace (S (ticks w + m)) with (ticks w + S m)%nat by lia.
  - exists (Nat.max 14 (S m)), w'. split; [|split; [assumption|]].
    + intros fuel Hfuel.
      unfold read, bind, set_status, get_current_timestamp. cbv beta iota.
      match goal with
      | |- context [read_loop fuel fuel (Some T) ?st ?x] =>
          change x with w0; change st with (timeline w (ticks w))
      end.
      rewrite Hrun by lia. reflexivity.
    + rewrite Hticks. simpl.
      now replace (ticks w + m + 1 - 0)%nat with (ticks w + S m)%nat by lia.
Qed.

(** C7, as the code has it: when the cancellation flag is up and the scan
    reports no finger, [read] clears the flag, sets the mode FREE and, once
    the count-templates exchange it then makes has been answered with a
    well-formed success acknowledgement, raises [KillSignal] -- whatever
    the time-out and the clock, which is not read again after the start. *)
Theorem cancellation_wins timeout fuel (w : W) :
  Inv (serial w) ->
  answers Inv (scan_request (address w)) (no_finger_reply a) ->
  answers Inv (count_request (address w)) (count_reply a hi lo) ->
  is_byte hi -> is_byte lo -> reads_back (12 + hi + lo) ->
  signal_is_set (glob w) kill_read_finger = true ->
  (14 <= fuel)%nat ->
  exists w',
    read fuel timeout w = Raise KillSignal w' /\
    signals (glob w') !! kill_read_finger = Some None /\
    signal_is_set (glob w') kill_read_finger = false /\
    g_status (glob w') = FREE /\
    ticks w' = S (ticks w).
Proof.
  intros Hinv Hscans Hcounts Hhi Hlo Hs Hflag Hfuel.
  set (w0 := mkWorld (serial w) (written w) (address w)
               (mkGlobal (data_status (glob w)) (Some BUSY)
                  (signals (glob w)))
               (timeline w) (S (ticks w))).
  destruct (scan_reports_no_finger w0 Hinv Hscans) as (p1 & Hinv1 & Hscan).
  set (w1 := with_serial p1 (emit (scan_request (address w0)) w0)) in *.
  set (w3 := set_glob
               (mkGlobal (data_status (glob w1)) (Some FREE)
                  (<[kill_read_finger := None]> (signals (glob w1))))
               w1).
  destruct (count_fingers_answered w3 Hinv1 Hcounts Hhi Hlo Hs)
    as (p2 & Hinv2 & Hcount).
  exists (with_serial p2 (emit (count_request (address w3)) w3)).
  split; [|split; [|split; [|split; reflexivity]]].
  - destruct fuel as [|fuel']; [lia|].
    unfold read, bind, set_status, get_current_timestamp. cbv beta iota.
    cbn [read_loop]. unfold bind, try_except.
    match goal with
    | |- context [_scan (S fuel') ?x] => change x with w0
    end.
    rewrite (Hscan (S fuel')) by lia. cbv beta iota.
    unfold on_no_finger.
    change (glob w1) with (glob w0).
    change (signal_is_set (glob w0) kill_read_finger)
      with (signal_is_set (glob w) kill_read_finger).
    rewrite Hflag.
    unfold bind, clear_signal, set_status. cbv beta iota.
    match goal with
    | |- context [count_fingers (S fuel') ?x] => change x with w3
    end.
    rewrite (Hcount (S fuel') Hfuel). reflexivity.
  - simpl. apply lookup_insert_eq.
  - unfold signal_is_set. simpl. now rewrite lookup_insert_eq.
Qed.

End NoFinger.

(** ** A time-out of zero *)

Section ZeroTimeout.
Context {P : Type} `{Transport P}.
Local Abbreviation W := (World P).

Lemma read_loop_zero_is_none polls : forall fuel start_time (w : W),
  read_loop polls fuel (Some 0) start_time w
  = read_loop polls fuel None start_time w.
Proof.
  induction polls as [|polls IH]; intros fuel start_time w; [reflexivity|].
  cbn [read_loop]. unfold bind, try_except.
  destruct (_scan fuel w) as [[] w1|e w1|]; try reflexivity.
  destruct e; try reflexivity.
  change (on_no_finger fuel (Some 0) start_time w1)
    with (on_no_finger fuel None start_time w1).
  destruct (on_no_finger fuel None start_time w1) as [[|] w2|e2 w2|];
    try reflexivity.
  apply IH.
Qed.

(** C10: [read(timeout=0)] runs exactly as [read()] without a time-out; it
    never raises the time-out outcome [NoFingerFound]; and against a device
    that answers every scan with the no-finger code, with the cancellation
    flag down, it gives no outcome whatever the fuel: the loop polls for
    ever. *)
Theorem read_timeout_zero fuel (w : W) :
  read fuel (Some 0) w = read fuel None w /\
  (forall e w', read fuel (Some 0) w = Raise e w' -> e <> NoFingerFound) /\
  (forall (Inv : P -> Prop) a,
     Inv (serial w) ->
     answers Inv (scan_request (address w)) (no_finger_reply a) ->
     signal_is_set (glob w) kill_read_finger = false ->
     read fuel (Some 0) w = Diverge).
Proof.
  split; [|split].
  - unfold read, bind. cbv beta iota.
    destruct (set_status BUSY w) as [[] w1|e w1|]; try reflexivity.
    destruct (get_current_timestamp w1) as [st w2|e w2|]; try reflexivity.
    now rewrite read_loop_zero_is_none.
  - intros e w' Hr.
    pose proof (read_shape fuel (Some 0) w) as Hs. rewrite Hr in Hs.
    destruct Hs as (_ & _ & _ & Ht). intros ->.
    specialize (Ht eq_refl). discriminate Ht.
  - intros Inv a Hinv Hans Hflag.
    unfold read, bind, set_status, get_current_timestamp. cbv beta iota.
    rewrite (read_loop_never_leaves Inv a fuel); try assumption; reflexivity.
Qed.

End ZeroTimeout.

(** ** The fake devices meet the assumptions *)

Lemma put_bytes_fake bs : forall r pend queue,
  put_bytes bs (mkFake r pend queue) = mkFake r (pend ++ bs) queue.
Proof.
  induction bs as [|b bs IH]; intros r pend queue; simpl.
  - now rewrite app_nil_r.
  - unfold Fake_write; simpl. rewrite IH. now rewrite <- app_assoc.
Qed.

Lemma fake_plays r pend bs :
  delivers (mkFake r pend (map Some bs)) bs (mkFake r pend []).
Proof.
  rewrite <- (app_nil_r (map Some bs)). apply scripted_delivers.
Qed.

Lemma fake_answers r request bs :
  r request = map Some bs -> bs <> [] ->
  delivers (put_bytes request (mkFake r [] [])) bs (mkFake r [] []).
Proof.
  intros Hr Hne. rewrite put_bytes_fake. simpl.
  destruct bs as [|b bs]; [congruence|].
  econstructor.
  - simpl. unfold Fake_read; simpl. rewrite Hr. reflexivity.
  - apply fake_plays.
Qed.

Lemma empty_sensor_scans count addr :
  answers (eq (empty_sensor count)) (scan_request addr)
    (no_finger_reply 0xFFFFFFFF).
Proof.
  intros p <-. exists (empty_sensor count). split; [|reflexivity].
  apply fake_answers; [reflexivity|discriminate].
Qed.

Lemma empty_sensor_counts count addr :
  answers (eq (empty_sensor count)) (count_request addr)
    (count_reply 0xFFFFFFFF 0 count).
Proof.
  intros p <-. exists (empty_sensor count). split; [|reflexivity].
  apply fake_answers; [reflexivity|discriminate].
Qed.

Lemma read_times_out_witness :
  exists N w',
    (forall fuel, (N <= fuel)%nat ->
       read fuel (Some 3) idle_sensor_world = Raise NoFingerFound w') /\
    g_status (glob w') = FREE /\
    3 <= timeline idle_sensor_world (ticks w' - 1)%nat
         - timeline idle_sensor_world (ticks idle_sensor_world).
Proof.
  apply (read_times_out (eq (empty_sensor 7)) 0xFFFFFFFF 0 7 3
           idle_sensor_world).
  - reflexivity.
  - apply empty_sensor_scans.
  - apply empty_sensor_counts.
  - unfold is_byte; lia.
  - unfold is_byte; lia.
  - unfold reads_back; lia.
  - reflexivity.
  - discriminate.
  - exists 2%nat. simpl. lia.
Defined.

Lemma cancellation_wins_witness :
  exists w',
    read 20 (Some 1) (with_kill_flag idle_sensor_world) = Raise KillSignal w' /\
    signals (glob w') !! kill_read_finger = Some None /\
    signal_is_set (glob w') kill_read_finger = false /\
    g_status (glob w') = FREE /\
    ticks w' = S (ticks (with_kill_flag idle_sensor_world)).
Proof.
  apply (cancellation_wins (eq (empty_sensor 7)) 0xFFFFFFFF 0 7 (Some 1) 20
           (with_kill_flag idle_sensor_world)).
  - reflexivity.
  - apply empty_sensor_scans.
  - apply empty_sensor_counts.
  - unfold is_byte; lia.
  - unfold is_byte; lia.
  - unfold reads_back; lia.
  - reflexivity.
  - lia.
Defined.

Lemma read_timeout_zero_witness :
  read 20 (Some 0) idle_sensor_world = Diverge.
Proof.
  destruct (read_timeout_zero 20 idle_sensor_world) as (_ & _ & Hforever).
  apply (Hforever (eq (empty_sensor 7)) 0xFFFFFFFF).
  - reflexivity.
  - apply empty_sensor_scans.
  - reflexivity.
Defined.



(** ** Fuel *)

Section Fuel.
Context {P : Type} `{Transport P}.
Local Abbreviation W := (World P).

Lemma stable_const {A} (m : M W A) : stable (fun _ => m).
Proof. intros f f' w _ _. reflexivity. Qed.

Lemma stable_bind {A B} (m : nat -> M W A) (k : A -> nat -> M W B) :
  stable m -> (forall a, stable (k a)) ->
  stable (fun f => bind (m f) (fun a => k a f)).
Proof.
  intros Hm Hk f f' w Hle Hnd. unfold bind in *.
  destruct (m f w) as [a w1|e w1|] eqn:E; [| |congruence].
  - rewrite (Hm f f' w Hle) by congruence. rewrite E. now apply Hk.
  - rewrite (Hm f f' w Hle) by congruence. now rewrite E.
Qed.


Lemma stable_read_data_loop rd c :
  stable (fun f => read_data_loop (P:=P) f rd c).
Proof.
  intros f. revert rd c.
  induction f as [|f IH]; intros rd c f' w Hle Hnd; [now elim Hnd|].
  destruct f' as [|f']; [lia|].
  cbn [read_data_loop] in *. unfold bind in *.
  destruct (read_fragment w) as [r w1|e w1|]; try reflexivity.
  cbv beta iota zeta in *.
  destruct (12 <=? c + 1); [|apply IH; [lia|assumption]].
  destruct (_check_packet_header _ w1) as [u w2|e w2|]; try reflexivity.
  destruct (shift_or _ 7 8 w2) as [l w3|e w3|]; try reflexivity.
  destruct (c + 1 <? l + 9); [apply IH; [lia|assumption]|reflexivity].
Qed.

Lemma stable_read_data : stable (_read_data (P:=P)).
Proof. apply stable_read_data_loop. Qed.

Ltac stable_steps :=
  repeat first
    [ apply stable_read_data
    | apply stable_const
    | apply stable_bind; [|intros ?] ].

Lemma stable_scan : stable (_scan (P:=P)).
Proof. unfold _scan. stable_steps. Qed.


Lemma stable_search_template cb :
  stable (fun f => _search_template (P:=P) f cb).
Proof. unfold _search_template. stable_steps. Qed.

Lemma stable_count_fingers : stable (count_fingers (P:=P)).
Proof. unfold count_fingers. stable_steps. Qed.



Lemma stable_on_no_finger timeout start_time :
  stable (fun f => on_no_finger (P:=P) f timeout start_time).
Proof.
  intros f f' w Hle Hnd. unfold on_no_finger in *.
  destruct (signal_is_set (glob w) kill_read_finger).
  - revert Hnd.
    apply (stable_bind (fun _ => clear_signal kill_read_finger)
             (fun _ f => set_status FREE ;;; count_fingers f ;;;
                         raise KillSignal)); [apply stable_const| |exact Hle].
    intros _. stable_steps.
  - destruct timeout as [t|]; [|reflexivity].
    destruct (t =? 0); [reflexivity|].
    revert Hnd.
    apply (stable_bind (fun _ => get_current_timestamp)
             (fun now f =>
                if t <=? now - start_time
                then set_status FREE ;;; count_fingers f ;;;
                     raise NoFingerFound
                else ret true)); [apply stable_const| |exact Hle].
    intros now. destruct (t <=? now - start_time); [|apply stable_const].
    stable_steps.
Qed.

(** The detection loop, in the number of polls and in the fuel of each
    exchange. *)
Lemma read_loop_more_fuel polls :
  forall polls' fuel fuel' timeout start_time (w : W),
    (polls <= polls')%nat -> (fuel <= fuel')%nat ->
    read_loop polls fuel timeout start_time w <> Diverge ->
    read_loop polls' fuel' timeout start_time w
    = read_loop polls fuel timeout start_time w.
Proof.
  induction polls as [|polls IH];
    intros polls' fuel fuel' timeout start_time w Hp Hf Hnd; [now elim Hnd|].
  destruct polls' as [|polls']; [lia|].
  cbn [read_loop] in *. unfold bind, try_except in *.
  destruct (_scan fuel w) as [[] w1|e w1|] eqn:E; [| |congruence].
  - rewrite (stable_scan fuel fuel' w Hf) by congruence. now rewrite E.
  - rewrite (stable_scan fuel fuel' w Hf) by congruence. rewrite E.
    destruct e; try reflexivity.
    destruct (on_no_finger fuel timeout start_time w1) as [again w2|e2 w2|]
      eqn:En; [| |congruence].
    + rewrite (stable_on_no_finger timeout start_time fuel fuel' w1 Hf)
        by congruence.
      rewrite En. destruct again; [|reflexivity].
      apply IH; [lia|assumption|assumption].
    + rewrite (stable_on_no_finger timeout start_time fuel fuel' w1 Hf)
        by congruence.
      now rewrite En.
Qed.

Lemma stable_read timeout : stable (fun f => read (P:=P) f timeout).
Proof.
  intros f f' w Hle Hnd. unfold read, bind in *.
  destruct (set_status BUSY w) as [u w1|e w1|]; try reflexivity.
  destruct (get_current_timestamp w1) as [st w2|e w2|]; try reflexivity.
  destruct (read_loop f f timeout st w2) as [u2 w3|e w3|] eqn:E;
    [| |congruence].
  - rewrite (read_loop_more_fuel f f' f f' timeout st w2 Hle Hle) by congruence.
    now rewrite E.
  - rewrite (read_loop_more_fuel f f' f f' timeout st w2 Hle Hle) by congruence.
    now rewrite E.
Qed.





End Fuel.

(** ** What the checksum test does catch *)

Lemma sum_bytes_app l1 l2 : sum_bytes (l1 ++ l2) = sum_bytes l1 + sum_bytes l2.
Proof. induction l1 as [|x l1 IH]; simpl; lia. Qed.

Lemma flip_is_byte b k :
  is_byte b -> 0 <= k <= 7 ->
  is_byte (Z.lxor b (Z.shiftl 1 k)) /\ Z.lxor b (Z.shiftl 1 k) <> b.
Proof.
  intros Hb Hk. rewrite Z.shiftl_1_l. unfold is_byte in *.
  assert (Hm : 0 < 2 ^ k < 256).
  { split; [apply Z.pow_pos_nonneg; lia|].
    change 256 with (2 ^ 8). apply Z.pow_lt_mono_r; lia. }
  assert (Hnn : 0 <= Z.lxor b (2 ^ k)) by (apply Z.lxor_nonneg; lia).
  split; [split; [assumption|]|].
  - destruct (Z.eq_dec (Z.lxor b (2 ^ k)) 0) as [E|Hnz]; [lia|].
    enough (Z.lxor b (2 ^ k) < 2 ^ 8) by (change (2 ^ 8) with 256 in *; lia).
    apply Z.log2_lt_pow2; [lia|].
    pose proof (Z.log2_lxor b (2 ^ k) ltac:(lia) ltac:(lia)) as Hl.
    rewrite Z.log2_pow2 in Hl by lia.
    assert (Hlb : Z.log2 b < 8).
    { destruct (Z.eq_dec b 0) as [->|Hb0]; [simpl; lia|].
      apply Z.log2_lt_pow2; [lia|]. change (2 ^ 8) with 256. lia. }
    lia.
  - intros E.
    assert (H2 : Z.lxor b (Z.lxor b (2 ^ k)) = 2 ^ k)
      by (rewrite <- Z.lxor_assoc, Z.lxor_nilpotent; apply Z.lxor_0_l).
    rewrite E, Z.lxor_nilpotent in H2. lia.
Qed.

Lemma flip_frame_bytes addr data_type pre b post k :
  Forall is_byte (pre ++ b :: post) ->
  flip_payload_bit (length pre) k
    (frame_bytes addr data_type (pre ++ b :: post))
  = map byte_of
      (frame_carrying addr data_type (pre ++ b :: post)
         (pre ++ Z.lxor b (Z.shiftl 1 k) :: post)).
Proof.
  intros Hp. unfold flip_payload_bit, frame_bytes.
  rewrite <- (list_fmap_alter byte_of (fun x => Z.lxor x (Z.shiftl 1 k))).
  - f_equal. unfold frame, frame_carrying.
    match goal with
    | |- alter _ _ (?h ++ _) = _ =>
        change (9 + length pre)%nat with (length h + length pre)%nat
    end.
    rewrite alter_app_r. f_equal.
    rewrite <- !app_assoc.
    rewrite <- (Nat.add_0_r (length pre)), alter_app_r. reflexivity.
  - eapply Forall_impl; [apply (frame_is_bytes addr data_type _ Hp)|].
    intros x Hx. unfold flip_bit. now rewrite (unpack_byte_of x Hx).
Qed.

(** Where both two-byte fields of the frame read back, a flipped bit in a
    payload byte is caught. *)
Lemma single_bit_flip_detected addr data_type pre b post k fuel :
  Forall is_byte (pre ++ b :: post) ->
  0 <= k <= 7 ->
  reads_back (packet_length (pre ++ b :: post)) ->
  reads_back (packet_checksum data_type (pre ++ b :: post)) ->
  (length (pre ++ b :: post) + 11 <= fuel)%nat ->
  decode_stream fuel
    (map Some
       (flip_payload_bit (length pre) k
          (frame_bytes addr data_type (pre ++ b :: post))))
  = Some (inr CorruptedPacket).
Proof.
  intros Hp Hk Hl Hc Hf.
  assert (Hb : is_byte b).
  { apply Forall_app in Hp as [_ Hp]. now inversion Hp. }
  destruct (flip_is_byte b k Hb Hk) as [Hb' Hne].
  set (b' := Z.lxor b (Z.shiftl 1 k)) in *.
  assert (Hp' : Forall is_byte (pre ++ b' :: post)).
  { apply Forall_app in Hp as [Hpre Hpost]. apply Forall_app. split;
      [assumption|]. inversion Hpost; subst. now constructor. }
  rewrite flip_frame_bytes by assumption. fold b'.
  set (zs := frame_carrying addr data_type (pre ++ b :: post)
               (pre ++ b' :: post)).
  assert (Hzs : Forall is_byte zs).
  { unfold zs, frame_carrying. cbn [app].
    repeat (apply List.Forall_cons; [try apply shift_right_byte|]).
    - destruct data_type; unfold is_byte; simpl; lia.
    - apply Forall_app; split; [assumption|].
      repeat (apply List.Forall_cons; [apply shift_right_byte|]).
      apply List.Forall_nil. }
  assert (Hun : map _unpack_bytes (map byte_of zs) = zs).
  { rewrite map_map. clear -Hzs.
    induction Hzs as [|x l Hx _ IH]; simpl; [reflexivity|].
    now rewrite (unpack_byte_of x Hx), IH. }
  assert (Hlen : packet_length (pre ++ b' :: post)
                 = packet_length (pre ++ b :: post)).
  { unfold packet_length. rewrite !length_app. reflexivity. }
  unfold decode_stream.
  rewrite (read_data_rejects (map byte_of zs)
             (_enum_to_hexadecimal data_type) (pre ++ b' :: post)
             (or16 (_shift_right (packet_checksum data_type (pre ++ b :: post)) 8)
                (_shift_right (packet_checksum data_type (pre ++ b :: post)) 0))
             (_enum_to_hexadecimal data_type
              + _shift_right (packet_length (pre ++ b :: post)) 8
              + _shift_right (packet_length (pre ++ b :: post)) 0
              + sum_bytes (pre ++ b' :: post))
             (scripted [])).
  - reflexivity.
  - rewrite Hun. unfold zs, frame_carrying.
    change (_shift_right (_enum_to_hexadecimal START_BIT) 8) with 239.
    change (_shift_right (_enum_to_hexadecimal START_BIT) 0) with 1.
    apply framed_intro.
    + destruct pre; discriminate.
    + rewrite Hlen. now apply or16_reads_back.
  - rewrite (or16_reads_back _ Hc). unfold packet_checksum.
    rewrite !sum_bytes_app. simpl. lia.
  - apply scripted_plays.
  - rewrite length_map. unfold zs, frame_carrying. simpl.
    rewrite !length_app in *. simpl in *. lia.
Qed.

(** ** Where the code departs from the specification, at concrete inputs *)

(** Running [m] at fuel [n] settles it for every larger fuel. *)
Ltac from_fuel lem n :=
  let fuel := fresh "fuel" in
  let Hf := fresh "Hf" in
  let E := fresh "E" in
  intros fuel Hf;
  pose proof (fun w => lem n fuel w Hf) as E; cbv beta in E;
  rewrite E; [vm_compute; reflexivity|vm_compute; discriminate].

(** C1 fails as stated: the frame of an empty payload is 11 bytes long, the
    decoder waits for a twelfth read and then takes the checksum bytes one
    place too far to the right. *)
Lemma roundtrip_empty_payload_corrupted :
  exists bs,
    encode 0xFFFFFFFF COMMAND [] = Some bs /\
    forall fuel, (12 <= fuel)%nat ->
      decode_stream fuel (map Some bs) = Some (inr CorruptedPacket).
Proof.
  eexists. split; [vm_compute; reflexivity|].
  unfold decode_stream. from_fuel (stable_read_data (P:=Fake)) 12%nat.
Qed.

(** C2 does not hold: the two-byte results are rebuilt with [or], so a
    non-zero high byte hides the low byte.  A search answer with position
    bytes [01 02] and score bytes [01 05] gives position 256 and score 256
    (not 258 and 261); a count answer [01 02] gives 256 (not 258). *)
Theorem two_byte_results_drop_low_byte :
  (forall fuel, (16 <= fuel)%nat ->
     result (_search_template fuel READ (on_script (reply [0x00; 1; 2; 1; 5])))
     = Some (inl (256, 256))) /\
  (forall fuel, (14 <= fuel)%nat ->
     result (count_fingers fuel (on_script (reply [0x00; 1; 2])))
     = Some (inl 256)).
Proof.
  split.
  - from_fuel (stable_search_template (P:=Fake) READ) 16%nat.
  - from_fuel (stable_count_fingers (P:=Fake)) 14%nat.
Qed.

(** C3 does not hold: the frame of [COMMAND] with payload [251, 1] carries
    the checksum 257 as the bytes [01 01], which the decoder reads as 256;
    with bit 0 of the second payload byte flipped the payload sums to that
    very 256, and the damaged packet is returned instead of a fault. *)
Theorem flipped_bit_passes_checksum :
  exists bs,
    encode 0xFFFFFFFF COMMAND [251; 1] = Some bs /\
    map _unpack_bytes bs
    = [239; 1; 255; 255; 255; 255; 1; 0; 4; 251; 1; 1; 1] /\
    map _unpack_bytes (flip_payload_bit 1 0 bs)
    = [239; 1; 255; 255; 255; 255; 1; 0; 4; 251; 0; 1; 1] /\
    forall fuel, (13 <= fuel)%nat ->
      decode_stream fuel (map Some (flip_payload_bit 1 0 bs))
      = Some (inl (1, [251; 0])).
Proof.
  eexists. split; [vm_compute; reflexivity|].
  split; [vm_compute; reflexivity|]. split; [vm_compute; reflexivity|].
  unfold decode_stream. from_fuel (stable_read_data (P:=Fake)) 13%nat.
Qed.

(** C9 does not hold: the empty read is stored and counted, but the stored
    empty [bytes] object then goes into the arithmetic of the decoder.  A
    device that falls silent after the nine header bytes of an
    acknowledgement, or that misses only the payload byte, makes
    [_read_data] stop with a [TypeError]. *)
Theorem empty_read_raises_type_error :
  (forall fuel, (12 <= fuel)%nat ->
     decode_stream fuel (firstn 9 (reply [0x02])) = Some (inr TypeError)) /\
  (forall fuel, (12 <= fuel)%nat ->
     decode_stream fuel (<[9%nat := None]> (reply [0x02]))
     = Some (inr TypeError)).
Proof.
  unfold decode_stream.
  split; from_fuel (stable_read_data (P:=Fake)) 12%nat.
Qed.

(** C4 fails as stated: after a successful scan [read] returns with the
    mode FREE, and the scan request is all it has written; no
    count-templates exchange took place. *)
Lemma read_success_sends_no_count :
  exists w',
    (forall fuel, (12 <= fuel)%nat ->
       read fuel None (on_script (reply [0x00])) = Ret tt w') /\
    g_status (glob w') = FREE /\
    written w' = scan_request 0xFFFFFFFF /\
    written w' <> scan_request 0xFFFFFFFF ++ count_request 0xFFFFFFFF.
Proof.
  eexists. split; [|split; [|split]].
  - from_fuel (stable_read (P:=Fake) None) 12%nat.
  - reflexivity.
  - vm_compute; reflexivity.
  - vm_compute; discriminate.
Qed.

(** C6 fails as stated: a device that answers everything it is sent with
    the no-finger code makes every scan report no finger; at the first
    clock reading one unit has passed, [read(timeout=1)] sets the mode FREE
    and asks for the count, the answer to which is an unknown code, and it
    is [UnknownError] that leaves [read], not the time-out outcome. *)
Lemma time_out_lost_to_count_fault :
  (forall fuel, (12 <= fuel)%nat ->
     result (_scan fuel (world0 only_no_finger 0xFFFFFFFF))
     = Some (inr NoFingerFound)) /\
  (forall fuel, (12 <= fuel)%nat ->
     result (read fuel (Some 1) (world0 only_no_finger 0xFFFFFFFF))
     = Some (inr UnknownError)).
Proof.
  split.
  - from_fuel (stable_scan (P:=Fake)) 12%nat.
  - from_fuel (stable_read (P:=Fake) (Some 1)) 12%nat.
Qed.

(** C7 fails as stated: with the flag up, against the same device, the
    flag is cleared but the fault of the count exchange leaves [read] in
    place of [KillSignal]. *)
Lemma cancellation_lost_to_count_fault :
  signal_is_set (glob (with_kill_flag (world0 only_no_finger 0xFFFFFFFF)))
    kill_read_finger = true /\
  (forall fuel, (12 <= fuel)%nat ->
     result (read fuel (Some 1)
               (with_kill_flag (world0 only_no_finger 0xFFFFFFFF)))
     = Some (inr UnknownError)) /\
  (forall fuel, (12 <= fuel)%nat ->
     option_map (fun w => signal_is_set (glob w) kill_read_finger)
       (final (read fuel (Some 1)
                 (with_kill_flag (world0 only_no_finger 0xFFFFFFFF))))
     = Some false).
Proof.
  split; [reflexivity|].
  split; from_fuel (stable_read (P:=Fake) (Some 1)) 12%nat.
Qed.

(** * Further properties of the code *)

(** ** [Global.get] *)

Module GlobalManagerFacts.
Import GlobalManager.

Lemma split_dot_nonempty s : split_dot s <> [].
Proof.
  destruct s as [|c rest]; simpl; [discriminate|].
  destruct (Ascii.eqb c "."); [discriminate|].
  destruct (split_dot rest); discriminate.
Qed.

Lemma split_dot_dot_free k : dot_free k = true -> split_dot k = [k].
Proof.
  induction k as [|c k IH]; simpl; [reflexivity|].
  intros Hk. apply andb_prop in Hk as [Hc Hk].
  apply negb_true_iff in Hc. rewrite Hc, (IH Hk). reflexivity.
Qed.

Lemma split_dot_segment k s :
  dot_free k = true ->
  split_dot (String.append k (String "." s)) = k :: split_dot s.
Proof.
  induction k as [|c k IH]; simpl; [reflexivity|].
  intros Hk. apply andb_prop in Hk as [Hc Hk].
  apply negb_true_iff in Hc. rewrite Hc, (IH Hk). reflexivity.
Qed.

Lemma split_join keys :
  keys <> [] -> Forall (fun k => dot_free k = true) keys ->
  split_dot (join_dot keys) = keys.
Proof.
  intros Hne Hk. induction Hk as [|k rest Hk Hrest IH]; [congruence|].
  destruct rest as [|k2 rest].
  - simpl. now apply split_dot_dot_free.
  - change (join_dot (k :: k2 :: rest))
      with (String.append k (String "." (join_dot (k2 :: rest)))).
    rewrite (split_dot_segment k _ Hk), IH by discriminate. reflexivity.
Qed.

Lemma descend_empty keys default :
  keys <> [] -> descend ∅ keys default = Some default.
Proof.
  destruct keys as [|k [|k2 rest]]; intros Hne; [congruence| |];
    simpl; now rewrite lookup_empty.
Qed.

(** Past the first key, on a value that is no dict, the loop stops with the
    attribute error. *)
Lemma get_loop_not_dict _data iteration counter keys result default :
  (2 <= counter)%nat -> keys <> [] ->
  (forall d, result <> VDict d) ->
  get_loop _data iteration counter keys result default = None.
Proof.
  intros Hc Hne Hnd. destruct keys as [|k rest]; [congruence|]. simpl.
  destruct (Nat.eqb counter 1) eqn:E; [apply Nat.eqb_eq in E; lia|].
  assert (Hg : forall dflt, dict_get result k dflt = None).
  { intros dflt. destruct result; try reflexivity. now elim (Hnd d). }
  rewrite !Hg. now destruct (Nat.ltb counter iteration).
Qed.

Lemma get_loop_cons _data iteration counter k rest result default :
  get_loop _data iteration counter (k :: rest) result default
  = match
      (if Nat.eqb counter 1 then dict_get (VDict _data) k (VDict ∅)
       else if Nat.ltb counter iteration
            then dict_get result k (VDict ∅)
            else dict_get result k default)
    with
    | Some result' => get_loop _data iteration (S counter) rest result' default
    | None => None
    end.
Proof. reflexivity. Qed.

(** The loop from any key on, holding the dict [cur]. *)
Lemma get_loop_descend _data keys :
  forall iteration counter cur result default,
    keys <> [] ->
    iteration = (counter - 1 + length keys)%nat ->
    (counter = 1%nat /\ cur = _data) \/
    ((2 <= counter)%nat /\ result = VDict cur) ->
    (counter = 1%nat -> (2 <= length keys)%nat) ->
    get_loop _data iteration counter keys result default
    = descend cur keys default.
Proof.
  induction keys as [|k rest IH];
    intros iteration counter cur result default Hne Hit Hcur Hfirst;
    [congruence|].
  assert (Hget : forall dflt,
             (if Nat.eqb counter 1 then dict_get (VDict _data) k dflt
              else dict_get result k dflt)
             = dict_get (VDict cur) k dflt).
  { intros dflt. destruct Hcur as [[-> ->]|[Hc ->]]; [reflexivity|].
    destruct (Nat.eqb counter 1) eqn:E; [apply Nat.eqb_eq in E; lia|].
    reflexivity. }
  destruct rest as [|k2 rest].
  - (* the last key *)
    assert (Hc : (2 <= counter)%nat).
    { destruct Hcur as [[Hc _]|[Hc _]]; [|assumption].
      specialize (Hfirst Hc). simpl in Hfirst. lia. }
    cbn [get_loop].
    destruct (Nat.eqb counter 1) eqn:E; [apply Nat.eqb_eq in E; lia|].
    assert (Hlt : Nat.ltb counter iteration = false)
      by (apply Nat.ltb_ge; simpl in Hit; lia).
    rewrite Hlt. destruct Hcur as [[Hc1 _]|[_ ->]]; [lia|]. reflexivity.
  - assert (Hlt : Nat.ltb counter iteration = true)
      by (apply Nat.ltb_lt; simpl in Hit; lia).
    rewrite get_loop_cons.
    assert (Hstep :
      (if Nat.eqb counter 1 then dict_get (VDict _data) k (VDict ∅)
       else if Nat.ltb counter iteration
            then dict_get result k (VDict ∅)
            else dict_get result k default)
      = dict_get (VDict cur) k (VDict ∅)).
    { rewrite Hlt. apply Hget. }
    rewrite Hstep. cbn [dict_get].
    change (descend cur (k :: k2 :: rest) default)
      with (match cur !! k with
            | Some (VDict d') => descend d' (k2 :: rest) default
            | Some _ => None
            | None => Some default
            end).
    destruct (cur !! k) as [v|] eqn:Ek.
    + destruct v as [| | | | |d'];
        try (apply get_loop_not_dict; [lia|discriminate|discriminate]).
      apply IH; [discriminate|simpl in *; lia|right; split; [lia|reflexivity]|lia].
    + rewrite (IH iteration (S counter) ∅ (VDict ∅) default);
        [apply descend_empty; discriminate|discriminate|simpl in *; lia
        |right; split; [lia|reflexivity]|lia].
Qed.

Lemma get_descend _data keys default :
  keys <> [] -> Forall (fun k => dot_free k = true) keys ->
  get _data (join_dot keys) default = descend _data keys default.
Proof.
  intros Hne Hk. unfold get. rewrite (split_join keys Hne Hk).
  destruct keys as [|k [|k2 rest]]; [congruence|reflexivity|].
  change (Nat.ltb 1 (length (k :: k2 :: rest))) with true. cbv iota.
  apply get_loop_descend;
    [discriminate|simpl; lia|left; split; reflexivity|simpl; lia].
Qed.

(** X1: for a key made of dot-free segments joined by dots, [Global.get]
    goes down [_data] segment by segment: a segment missing at any depth
    gives the default (never a [KeyError]), a value in the way that is not a
    dict gives the [AttributeError], and otherwise the innermost value is
    returned. *)
Theorem get_follows_path _data keys default :
  keys <> [] -> Forall (fun k => dot_free k = true) keys ->
  get _data (join_dot keys) default = descend _data keys default.
Proof. apply get_descend. Qed.

Lemma get_follows_path_witness :
  get (data_of Global_init) (join_dot ["signals"; "kill_read_finger"]) (VBool false)
  = descend (data_of Global_init) ["signals"; "kill_read_finger"] (VBool false).
Proof.
  apply (get_follows_path (data_of Global_init)
           ["signals"; "kill_read_finger"] (VBool false)).
  - discriminate.
  - repeat constructor.
Defined.

Lemma data_of_signals g :
  data_of g !! "signals" = Some (VDict (signal_value <$> signals g)).
Proof.
  unfold data_of. rewrite lookup_insert_ne by discriminate.
  apply lookup_insert_eq.
Qed.

Lemma data_of_status g : data_of g !! "status" = Some (VStatus (data_status g)).
Proof. unfold data_of. apply lookup_insert_eq. Qed.

(** X2: on the [_data] of the driver's [Global], the dotted key
    ["signals.<name>"] reads the signal the driver tests with
    [g.signals.get(name)] (the default when it was never set), ["status"]
    reads the initial mode, and a key below ["status"] stops with the
    [AttributeError], the mode being no dict. *)
Theorem get_reads_signals g name default :
  dot_free name = true ->
  get (data_of g) (String.append "signals." name) default
  = Some (match signals g !! name with
          | Some v => signal_value v
          | None => default
          end) /\
  (get (data_of g) (String.append "signals." name) VNone = Some (VBool true)
   <-> signal_is_set g name = true) /\
  getattr (data_of g) "status" = Some (VStatus (data_status g)) /\
  get (data_of g) (String.append "status." name) default = None.
Proof.
  intros Hname.
  assert (Hsig : forall dflt,
             get (data_of g) (String.append "signals." name) dflt
             = Some (match signals g !! name with
                     | Some v => signal_value v
                     | None => dflt
                     end)).
  { intros dflt.
    change (String.append "signals." name) with (join_dot ["signals"; name]).
    rewrite get_descend by (try discriminate; repeat constructor; assumption).
    cbn [descend]. rewrite data_of_signals, lookup_fmap.
    now destruct (signals g !! name). }
  split; [apply Hsig|]. split; [|split].
  - rewrite Hsig. unfold signal_is_set.
    destruct (signals g !! name) as [[[|]|]|]; simpl; split;
      congruence.
  - unfold getattr, get. simpl. now rewrite data_of_status.
  - change (String.append "status." name) with (join_dot ["status"; name]).
    rewrite get_descend by (try discriminate; repeat constructor; assumption).
    cbn [descend]. now rewrite data_of_status.
Qed.

Lemma get_reads_signals_witness :
  get (data_of Global_init) (String.append "signals." "kill_read_finger") VNone
  = Some VNone.
Proof.
  destruct (get_reads_signals Global_init "kill_read_finger" VNone eq_refl)
    as [Hget _].
  exact Hget.
Defined.

End GlobalManagerFacts.

(** ** [DataClass.to_json] *)

Module DataClassesFacts.
Import DataClasses.

Lemma fold_insert_lookup (data : gmap string Json) fields :
  forall (acc : gmap string Json) k,
    fold_left
      (fun result_fields field_name =>
         <[field_name := field_or_null data field_name]> result_fields)
      fields acc !! k
    = if decide (k ∈ fields) then Some (field_or_null data k) else acc !! k.
Proof.
  induction fields as [|f fields IH]; intros acc k; simpl.
  - destruct (decide (k ∈ [])) as [Hin|_]; [|reflexivity].
    now apply elem_of_nil in Hin.
  - rewrite IH.
    destruct (decide (k ∈ fields)) as [Hin|Hnin].
    + destruct (decide (k ∈ f :: fields)) as [_|Hn]; [reflexivity|].
      elim Hn. now apply elem_of_cons; right.
    + destruct (decide (k = f)) as [->|Hne].
      * rewrite lookup_insert_eq.
        destruct (decide (f ∈ f :: fields)) as [_|Hn]; [reflexivity|].
        elim Hn. apply elem_of_cons; now left.
      * rewrite lookup_insert_ne by congruence.
        destruct (decide (k ∈ f :: fields)) as [Hin|_]; [|reflexivity].
        apply elem_of_cons in Hin as [?|?]; [congruence|contradiction].
Qed.

Lemma fold_delete_lookup fields :
  forall (data : gmap string Json) k,
    fold_left (fun data excluded_field => base.delete excluded_field data)
      fields data !! k
    = if decide (k ∈ fields) then None else data !! k.
Proof.
  induction fields as [|f fields IH]; intros data k; simpl.
  - destruct (decide (k ∈ [])) as [Hin|_]; [|reflexivity].
    now apply elem_of_nil in Hin.
  - rewrite IH.
    destruct (decide (k ∈ fields)) as [Hin|Hnin].
    + destruct (decide (k ∈ f :: fields)) as [_|Hn]; [reflexivity|].
      elim Hn. now apply elem_of_cons; right.
    + destruct (decide (k = f)) as [->|Hne].
      * rewrite lookup_delete_eq.
        destruct (decide (f ∈ f :: fields)) as [_|Hn]; [reflexivity|].
        elim Hn. apply elem_of_cons; now left.
      * rewrite lookup_delete_ne by congruence.
        destruct (decide (k ∈ f :: fields)) as [Hin|_]; [|reflexivity].
        apply elem_of_cons in Hin as [?|?]; [congruence|contradiction].
Qed.

(** X3: with a non-empty [include], [to_json] returns exactly the included
    names, each with the field's value or null when the dataclass has no
    such field; [exclude] plays no part. *)
Theorem to_json_include self f fs exclude k :
  to_json self (Some (f :: fs)) exclude !! k
  = if decide (k ∈ f :: fs) then Some (field_or_null (asdict self) k)
    else None.
Proof.
  unfold to_json, select_fields. rewrite fold_insert_lookup.
  destruct (decide (k ∈ f :: fs)); [reflexivity|apply lookup_empty].
Qed.

(** X4: with [include] left out or empty, [to_json] returns every field
    of the dataclass but the excluded ones; excluding a name that is no
    field changes nothing. *)
Theorem to_json_exclude self exclude k :
  to_json self None (Some exclude) !! k
  = (if decide (k ∈ exclude) then None else asdict self !! k) /\
  to_json self (Some []) (Some exclude) = to_json self None (Some exclude) /\
  to_json self None None = asdict self /\
  (forall name, asdict self !! name = None ->
     to_json self None (Some [name]) = asdict self).
Proof.
  split; [|split; [reflexivity|split; [reflexivity|]]].
  - unfold to_json, select_fields.
    destruct exclude as [|x l]; [|apply fold_delete_lookup].
    simpl. destruct (decide (k ∈ [])) as [Hin|_]; [|reflexivity].
    now apply elem_of_nil in Hin.
  - intros name Hname. unfold to_json, select_fields. simpl.
    now apply delete_id.
Qed.

End DataClassesFacts.

(** ** [_get_bit_by_pos] *)

(** X5: for a position that is not negative, [_get_bit_by_pos] does not
    look at the bit at all: it returns 1 for every non-zero [data] and 0 for
    zero, the [and] in it being the logical one.  For [data = 2] and
    [pos = 0] it gives 1, where bit 0 of 2 is 0. *)
Theorem get_bit_ignores_position d pos :
  0 <= pos ->
  _get_bit_by_pos (Got d) pos = Some (if d =? 0 then 0 else 1).
Proof.
  intros Hpos. unfold _get_bit_by_pos.
  destruct (d =? 0) eqn:Ed.
  - apply Z.eqb_eq in Ed. now subst d.
  - destruct (pos <? 0) eqn:Ep; [apply Z.ltb_lt in Ep; lia|].
    unfold _shift_left. rewrite Z.shiftl_1_l.
    assert (H2 : 0 < 2 ^ pos) by (apply Z.pow_pos_nonneg; lia).
    apply Z.ltb_lt in H2. now rewrite H2.
Qed.

Lemma get_bit_ignores_position_witness :
  _get_bit_by_pos (Got 2) 0 = Some 1 /\ Z.testbit 2 0 = false.
Proof.
  split; [|reflexivity].
  apply (get_bit_ignores_position 2 0). lia.
Defined.

(** ** The decoder on any transport *)

Section Decoder.
Context {P : Type} `{Transport P}.
Local Abbreviation W := (World P).

Lemma such_ret {A} (Q : A -> Prop) allowed a :
  Q a -> pure_such (P:=P) Q allowed (ret a).
Proof. intros Ha w. left. now exists a. Qed.

Lemma such_raise {A} (Q : A -> Prop) (allowed : Exn -> bool) e :
  allowed e = true -> pure_such (P:=P) Q allowed (raise e).
Proof. intros He w. right. now exists e. Qed.

Lemma such_bind {A B} (Q : A -> Prop) (R : B -> Prop) allowed
    (m : M W A) (k : A -> M W B) :
  pure_such Q allowed m ->
  (forall a, Q a -> pure_such R allowed (k a)) ->
  pure_such R allowed (bind m k).
Proof.
  intros Hm Hk w. unfold bind.
  destruct (Hm w) as [(a & -> & Ha)|(e & -> & He)].
  - apply (Hk a Ha).
  - right. now exists e.
Qed.

Lemma py_index_in_range {A} (l : list A) i :
  0 <= i < Z.of_nat (length l) ->
  exists x, py_index l i = Some x /\ l !! Z.to_nat i = Some x.
Proof.
  intros Hi. unfold py_index.
  destruct (i <? 0) eqn:E; [apply Z.ltb_lt in E; lia|].
  destruct (lookup_lt_is_Some_2 l (Z.to_nat i) ltac:(lia)) as [x Hx].
  now exists x.
Qed.

Lemma such_item rd i :
  Forall frag_byte rd -> 0 <= i < Z.of_nat (length rd) ->
  pure_such (P:=P) frag_byte strict_fault (item rd i).
Proof.
  intros Hrd Hi. unfold item.
  destruct (py_index_in_range rd i Hi) as (x & -> & Hx).
  apply such_ret. exact (Forall_lookup_1 _ _ _ _ Hrd Hx).
Qed.

Lemma such_as_int x :
  frag_byte x -> pure_such (P:=P) is_byte strict_fault (as_int x).
Proof.
  destruct x as [b|]; intros Hx.
  - now apply such_ret.
  - now apply such_raise.
Qed.

Lemma shift_left_byte b : is_byte b -> 0 <= _shift_left b 8 <= 65280.
Proof.
  unfold is_byte, _shift_left. intros Hb.
  rewrite Z.shiftl_mul_pow2 by lia. change (2 ^ 8) with 256. lia.
Qed.

Lemma such_shift_or rd i j :
  Forall frag_byte rd ->
  0 <= i < Z.of_nat (length rd) -> 0 <= j < Z.of_nat (length rd) ->
  pure_such (P:=P) (fun l => 0 <= l <= 65280) strict_fault (shift_or rd i j).
Proof.
  intros Hrd Hi Hj. unfold shift_or.
  eapply such_bind; [now apply such_item|]. intros x Hx.
  eapply such_bind; [now apply such_as_int|]. intros hi Hhi.
  destruct (_shift_left hi 8 =? 0).
  - eapply such_bind; [now apply such_item|]. intros y Hy.
    eapply such_bind; [now apply such_as_int|]. intros lo Hlo.
    apply such_ret. unfold _shift_left, is_byte in *.
    rewrite Z.shiftl_0_r. lia.
  - apply such_ret. now apply shift_left_byte.
Qed.

Lemma such_check_packet_header rd :
  Forall frag_byte rd -> 2 <= Z.of_nat (length rd) ->
  pure_such (P:=P) (fun _ => True) strict_fault (_check_packet_header rd).
Proof.
  intros Hrd Hlen. unfold _check_packet_header.
  eapply such_bind; [apply such_item; [assumption|lia]|]. intros b0 _.
  destruct (frag_ne b0 _); [now apply such_raise|].
  eapply such_bind; [apply such_item; [assumption|lia]|]. intros b1 _.
  destruct (frag_ne b1 _); [now apply such_raise|now apply such_ret].
Qed.

Lemma such_collect_payload n : forall i rd payload c,
  Forall frag_byte rd ->
  0 <= i -> i + Z.of_nat n <= Z.of_nat (length rd) ->
  Forall is_byte payload ->
  pure_such (P:=P) (fun pc => Forall is_byte (fst pc)) strict_fault
    (collect_payload n i rd payload c).
Proof.
  induction n as [|n IH]; intros i rd payload c Hrd Hi Hn Hp;
    cbn [collect_payload].
  - now apply such_ret.
  - eapply such_bind; [apply such_item; [assumption|lia]|]. intros x Hx.
    eapply such_bind; [now apply such_as_int|]. intros v Hv.
    apply IH; try assumption; try lia.
    apply Forall_app; split; [assumption|].
    apply List.Forall_cons; [assumption|apply List.Forall_nil].
Qed.

Lemma such_packet_received rd c l :
  Forall frag_byte rd -> Z.of_nat (length rd) = c -> 12 <= c -> l + 9 <= c ->
  pure_such (P:=P) (fun r => is_byte (fst r) /\ Forall is_byte (snd r))
    strict_fault (packet_received rd c l).
Proof.
  intros Hrd Hlen H12 Hl. unfold packet_received.
  eapply such_bind; [apply such_item; [assumption|lia]|]. intros x6 Hx6.
  eapply such_bind; [now apply such_as_int|]. intros data_type Hty.
  eapply such_bind; [apply such_item; [assumption|lia]|]. intros x7 Hx7.
  eapply such_bind; [now apply such_as_int|]. intros l_hi _.
  eapply such_bind; [apply such_item; [assumption|lia]|]. intros x8 Hx8.
  eapply such_bind; [now apply such_as_int|]. intros l_lo _.
  eapply such_bind.
  { apply such_collect_payload; try assumption; try lia.
    apply List.Forall_nil. }
  intros pc Hpc.
  eapply such_bind; [apply such_shift_or; try assumption; lia|].
  intros received_checksum _.
  destruct (negb _); [now apply such_raise|now apply such_ret].
Qed.

Lemma with_serial_twice p1 p2 (w : W) :
  with_serial p2 (with_serial p1 w) = with_serial p2 w.
Proof. reflexivity. Qed.

Lemma read_fragment_any (w : W) :
  read_fragment w
  = Ret (fst (serial_read (serial w)))
      (with_serial (snd (serial_read (serial w))) w).
Proof. unfold read_fragment. now destruct (serial_read (serial w)). Qed.

(** The loop of the decoder: what it returns is made of bytes, what it
    raises is one of three exceptions, and only the port has moved. *)
Lemma read_data_loop_sound fuel : forall rd c (w : W),
  Forall frag_byte rd -> Z.of_nat (length rd) = c ->
  match read_data_loop fuel rd c w with
  | Ret r w' =>
      (exists p, w' = with_serial p w) /\
      is_byte (fst r) /\ Forall is_byte (snd r)
  | Raise e w' => (exists p, w' = with_serial p w) /\ strict_fault e = true
  | Diverge => True
  end.
Proof.
  induction fuel as [|fuel IH]; intros rd c w Hrd Hlen; [exact I|].
  cbn [read_data_loop]. unfold bind at 1.
  rewrite read_fragment_any. cbv beta iota zeta.
  set (r := fst (serial_read (serial w))).
  set (p1 := snd (serial_read (serial w))).
  set (rd' := rd ++ [match r with
                     | Some b => Got (_unpack_bytes b)
                     | None => NoData
                     end]).
  assert (Hrd' : Forall frag_byte rd').
  { apply Forall_app; split; [assumption|].
    apply List.Forall_cons; [|apply List.Forall_nil].
    destruct r as [b|]; [|exact I]. cbn [frag_byte].
    unfold is_byte, _unpack_bytes. pose proof (Byte.to_N_bounded b). lia. }
  assert (Hlen' : Z.of_nat (length rd') = c + 1).
  { unfold rd'. rewrite length_app. simpl. lia. }
  assert (Hrec : match read_data_loop fuel rd' (c + 1) (with_serial p1 w) with
                 | Ret r w' =>
                     (exists p, w' = with_serial p w) /\
                     is_byte (fst r) /\ Forall is_byte (snd r)
                 | Raise e w' =>
                     (exists p, w' = with_serial p w) /\ strict_fault e = true
                 | Diverge => True
                 end).
  { specialize (IH rd' (c + 1) (with_serial p1 w) Hrd' Hlen').
    destruct (read_data_loop fuel rd' (c + 1) (with_serial p1 w))
      as [r0 w'|e w'|]; [| |exact I].
    - destruct IH as ((p & ->) & Hr). split; [now exists p|exact Hr].
    - destruct IH as ((p & ->) & Hr). split; [now exists p|exact Hr]. }
  destruct (12 <=? c + 1) eqn:E; [|exact Hrec].
  apply Z.leb_le in E. unfold bind.
  destruct (such_check_packet_header rd' Hrd' ltac:(lia) (with_serial p1 w))
    as [(u & -> & _)|(e & -> & He)]; [|split; [now exists p1|exact He]].
  destruct (such_shift_or rd' 7 8 Hrd' ltac:(lia) ltac:(lia)
              (with_serial p1 w))
    as [(l & -> & Hl)|(e & -> & He)]; [|split; [now exists p1|exact He]].
  destruct (c + 1 <? l + 9) eqn:El; [exact Hrec|].
  apply Z.ltb_ge in El.
  destruct (such_packet_received rd' (c + 1) l Hrd' Hlen' E El
              (with_serial p1 w))
    as [(a & -> & Ha)|(e & -> & He)].
  - split; [now exists p1|exact Ha].
  - split; [now exists p1|exact He].
Qed.

(** The loop ends: the length field is at most 65280, so the 65289th read
    is the last one at the latest. *)
Lemma read_data_loop_ends fuel : forall rd c (w : W),
  Forall frag_byte rd -> Z.of_nat (length rd) = c ->
  c < 65289 <= c + Z.of_nat fuel ->
  read_data_loop fuel rd c w <> Diverge.
Proof.
  induction fuel as [|fuel IH]; intros rd c w Hrd Hlen Hc; [lia|].
  cbn [read_data_loop]. unfold bind at 1.
  rewrite read_fragment_any. cbv beta iota zeta.
  set (r := fst (serial_read (serial w))).
  set (p1 := snd (serial_read (serial w))).
  set (rd' := rd ++ [match r with
                     | Some b => Got (_unpack_bytes b)
                     | None => NoData
                     end]).
  assert (Hrd' : Forall frag_byte rd').
  { apply Forall_app; split; [assumption|].
    apply List.Forall_cons; [|apply List.Forall_nil].
    destruct r as [b|]; [|exact I]. cbn [frag_byte].
    unfold is_byte, _unpack_bytes. pose proof (Byte.to_N_bounded b). lia. }
  assert (Hlen' : Z.of_nat (length rd') = c + 1).
  { unfold rd'. rewrite length_app. simpl. lia. }
  destruct (12 <=? c + 1) eqn:E.
  - apply Z.leb_le in E. unfold bind.
    destruct (such_check_packet_header rd' Hrd' ltac:(lia) (with_serial p1 w))
      as [(u & -> & _)|(e & -> & He)]; [|discriminate].
    destruct (such_shift_or rd' 7 8 Hrd' ltac:(lia) ltac:(lia)
                (with_serial p1 w))
      as [(l & -> & Hl)|(e & -> & He)]; [|discriminate].
    destruct (c + 1 <? l + 9) eqn:El.
    + apply Z.ltb_lt in El. apply IH; try assumption. lia.
    + apply Z.ltb_ge in El.
      destruct (such_packet_received rd' (c + 1) l Hrd' Hlen' E El
                  (with_serial p1 w))
        as [(a & -> & Ha)|(e & -> & He)]; discriminate.
  - apply Z.leb_gt in E. apply IH; try assumption. lia.
Qed.

(** X6.  [_read_data] on any port, whatever the port returns (timed-out
    reads included): within 65289 reads it stops, either returning a packet
    type that is a byte and a payload of bytes, or raising [InvalidPacket],
    [CorruptedPacket] or [TypeError] (never an [IndexError]); in both cases
    nothing was written, and mode, signals and clock are as before: only
    the port has moved. *)
Theorem read_data_stops fuel (w : W) :
  65289 <= Z.of_nat fuel ->
  (exists r p,
      _read_data fuel w = Ret r (with_serial p w) /\
      is_byte (fst r) /\ Forall is_byte (snd r)) \/
  (exists e p,
      _read_data fuel w = Raise e (with_serial p w) /\
      strict_fault e = true).
Proof.
  intros Hf. unfold _read_data.
  pose proof (read_data_loop_sound fuel [] 0 w (List.Forall_nil _) eq_refl)
    as Hs.
  pose proof (read_data_loop_ends fuel [] 0 w (List.Forall_nil _) eq_refl
                ltac:(lia)) as He.
  destruct (read_data_loop fuel [] 0 w) as [r w'|e w'|]; [| |congruence].
  - destruct Hs as ((p & ->) & Hr). left. now exists r, p.
  - destruct Hs as ((p & ->) & Hr). right. now exists e, p.
Qed.

Lemma reads_app_inv rs1 : forall rs2 (p p' : P),
  reads p (rs1 ++ rs2) p' ->
  exists pm, reads p rs1 pm /\ reads pm rs2 p'.
Proof.
  induction rs1 as [|r rs1 IH]; intros rs2 p p' Hr; cbn [app] in Hr.
  - exists p. split; [constructor|exact Hr].
  - inversion Hr as [|q r' p1 rs q' Hread Hrest]; subst.
    destruct (IH _ _ _ Hrest) as (pm & H1 & H2).
    exists pm. split; [econstructor; eassumption|exact H2].
Qed.

(** Below twelve stored elements the decoder only reads. *)
Lemma read_data_loop_gather rs : forall fuel rd c (w : W) p',
  reads (serial w) rs p' ->
  c + Z.of_nat (length rs) < 12 ->
  read_data_loop (length rs + fuel) rd c w
  = read_data_loop fuel (rd ++ map frag_of rs) (c + Z.of_nat (length rs))
      (with_serial p' w).
Proof.
  induction rs as [|r rs IH]; intros fuel rd c w p' Hr Hc.
  - inversion Hr; subst. cbn [length map Nat.add].
    rewrite app_nil_r, Z.add_0_r. now destruct w.
  - inversion Hr as [|q r' p1 rs' q' Hread Hrest]; subst.
    cbn [length Nat.add read_data_loop]. unfold bind at 1.
    rewrite read_fragment_any, Hread. cbn [fst snd]. cbv beta iota zeta.
    cbn [length] in Hc.
    destruct (12 <=? c + 1) eqn:E; [apply Z.leb_le in E; lia|].
    rewrite (IH fuel _ (c + 1) (with_serial p1 w) p') by (assumption || lia).
    rewrite with_serial_twice, <- app_assoc. cbn [app map].
    f_equal. lia.
Qed.

Lemma item_lookup (rd : list fragment) i x (w : W) :
  0 <= i -> rd !! Z.to_nat i = Some x -> item rd i w = Ret x w.
Proof.
  intros Hi Hl. unfold item, py_index.
  destruct (i <? 0) eqn:E; [apply Z.ltb_lt in E; lia|].
  now rewrite Hl.
Qed.

Lemma frag_ne_true x k : x <> Got k -> frag_ne x k = true.
Proof.
  destruct x as [b|]; intros Hx; [|reflexivity]. cbn [frag_ne].
  destruct (b =? k) eqn:E; [|reflexivity].
  apply Z.eqb_eq in E. congruence.
Qed.

(** Twelve reads that do not begin with the start marker. *)
Lemma read_data_bad_start rs p' fuel (w : W) :
  reads (serial w) rs p' ->
  length rs = 12%nat ->
  map frag_of rs !! 0%nat <> Some (Got 239) \/
  map frag_of rs !! 1%nat <> Some (Got 1) ->
  (12 <= fuel)%nat ->
  _read_data fuel w = Raise InvalidPacket (with_serial p' w).
Proof.
  intros Hr Hlen Hbad Hf.
  do 12 (destruct rs as [|? rs]; [discriminate|]).
  destruct rs; [|discriminate]. clear Hlen.
  match type of Hr with
  | reads _ [?a0; ?a1; ?a2; ?a3; ?a4; ?a5; ?a6; ?a7; ?a8; ?a9; ?a10; ?a11] _ =>
      change (reads (serial w)
                ([a0; a1; a2; a3; a4; a5; a6; a7; a8; a9; a10] ++ [a11]) p')
        in Hr
  end.
  destruct (reads_app_inv _ _ _ _ Hr) as (pm & H1 & H2).
  inversion H2 as [|q r' p1 rs' q' Hread Hrest]; subst.
  inversion Hrest; subst.
  destruct fuel as [|fuel]; [lia|].
  replace (S fuel) with (11 + S (fuel - 11))%nat by lia.
  unfold _read_data.
  match type of H1 with
  | reads _ ?l _ =>
      pose proof (read_data_loop_gather l (S (fuel - 11)) [] 0 w pm H1
                    ltac:(cbn [length]; lia)) as Hg
  end.
  cbn [length app map] in Hg. change (0 + Z.of_nat 11) with 11 in Hg.
  rewrite Hg. clear Hg.
  cbn [read_data_loop]. unfold bind at 1.
  rewrite read_fragment_any. cbn [serial with_serial]. rewrite Hread.
  cbn [fst snd]. cbv beta iota zeta. cbn [app].
  change (12 <=? 11 + 1) with true. cbv beta iota.
  rewrite with_serial_twice.
  unfold bind at 1, _check_packet_header.
  change (_shift_right (_enum_to_hexadecimal START_BIT) 8) with 239.
  change (_shift_right (_enum_to_hexadecimal START_BIT) 0) with 1.
  unfold bind.
  rewrite (item_lookup _ 0 (frag_of o)) by (lia || reflexivity).
  cbn [map lookup list_lookup] in Hbad.
  destruct (frag_ne (frag_of o) 239) eqn:E0; [reflexivity|].
  rewrite (item_lookup _ 1 (frag_of o0)) by (lia || reflexivity).
  destruct Hbad as [Hbad|Hbad].
  - rewrite frag_ne_true in E0; [discriminate|congruence].
  - rewrite frag_ne_true by congruence. reflexivity.
Qed.

(** X7.  The start marker is looked at only once twelve elements are
    stored.  On any port whose first twelve reads (timed-out ones included)
    do not begin with the two marker bytes 0xEF, 0x01, [_read_data] raises
    [InvalidPacket] right after the twelfth read, and not before: with fewer
    reads it has raised nothing yet. *)
Theorem bad_start_marker_after_twelve_reads rs p' fuel (w : W) :
  reads (serial w) rs p' ->
  length rs = 12%nat ->
  map frag_of rs !! 0%nat <> Some (Got 239) \/
  map frag_of rs !! 1%nat <> Some (Got 1) ->
  (12 <= fuel)%nat ->
  _read_data fuel w = Raise InvalidPacket (with_serial p' w) /\
  forall few, (few < 12)%nat -> _read_data few w = Diverge.
Proof.
  intros Hr Hlen Hbad Hf. split.
  - exact (read_data_bad_start rs p' fuel w Hr Hlen Hbad Hf).
  - intros few Hfew. unfold _read_data.
    apply read_data_loop_short. lia.
Qed.

End Decoder.

Lemma read_data_stops_witness :
  65289 <= Z.of_nat (Z.to_nat 65289) /\
  ((exists r p,
       _read_data (Z.to_nat 65289) (on_script []) = Ret r (with_serial p (on_script [])) /\
       is_byte (fst r) /\ Forall is_byte (snd r)) \/
   (exists e p,
       _read_data (Z.to_nat 65289) (on_script []) = Raise e (with_serial p (on_script [])) /\
       strict_fault e = true)).
Proof.
  split; [lia|]. apply read_data_stops. lia.
Defined.

(** ** The frame on the wire *)

Section Frames.
Context {P : Type} `{Transport P}.
Local Abbreviation W := (World P).

Lemma shift_right_mod x y :
  0 <= y -> _shift_right x y = (x / 2 ^ y) mod 256.
Proof.
  intros Hy. unfold _shift_right.
  change (Z.land (Z.shiftr x y) 0xFF) with (Z.land (Z.shiftr x y) (Z.ones 8)).
  rewrite Z.land_ones, Z.shiftr_div_pow2 by lia. reflexivity.
Qed.

Lemma two_bytes_value v :
  _shift_right v 8 * 256 + _shift_right v 0 = v mod 65536.
Proof.
  rewrite !shift_right_mod by lia.
  change (2 ^ 8) with 256. change (2 ^ 0) with 1. rewrite Z.div_1_r.
  change 65536 with (256 * 256). rewrite Z.rem_mul_r by lia. lia.
Qed.

Lemma four_bytes_value v :
  ((_shift_right v 24 * 256 + _shift_right v 16) * 256 + _shift_right v 8)
  * 256 + _shift_right v 0
  = v mod 2 ^ 32.
Proof.
  rewrite !shift_right_mod by lia.
  change (2 ^ 0) with 1. rewrite Z.div_1_r.
  change (2 ^ 32) with (256 * (256 * (256 * 256))).
  change (2 ^ 24) with (256 * 256 * 256).
  change (2 ^ 16) with (256 * 256). change (2 ^ 8) with 256.
  rewrite (Z.rem_mul_r v 256) by lia.
  rewrite (Z.rem_mul_r (v / 256) 256) by lia.
  rewrite (Z.rem_mul_r (v / 256 / 256) 256) by lia.
  rewrite !Z.div_div by lia. lia.
Qed.

Lemma low_two_bytes v :
  _shift_right (v mod 65536) 8 = _shift_right v 8 /\
  _shift_right (v mod 65536) 0 = _shift_right v 0.
Proof.
  rewrite !shift_right_mod by lia.
  change (2 ^ 8) with 256. change (2 ^ 0) with 1. rewrite !Z.div_1_r.
  change 65536 with (256 * 256). rewrite Z.rem_mul_r by lia.
  pose proof (Z.mod_pos_bound v 256 ltac:(lia)) as Hr.
  pose proof (Z.mod_pos_bound (v / 256) 256 ltac:(lia)) as Hq.
  split.
  - replace ((v mod 256 + 256 * ((v / 256) mod 256)) / 256)
      with ((v / 256) mod 256).
    + apply Z.mod_mod. lia.
    + apply (Z.div_unique_pos _ 256 _ (v mod 256)); lia.
  - rewrite (Z.mul_comm 256), Z.mod_add by lia.
    apply Z.mod_mod. lia.
Qed.

(** X8.  What [_send_data] puts on the wire for a payload of bytes: the
    marker bytes 0xEF 0x01, the low 32 bits of the address most significant
    byte first, the packet type (1 for a command, 7 for an acknowledgement),
    the two bytes of (payload length + 2) modulo 65536, the payload as
    given, and the two bytes of (type + length bytes + payload bytes) modulo
    65536, most significant byte first: 11 bytes more than the payload, each
    written through the port in this order, nothing else changed. *)
Theorem send_data_layout data_type payload (w : W) :
  Forall is_byte payload ->
  exists a3 a2 a1 a0 lh ll ch cl,
    _send_data data_type payload w
    = Ret tt
        (emit (map byte_of
                 ([239; 1; a3; a2; a1; a0;
                   match data_type with COMMAND => 1 | ACK => 7 end; lh; ll]
                  ++ payload ++ [ch; cl])) w) /\
    Forall is_byte [a3; a2; a1; a0; lh; ll; ch; cl] /\
    ((a3 * 256 + a2) * 256 + a1) * 256 + a0 = address w mod 2 ^ 32 /\
    lh * 256 + ll = (Z.of_nat (length payload) + 2) mod 65536 /\
    ch * 256 + cl
    = (match data_type with COMMAND => 1 | ACK => 7 end + lh + ll
       + sum_bytes payload) mod 65536.
Proof.
  intros Hp.
  exists (_shift_right (address w) 24), (_shift_right (address w) 16),
    (_shift_right (address w) 8), (_shift_right (address w) 0),
    (_shift_right (packet_length payload) 8),
    (_shift_right (packet_length payload) 0),
    (_shift_right (packet_checksum data_type payload) 8),
    (_shift_right (packet_checksum data_type payload) 0).
  split; [|split; [|split; [|split]]].
  - rewrite (send_data_ok data_type payload w Hp).
    unfold frame_bytes, frame. now destruct data_type.
  - repeat (apply List.Forall_cons; [apply shift_right_byte|]).
    apply List.Forall_nil.
  - apply four_bytes_value.
  - apply two_bytes_value.
  - rewrite two_bytes_value. unfold packet_checksum. now destruct data_type.
Qed.

Lemma pack_not_byte x : ~ is_byte x -> _pack_bytes x = None.
Proof.
  intros Hx. unfold _pack_bytes.
  destruct ((0 <=? x) && (x <=? 255)) eqn:E; [|reflexivity].
  apply andb_prop in E as [E1 E2].
  apply Z.leb_le in E1. apply Z.leb_le in E2.
  exfalso. apply Hx. unfold is_byte. lia.
Qed.

Lemma send_payload_stops pre : forall x post c (w : W),
  Forall is_byte pre -> ~ is_byte x ->
  send_payload (pre ++ x :: post) c w
  = Raise StructError (emit (map byte_of pre) w).
Proof.
  induction pre as [|y pre IH]; intros x post c w Hpre Hx;
    cbn [app send_payload]; unfold bind.
  - unfold write_packed. rewrite (pack_not_byte x Hx).
    unfold emit, put_bytes. cbn [map fold_left]. rewrite app_nil_r.
    now destruct w.
  - inversion Hpre as [|y' pre' Hy Hpre']; subst.
    rewrite (write_packed_ok y w Hy).
    rewrite (IH x post _ _ Hpre' Hx), emit_emit. reflexivity.
Qed.

(** X9.  A payload element outside 0..255 stops [_send_data] with the
    packing error ([struct.error]) at that element: the nine header bytes
    and the payload bytes before it have already gone out, the rest of the
    payload and the checksum never follow, and nothing is taken back. *)
Theorem send_data_stops_at_bad_element data_type pre x post (w : W) :
  Forall is_byte pre -> ~ is_byte x ->
  _send_data data_type (pre ++ x :: post) w
  = Raise StructError
      (emit (firstn 9 (frame_bytes (address w) data_type (pre ++ x :: post))
             ++ map byte_of pre) w).
Proof.
  intros Hpre Hx. unfold _send_data, bind.
  repeat (rewrite write_packed_ok by
            (try apply shift_right_byte; destruct data_type; unfold is_byte;
             simpl; lia)).
  simpl address.
  rewrite (send_payload_stops pre x post _ _ Hpre Hx).
  repeat rewrite emit_emit. reflexivity.
Qed.

(** X10.  The additive checksum sees a change of the payload exactly when
    the sum of the payload bytes changes.  Take the frame of a non-empty
    payload whose length and checksum fields read back, and replace the
    payload bytes on the way by as many other bytes: [_read_data] raises
    [CorruptedPacket] when the sums differ, and returns the replaced payload
    as if it had been sent when the sums agree (two bytes swapped, one
    raised and another lowered by the same amount). *)
Theorem checksum_sees_the_sum_only addr data_type payload sent fuel :
  payload <> [] ->
  Forall is_byte payload -> Forall is_byte sent ->
  length sent = length payload ->
  reads_back (packet_length payload) ->
  reads_back (packet_checksum data_type payload) ->
  (length payload + 11 <= fuel)%nat ->
  decode_stream fuel
    (map Some (map byte_of (frame_carrying addr data_type payload sent)))
  = Some (if sum_bytes sent =? sum_bytes payload
          then inl (_enum_to_hexadecimal data_type, sent)
          else inr CorruptedPacket).
Proof.
  intros Hne Hp Hs Hlen Hl Hc Hf.
  set (zs := frame_carrying addr data_type payload sent).
  assert (Hzs : Forall is_byte zs).
  { unfold zs, frame_carrying. cbn [app].
    repeat (apply List.Forall_cons; [try apply shift_right_byte|]).
    - destruct data_type; unfold is_byte; simpl; lia.
    - apply Forall_app; split; [assumption|].
      repeat (apply List.Forall_cons; [apply shift_right_byte|]).
      apply List.Forall_nil. }
  assert (Hun : map _unpack_bytes (map byte_of zs) = zs).
  { rewrite map_map. clear -Hzs.
    induction Hzs as [|x l Hx _ IH]; simpl; [reflexivity|].
    now rewrite (unpack_byte_of x Hx), IH. }
  assert (Hpl : packet_length sent = packet_length payload).
  { unfold packet_length. now rewrite Hlen. }
  assert (Hsne : sent <> []).
  { intros ->. destruct payload; [congruence|discriminate]. }
  assert (Hfr : framed (map _unpack_bytes (map byte_of zs))
                  (_enum_to_hexadecimal data_type) sent
                  (or16 (_shift_right (packet_checksum data_type payload) 8)
                     (_shift_right (packet_checksum data_type payload) 0))
                  (_enum_to_hexadecimal data_type
                   + _shift_right (packet_length payload) 8
                   + _shift_right (packet_length payload) 0
                   + sum_bytes sent)).
  { rewrite Hun. unfold zs, frame_carrying.
    change (_shift_right (_enum_to_hexadecimal START_BIT) 8) with 239.
    change (_shift_right (_enum_to_hexadecimal START_BIT) 0) with 1.
    apply framed_intro; [assumption|].
    rewrite Hpl. now apply or16_reads_back. }
  assert (Hfuel : (length (map byte_of zs) <= fuel)%nat).
  { rewrite length_map. unfold zs, frame_carrying. cbn [app length].
    rewrite !length_app. cbn [length]. lia. }
  unfold decode_stream, _read_data.
  change (read_data_loop fuel [] 0 (world0 (scripted (map Some (map byte_of zs))) 0xFFFFFFFF))
    with (read_data_loop fuel (map Got (@nil Z)) (Z.of_nat (length (@nil Z)))
            (world0 (scripted (map Some (map byte_of zs))) 0xFFFFFFFF)).
  rewrite (read_data_loop_framed (map byte_of zs) []
             (world0 (scripted (map Some (map byte_of zs))) 0xFFFFFFFF)
             fuel _ _ sent _ _ (scripted []) Hfr eq_refl
             (scripted_plays (map byte_of zs)) Hfuel).
  2:{ intros E. apply (f_equal (@length byte)) in E.
      rewrite length_map in E. unfold zs, frame_carrying in E.
      discriminate E. }
  rewrite (or16_reads_back _ Hc). unfold packet_checksum.
  destruct (sum_bytes sent =? sum_bytes payload) eqn:E.
  - apply Z.eqb_eq in E. rewrite E, Z.eqb_refl. reflexivity.
  - apply Z.eqb_neq in E.
    match goal with
    | |- context [negb (?a =? ?b)] =>
        assert (En : (a =? b) = false) by (apply Z.eqb_neq; lia);
        rewrite En
    end.
    reflexivity.
Qed.

(** X11.  A two-byte field through encoder and decoder.  The encoder splits
    a value below 65536 into two bytes that recombine to it; what the
    decoder, and the result fields of search and count, make of the two
    bytes with [hi << 8 or lo] is the value itself exactly when the value is
    below 256 or a multiple of 256, and otherwise the value with its low
    byte dropped. *)
Theorem two_byte_field_round_trip v (w : W) :
  0 <= v < 65536 ->
  is_byte (_shift_right v 8) /\ is_byte (_shift_right v 0) /\
  _shift_right v 8 * 256 + _shift_right v 0 = v /\
  exists r,
    shift_or [Got (_shift_right v 8); Got (_shift_right v 0)] 0 1 w
    = Ret r w /\
    payload_shift_or [_shift_right v 8; _shift_right v 0] 0 1 w = Ret r w /\
    (r = v <-> v < 256 \/ v mod 256 = 0) /\
    (r <> v -> r = v - v mod 256).
Proof.
  intros Hv.
  split; [apply shift_right_byte|]. split; [apply shift_right_byte|].
  split; [rewrite two_bytes_value; now apply Z.mod_small|].
  exists (or16 (_shift_right v 8) (_shift_right v 0)).
  split; [|split].
  - apply (shift_or_got [_shift_right v 8; _shift_right v 0] 0 1);
      (lia || reflexivity).
  - unfold payload_shift_or, bind, or16.
    change (py_index [_shift_right v 8; _shift_right v 0] 0)
      with (Some (_shift_right v 8)).
    change (py_index [_shift_right v 8; _shift_right v 0] 1)
      with (Some (_shift_right v 0)).
    cbn [lift_option]. unfold ret.
    destruct (_shift_left (_shift_right v 8) 8 =? 0); reflexivity.
  - unfold or16, _shift_left. rewrite !shift_right_mod by lia.
    rewrite !Z.shiftl_mul_pow2 by lia.
    change (2 ^ 8) with 256. change (2 ^ 0) with 1.
    rewrite Z.div_1_r, Z.mul_1_r.
    pose proof (Z.div_mod v 256 ltac:(lia)) as Hdm.
    pose proof (Z.mod_pos_bound v 256 ltac:(lia)) as Hm.
    assert (Hq : 0 <= v / 256 < 256).
    { split; [apply Z.div_pos; lia|apply Z.div_lt_upper_bound; lia]. }
    rewrite (Z.mod_small (v / 256) 256) by lia.
    destruct (v / 256 * 256 =? 0) eqn:E.
    + apply Z.eqb_eq in E. split; [split; intros; lia|lia].
    + apply Z.eqb_neq in E. split; [split; intros; lia|lia].
Qed.

End Frames.

(** ** One command, one answer *)

Ltac payload_bytes :=
  repeat (apply List.Forall_cons;
          [first [apply shift_right_byte
                 |unfold is_byte; simpl; lia
                 |match goal with
                  | |- is_byte (_enum_to_hexadecimal (EBuffer ?c)) =>
                      destruct c; unfold is_byte; simpl; lia
                  end]|]);
  apply List.Forall_nil.

Ltac enum_values :=
  repeat match goal with
         | |- context [_enum_to_hexadecimal ?e] =>
             let v := eval vm_compute in (_enum_to_hexadecimal e) in
             change (_enum_to_hexadecimal e) with v
         end.

Ltac answer_table :=
  cbv beta iota; unfold first_byte;
  match goal with
  | |- context [py_index (?c :: ?r) 0] =>
      change (py_index (c :: r) 0) with (Some c)
  end;
  cbn [lift_option]; unfold bind at 1; unfold ret at 1; cbv beta iota;
  unfold is_code; enum_values;
  repeat match goal with
         | |- context [if ?b then _ else _] => destruct b
         end;
  reflexivity.


Ltac answer_values :=
  cbv beta iota; unfold first_byte, payload_shift_or, or16, bind, lift_option,
    ret, raise, py_index, is_code;
  simpl; enum_values;
  repeat match goal with
         | |- context [if ?b then _ else _] => destruct b
         end;
  reflexivity.

Section Commands.
Context {P : Type} `{Transport P}.
Local Abbreviation W := (World P).

(** A request goes out, the device's answer comes in and is decoded. *)
Lemma exchange_answered payload bs ty answer p' fuel {A}
    (post : Z * list Z -> M W A) (w : W) :
  Forall is_byte payload ->
  delivers (put_bytes (frame_bytes (address w) COMMAND payload) (serial w))
    bs p' ->
  accepted (map _unpack_bytes bs) ty answer ->
  (length bs <= fuel)%nat ->
  (_send_data COMMAND payload ;;;
   let* ack := _read_data fuel in post ack) w
  = post (ty, answer)
      (with_serial p' (emit (frame_bytes (address w) COMMAND payload) w)).
Proof.
  intros Hp Hd Hacc Hf. unfold bind.
  rewrite (send_data_ok COMMAND payload w Hp).
  rewrite (read_data_accepts bs ty answer p' fuel
             (emit (frame_bytes (address w) COMMAND payload) w) Hacc Hd Hf).
  reflexivity.
Qed.

Lemma scan_succeeds fuel rest p' (w : W) :
  replies fuel (serial w) (scan_request (address w)) 7 (0 :: rest) p' ->
  _scan fuel w = Ret tt (with_serial p' (emit (scan_request (address w)) w)).
Proof.
  intros (bs & Hd & Hacc & Hf). unfold _scan.
  rewrite (exchange_answered [_enum_to_hexadecimal SCAN] bs 7 (0 :: rest)
             p' fuel _ w ltac:(payload_bytes) Hd Hacc Hf).
  reflexivity.
Qed.

Lemma buffer_image_succeeds fuel char_buffer rest p' (w : W) :
  replies fuel (serial w) (buffer_request (address w) char_buffer) 7
    (0 :: rest) p' ->
  _buffer_image fuel char_buffer w
  = Ret tt (with_serial p' (emit (buffer_request (address w) char_buffer) w)).
Proof.
  intros (bs & Hd & Hacc & Hf). unfold _buffer_image.
  rewrite (exchange_answered
             [_enum_to_hexadecimal BUFFER_IMAGE;
              _enum_to_hexadecimal char_buffer] bs 7 (0 :: rest)
             p' fuel _ w ltac:(payload_bytes) Hd Hacc Hf).
  reflexivity.
Qed.


Lemma search_template_finds_none fuel char_buffer rest p' (w : W) :
  replies fuel (serial w) (search_request (address w) char_buffer) 7
    (9 :: rest) p' ->
  _search_template fuel char_buffer w
  = Raise NoTemplateFound
      (with_serial p' (emit (search_request (address w) char_buffer) w)).
Proof.
  intros (bs & Hd & Hacc & Hf). unfold _search_template. cbv zeta.
  rewrite (exchange_answered
             [_enum_to_hexadecimal SEARCH_TEMPLATE;
              _enum_to_hexadecimal char_buffer;
              _shift_right 0x0000 8; _shift_right 0x0000 0;
              _shift_right 0x00A3 8; _shift_right 0x00A3 0]
             bs 7 (9 :: rest)
             p' fuel _ w ltac:(payload_bytes) Hd Hacc Hf).
  reflexivity.
Qed.


Lemma create_template_succeeds fuel rest p' (w : W) :
  replies fuel (serial w) (create_request (address w)) 7 (0 :: rest) p' ->
  _create_template fuel w
  = Ret tt (with_serial p' (emit (create_request (address w)) w)).
Proof.
  intros (bs & Hd & Hacc & Hf). unfold _create_template.
  rewrite (exchange_answered [_enum_to_hexadecimal CREATE_TEMPLATE]
             bs 7 (0 :: rest)
             p' fuel _ w ltac:(payload_bytes) Hd Hacc Hf).
  reflexivity.
Qed.

Lemma store_template_succeeds fuel position char_buffer rest p' (w : W) :
  replies fuel (serial w) (store_request (address w) position char_buffer) 7
    (0 :: rest) p' ->
  _store_template fuel position char_buffer w
  = Ret position
      (with_serial p'
         (emit (store_request (address w) position char_buffer) w)).
Proof.
  intros (bs & Hd & Hacc & Hf). unfold _store_template.
  rewrite (exchange_answered
             [_enum_to_hexadecimal STORE_TEMPLATE;
              _enum_to_hexadecimal char_buffer;
              _shift_right position 8; _shift_right position 0]
             bs 7 (0 :: rest)
             p' fuel _ w ltac:(payload_bytes) Hd Hacc Hf).
  reflexivity.
Qed.


(** X12.  [_scan], end to end: the scan request goes out, and when the
    reads that follow deliver a frame the decoder accepts, of type [ty] with
    first payload byte [code], the outcome is read off [ty] and [code]
    alone (further payload bytes are ignored): [InvalidPacket] unless the
    type is 7, then success for 0, [NoFingerFound] for 2,
    [CommunicationError] for 1, [ReadImageError] for 3 and [UnknownError]
    for every other code.  Exactly the request has been written. *)
Theorem scan_outcomes bs ty code rest p' fuel (w : W) :
  delivers (put_bytes (scan_request (address w)) (serial w)) bs p' ->
  accepted (map _unpack_bytes bs) ty (code :: rest) ->
  (length bs <= fuel)%nat ->
  _scan fuel w
  = (if negb (ty =? 7) then Raise InvalidPacket
     else if code =? 0 then Ret tt
     else if code =? 2 then Raise NoFingerFound
     else if code =? 1 then Raise CommunicationError
     else if code =? 3 then Raise ReadImageError
     else Raise UnknownError)
      (with_serial p' (emit (scan_request (address w)) w)).
Proof.
  intros Hd Hacc Hf. unfold _scan.
  rewrite (exchange_answered [_enum_to_hexadecimal SCAN] bs ty (code :: rest)
             p' fuel _ w ltac:(payload_bytes) Hd Hacc Hf).
  fold (scan_request (address w)). answer_table.
Qed.

(** X13.  [_buffer_image], end to end, for either buffer: on an accepted
    answer of type [ty] with first payload byte [code] the outcome is
    [InvalidPacket] unless the type is 7, then success for 0,
    [CommunicationError] for 1, [MessyImageError] for 6,
    [FewFeaturePointsError] for 7, [InvalidImageError] for 21 (0x15) and
    [UnknownError] for every other code; exactly the request naming the
    buffer has been written. *)
Theorem buffer_image_outcomes char_buffer bs ty code rest p' fuel (w : W) :
  delivers (put_bytes (buffer_request (address w) char_buffer) (serial w))
    bs p' ->
  accepted (map _unpack_bytes bs) ty (code :: rest) ->
  (length bs <= fuel)%nat ->
  _buffer_image fuel char_buffer w
  = (if negb (ty =? 7) then Raise InvalidPacket
     else if code =? 0 then Ret tt
     else if code =? 1 then Raise CommunicationError
     else if code =? 6 then Raise MessyImageError
     else if code =? 7 then Raise FewFeaturePointsError
     else if code =? 21 then Raise InvalidImageError
     else Raise UnknownError)
      (with_serial p' (emit (buffer_request (address w) char_buffer) w)).
Proof.
  intros Hd Hacc Hf. unfold _buffer_image.
  rewrite (exchange_answered
             [_enum_to_hexadecimal BUFFER_IMAGE;
              _enum_to_hexadecimal char_buffer] bs ty (code :: rest)
             p' fuel _ w ltac:(payload_bytes) Hd Hacc Hf).
  fold (buffer_request (address w) char_buffer). answer_table.
Qed.

(** X14.  [_search_template], end to end.  On an accepted answer the
    outcome is [InvalidPacket] unless the type is 7, [NoTemplateFound] for
    code 9, [CommunicationError] for 1, [UnknownError] for every code other
    than 0, 1 and 9.  For code 0 position and score are rebuilt from the
    next four payload bytes with [hi << 8 or lo]; an answer too short for
    that raises [IndexError], except that a three-byte one whose score high
    byte is not zero is taken as it is, the missing low byte never being
    looked at. *)
Theorem search_template_outcomes char_buffer bs ty code rest p' fuel (w : W) :
  delivers (put_bytes (search_request (address w) char_buffer) (serial w))
    bs p' ->
  accepted (map _unpack_bytes bs) ty (code :: rest) ->
  (length bs <= fuel)%nat ->
  _search_template fuel char_buffer w
  = (if negb (ty =? 7) then Raise InvalidPacket
     else if code =? 0 then
       match rest with
       | ph :: pl :: sh :: sl :: _ => Ret (or16 ph pl, or16 sh sl)
       | [ph; pl; sh] =>
           if _shift_left sh 8 =? 0 then Raise IndexError
           else Ret (or16 ph pl, _shift_left sh 8)
       | _ => Raise IndexError
       end
     else if code =? 9 then Raise NoTemplateFound
     else if code =? 1 then Raise CommunicationError
     else Raise UnknownError)
      (with_serial p' (emit (search_request (address w) char_buffer) w)).
Proof.
  intros Hd Hacc Hf. unfold _search_template. cbv zeta.
  rewrite (exchange_answered
             [_enum_to_hexadecimal SEARCH_TEMPLATE;
              _enum_to_hexadecimal char_buffer;
              _shift_right 0x0000 8; _shift_right 0x0000 0;
              _shift_right 0x00A3 8; _shift_right 0x00A3 0]
             bs ty (code :: rest)
             p' fuel _ w ltac:(payload_bytes) Hd Hacc Hf).
  fold (search_request (address w) char_buffer).
  set (w' := with_serial p' (emit (search_request (address w) char_buffer) w)).
  clearbody w'. clear.
  destruct rest as [|ph [|pl [|sh [|sl more]]]]; answer_values.
Qed.

(** X15.  [count_fingers], end to end.  On an accepted answer the outcome
    is [InvalidPacket] unless the type is 7, [CommunicationError] for code
    1, [UnknownError] for every code other than 0 and 1.  For code 0 the
    count is rebuilt from the next two payload bytes with [hi << 8 or lo];
    with no further byte [IndexError] is raised, with one byte only when
    that byte is zero. *)
Theorem count_fingers_outcomes bs ty code rest p' fuel (w : W) :
  delivers (put_bytes (count_request (address w)) (serial w)) bs p' ->
  accepted (map _unpack_bytes bs) ty (code :: rest) ->
  (length bs <= fuel)%nat ->
  count_fingers fuel w
  = (if negb (ty =? 7) then Raise InvalidPacket
     else if code =? 0 then
       match rest with
       | hi :: lo :: _ => Ret (or16 hi lo)
       | [hi] =>
           if _shift_left hi 8 =? 0 then Raise IndexError
           else Ret (_shift_left hi 8)
       | [] => Raise IndexError
       end
     else if code =? 1 then Raise CommunicationError
     else Raise UnknownError)
      (with_serial p' (emit (count_request (address w)) w)).
Proof.
  intros Hd Hacc Hf. unfold count_fingers.
  rewrite (exchange_answered [_enum_to_hexadecimal COUNT_TEMPLATES]
             bs ty (code :: rest)
             p' fuel _ w ltac:(payload_bytes) Hd Hacc Hf).
  fold (count_request (address w)).
  set (w' := with_serial p' (emit (count_request (address w)) w)).
  clearbody w'. clear.
  destruct rest as [|hi [|lo more]]; answer_values.
Qed.

(** X16.  [_create_template], end to end: on an accepted answer the
    outcome is [InvalidPacket] unless the type is 7, then success for 0,
    [CommunicationError] for 1, [CharacteristicsMismatchError] for 10
    (0x0A) and [UnknownError] for every other code. *)
Theorem create_template_outcomes bs ty code rest p' fuel (w : W) :
  delivers (put_bytes (create_request (address w)) (serial w)) bs p' ->
  accepted (map _unpack_bytes bs) ty (code :: rest) ->
  (length bs <= fuel)%nat ->
  _create_template fuel w
  = (if negb (ty =? 7) then Raise InvalidPacket
     else if code =? 0 then Ret tt
     else if code =? 1 then Raise CommunicationError
     else if code =? 10 then Raise CharacteristicsMismatchError
     else Raise UnknownError)
      (with_serial p' (emit (create_request (address w)) w)).
Proof.
  intros Hd Hacc Hf. unfold _create_template.
  rewrite (exchange_answered [_enum_to_hexadecimal CREATE_TEMPLATE]
             bs ty (code :: rest)
             p' fuel _ w ltac:(payload_bytes) Hd Hacc Hf).
  fold (create_request (address w)). answer_table.
Qed.

(** X17.  [_store_template], end to end, for any integer position.  Only
    the two low bytes of the position go into the request, so positions that
    agree modulo 65536 send the same bytes; on success (code 0) the position
    returned is the argument as given, not the slot named on the wire.  The
    other outcomes: [InvalidPacket] unless the type is 7,
    [CommunicationError] for 1, [InvalidPosition] for 11 (0x0B),
    [FlashError] for 24 (0x18), [UnknownError] for every other code. *)
Theorem store_template_outcomes position char_buffer bs ty code rest p' fuel
    (w : W) :
  delivers
    (put_bytes (store_request (address w) position char_buffer) (serial w))
    bs p' ->
  accepted (map _unpack_bytes bs) ty (code :: rest) ->
  (length bs <= fuel)%nat ->
  _store_template fuel position char_buffer w
  = (if negb (ty =? 7) then Raise InvalidPacket
     else if code =? 0 then Ret position
     else if code =? 1 then Raise CommunicationError
     else if code =? 11 then Raise InvalidPosition
     else if code =? 24 then Raise FlashError
     else Raise UnknownError)
      (with_serial p'
         (emit (store_request (address w) position char_buffer) w)) /\
  store_request (address w) position char_buffer
  = store_request (address w) (position mod 65536) char_buffer.
Proof.
  intros Hd Hacc Hf. split.
  - unfold _store_template.
    rewrite (exchange_answered
               [_enum_to_hexadecimal STORE_TEMPLATE;
                _enum_to_hexadecimal char_buffer;
                _shift_right position 8; _shift_right position 0]
               bs ty (code :: rest)
               p' fuel _ w ltac:(payload_bytes) Hd Hacc Hf).
    fold (store_request (address w) position char_buffer). answer_table.
  - unfold store_request.
    destruct (low_two_bytes position) as [-> ->]. reflexivity.
Qed.

(** X18.  [delete], end to end, for any integer position: the request
    names the two low bytes of the position and a count of one template, so
    positions that agree modulo 65536 send the same bytes.  On an accepted
    answer the outcome is [InvalidPacket] unless the type is 7, then success
    for 0, [CommunicationError] for 1, [DeleteTemplateError] for 16 (0x10)
    and [UnknownError] for every other code. *)
Theorem delete_outcomes position bs ty code rest p' fuel (w : W) :
  delivers (put_bytes (delete_request (address w) position) (serial w))
    bs p' ->
  accepted (map _unpack_bytes bs) ty (code :: rest) ->
  (length bs <= fuel)%nat ->
  delete fuel position w
  = (if negb (ty =? 7) then Raise InvalidPacket
     else if code =? 0 then Ret tt
     else if code =? 1 then Raise CommunicationError
     else if code =? 16 then Raise DeleteTemplateError
     else Raise UnknownError)
      (with_serial p' (emit (delete_request (address w) position) w)) /\
  delete_request (address w) position
  = delete_request (address w) (position mod 65536) /\
  map _unpack_bytes (skipn 12 (firstn 14 (delete_request (address w) position)))
  = [0; 1].
Proof.
  intros Hd Hacc Hf. split; [|split].
  - unfold delete, _delete_template. cbv zeta.
    rewrite (exchange_answered
               [_enum_to_hexadecimal DELETE_TEMPLATE;
                _shift_right position 8; _shift_right position 0;
                _shift_right 0x0001 8; _shift_right 0x0001 0]
               bs ty (code :: rest)
               p' fuel _ w ltac:(payload_bytes) Hd Hacc Hf).
    fold (delete_request (address w) position). answer_table.
  - unfold delete_request.
    destruct (low_two_bytes position) as [-> ->]. reflexivity.
  - reflexivity.
Qed.

(** X19.  [erase_fingers], end to end: on an accepted answer the outcome
    is [InvalidPacket] unless the type is 7, then success for 0,
    [CommunicationError] for 1 and [UnknownError] for every other code;
    exactly the erase request has been written. *)
Theorem erase_fingers_outcomes bs ty code rest p' fuel (w : W) :
  delivers (put_bytes (erase_request (address w)) (serial w)) bs p' ->
  accepted (map _unpack_bytes bs) ty (code :: rest) ->
  (length bs <= fuel)%nat ->
  erase_fingers fuel w
  = (if negb (ty =? 7) then Raise InvalidPacket
     else if code =? 0 then Ret tt
     else if code =? 1 then Raise CommunicationError
     else Raise UnknownError)
      (with_serial p' (emit (erase_request (address w)) w)).
Proof.
  intros Hd Hacc Hf. unfold erase_fingers.
  rewrite (exchange_answered [_enum_to_hexadecimal ERASE_FINGERS]
             bs ty (code :: rest)
             p' fuel _ w ltac:(payload_bytes) Hd Hacc Hf).
  fold (erase_request (address w)). answer_table.
Qed.

End Commands.

(** ** Whole sessions *)

Section Sessions.
Context {P : Type} `{Transport P}.
Local Abbreviation W := (World P).

Lemma accepted_length zs ty payload :
  accepted zs ty payload -> (12 <= length zs)%nat.
Proof.
  intros Hacc. destruct (accepted_framed _ _ _ Hacc) as [total Hfr].
  now destruct (framed_length _ _ _ _ _ Hfr).
Qed.

Lemma replies_fuel fuel (p : P) request ty answer p' :
  replies fuel p request ty answer p' -> (12 <= fuel)%nat.
Proof.
  intros (bs & _ & Hacc & Hf). apply accepted_length in Hacc.
  rewrite length_map in Hacc. lia.
Qed.

(** The scan of [read], for every answer the decoder accepts. *)
Lemma scan_answered fuel ty code rest p' (w : W) :
  replies fuel (serial w) (scan_request (address w)) ty (code :: rest) p' ->
  _scan fuel w
  = (if negb (ty =? 7) then Raise InvalidPacket
     else if code =? 0 then Ret tt
     else if code =? 2 then Raise NoFingerFound
     else if code =? 1 then Raise CommunicationError
     else if code =? 3 then Raise ReadImageError
     else Raise UnknownError)
      (with_serial p' (emit (scan_request (address w)) w)).
Proof.
  intros (bs & Hd & Hacc & Hf). unfold _scan.
  rewrite (exchange_answered [_enum_to_hexadecimal SCAN] bs ty (code :: rest)
             p' fuel _ w ltac:(payload_bytes) Hd Hacc Hf).
  fold (scan_request (address w)). answer_table.
Qed.

(** [read] when the first scan is answered with success. *)
Lemma read_succeeds fuel timeout rest p' (w : W) :
  replies fuel (serial w) (scan_request (address w)) 7 (0 :: rest) p' ->
  read fuel timeout w
  = Ret tt
      (mkWorld p' (written w ++ scan_request (address w)) (address w)
         (mkGlobal (data_status (glob w)) (Some FREE) (signals (glob w)))
         (timeline w) (S (ticks w))).
Proof.
  intros Hrep. pose proof (replies_fuel _ _ _ _ _ _ Hrep) as H12.
  destruct fuel as [|fuel]; [lia|].
  unfold read, bind, set_status, get_current_timestamp. cbv beta iota.
  cbn [read_loop]. unfold bind, try_except.
  match goal with
  | |- context [_scan ?f ?w0] => rewrite (scan_succeeds f rest p' w0 Hrep)
  end.
  reflexivity.
Qed.

(** X20.  [read] and the first answer to its scan.  When the device
    answers the first scan with an accepted frame other than "no finger"
    (type 7, code 2), [read] ends there: it returns when the answer is an
    acknowledgement with code 0, and raises [ReadInputError] for every other
    answer, whatever fault the scan itself raised (a device-reported
    communication or image error included), and whatever the time-out and
    the cancellation flag.  Either way the mode is FREE, the clock was read
    once, the scan request is all that was written, and the signals are
    untouched. *)
Theorem read_first_answer fuel timeout ty code rest p' (w : W) :
  replies fuel (serial w) (scan_request (address w)) ty (code :: rest) p' ->
  ty <> 7 \/ code <> 2 ->
  read fuel timeout w
  = (if (ty =? 7) && (code =? 0) then Ret tt else Raise ReadInputError)
      (mkWorld p' (written w ++ scan_request (address w)) (address w)
         (mkGlobal (data_status (glob w)) (Some FREE) (signals (glob w)))
         (timeline w) (S (ticks w))).
Proof.
  intros Hrep Hne. pose proof (replies_fuel _ _ _ _ _ _ Hrep) as H12.
  destruct fuel as [|fuel]; [lia|].
  unfold read, bind, set_status, get_current_timestamp. cbv beta iota.
  cbn [read_loop]. unfold bind, try_except.
  match goal with
  | |- context [_scan ?f ?w0] =>
      rewrite (scan_answered f ty code rest p' w0 Hrep)
  end.
  destruct (ty =? 7) eqn:Ety; cbn [negb andb]; [|reflexivity].
  destruct (code =? 0) eqn:E0; [reflexivity|].
  destruct (code =? 2) eqn:E2.
  - apply Z.eqb_eq in Ety. apply Z.eqb_eq in E2. lia.
  - destruct (code =? 1); [reflexivity|].
    destruct (code =? 3); reflexivity.
Qed.

(** X21.  A scan that gets no frame back.  When the twelve reads after the
    scan request do not begin with the start marker (a silent port whose
    reads all time out, or noise), [read] raises [ReadInputError] after
    those twelve reads, with the mode FREE and one clock reading taken;
    [check_finger] raises the same in the same world, and so does
    [register] when the sensor was free: no further request is sent. *)
Theorem unanswered_scan_is_read_input_error fuel timeout position rs p'
    (w : W) :
  reads (put_bytes (scan_request (address w)) (serial w)) rs p' ->
  length rs = 12%nat ->
  map frag_of rs !! 0%nat <> Some (Got 239) \/
  map frag_of rs !! 1%nat <> Some (Got 1) ->
  (12 <= fuel)%nat ->
  exists w',
    w' = mkWorld p' (written w ++ scan_request (address w)) (address w)
           (mkGlobal (data_status (glob w)) (Some FREE) (signals (glob w)))
           (timeline w) (S (ticks w)) /\
    read fuel timeout w = Raise ReadInputError w' /\
    check_finger fuel timeout w = Raise ReadInputError w' /\
    (g_status (glob w) = FREE ->
     register fuel position timeout w = Raise ReadInputError w').
Proof.
  intros Hr Hlen Hbad Hf. eexists. split; [reflexivity|].
  assert (Hread : read fuel timeout w
                  = Raise ReadInputError
                      (mkWorld p' (written w ++ scan_request (address w))
                         (address w)
                         (mkGlobal (data_status (glob w)) (Some FREE)
                            (signals (glob w)))
                         (timeline w) (S (ticks w)))).
  { destruct fuel as [|fuel0]; [lia|].
    unfold read, bind, set_status, get_current_timestamp. cbv beta iota.
    cbn [read_loop]. unfold bind, try_except, _scan, bind.
    rewrite send_data_ok by payload_bytes.
    match goal with
    | |- context [_read_data ?f ?w0] =>
        rewrite (read_data_bad_start rs p' f w0 Hr Hlen Hbad Hf)
    end.
    reflexivity. }
  assert (Hcheck : check_finger fuel timeout w
                   = Raise ReadInputError
                       (mkWorld p' (written w ++ scan_request (address w))
                          (address w)
                          (mkGlobal (data_status (glob w)) (Some FREE)
                             (signals (glob w)))
                          (timeline w) (S (ticks w)))).
  { unfold check_finger, try_except, bind. now rewrite Hread. }
  split; [exact Hread|]. split; [exact Hcheck|].
  intros Hfree. unfold register, register_with. rewrite Hfree.
  unfold bind, try_except. now rewrite Hcheck.
Qed.

(** What the [except NoFingerFound] clause does to the flag. *)
Lemma on_no_finger_flag fuel timeout start_time (w : W) :
  match on_no_finger fuel timeout start_time w with
  | Raise e w' =>
      data_status (glob w') = data_status (glob w) /\
      ((signal_is_set (glob w) kill_read_finger = true /\
        signals (glob w')
        = <[kill_read_finger := None]> (signals (glob w)) /\
        (e = KillSignal \/ count_fault e = true)) \/
       (signal_is_set (glob w) kill_read_finger = false /\
        signals (glob w') = signals (glob w) /\
        (e = NoFingerFound \/ count_fault e = true)))
  | _ => True
  end.
Proof.
  unfold on_no_finger.
  destruct (signal_is_set (glob w) kill_read_finger) eqn:Eflag.
  - unfold bind, clear_signal, set_status. cbv beta iota.
    match goal with |- context [count_fingers fuel ?w2] =>
      pose proof (count_fingers_shape fuel w2) as Hc;
      destruct (count_fingers fuel w2) as [c w3|e w3|]; [| |exact I]
    end.
    + destruct Hc as [p ->]. unfold raise. split; [reflexivity|].
      left. repeat split; auto.
    + destruct Hc as [[p ->] He]. split; [reflexivity|].
      left. repeat split; auto.
  - destruct timeout as [t|]; [|exact I].
    destruct (t =? 0); [exact I|].
    unfold bind, get_current_timestamp. cbv beta iota.
    destruct (t <=? timeline w (ticks w) - start_time); [|exact I].
    unfold set_status. cbv beta iota.
    match goal with |- context [count_fingers fuel ?w2] =>
      pose proof (count_fingers_shape fuel w2) as Hc;
      destruct (count_fingers fuel w2) as [c w3|e w3|]; [| |exact I]
    end.
    + destruct Hc as [p ->]. unfold raise. split; [reflexivity|].
      right. repeat split; auto.
    + destruct Hc as [[p ->] He]. split; [reflexivity|].
      right. repeat split; auto.
Qed.

Lemma read_loop_flag polls : forall fuel timeout start_time (w : W),
  match read_loop polls fuel timeout start_time w with
  | Raise e w' =>
      data_status (glob w') = data_status (glob w) /\
      ((signal_is_set (glob w) kill_read_finger = true /\
        signals (glob w')
        = <[kill_read_finger := None]> (signals (glob w)) /\
        (e = KillSignal \/ count_fault e = true)) \/
       (signal_is_set (glob w) kill_read_finger = false /\
        signals (glob w') = signals (glob w) /\
        (e = NoFingerFound \/ count_fault e = true)) \/
       (e = ReadInputError /\ signals (glob w') = signals (glob w)))
  | _ => True
  end.
Proof.
  induction polls as [|polls IH]; intros fuel timeout start_time w; [exact I|].
  cbn [read_loop]. unfold bind, try_except.
  pose proof (scan_shape fuel w) as Hs.
  destruct (_scan fuel w) as [[] w1|e w1|]; [exact I| |exact I].
  destruct Hs as [[p ->] _].
  set (w1 := with_serial p (emit (scan_request (address w)) w)).
  destruct e;
    try (unfold set_status, raise; cbv beta iota;
         split; [reflexivity|right; right; split; reflexivity]).
  cbv beta iota.
  pose proof (on_no_finger_shape fuel timeout start_time w1) as Hn.
  pose proof (on_no_finger_flag fuel timeout start_time w1) as Hflag.
  destruct (on_no_finger fuel timeout start_time w1) as [again w2|e2 w2|];
    [| |exact I].
  2:{ destruct Hflag as (Hd & [Hup|Hdown]).
      - split; [exact Hd|left; exact Hup].
      - split; [exact Hd|right; left; exact Hdown]. }
  destruct Hn as (-> & _ & _ & Hg & _).
  specialize (IH fuel timeout start_time w2).
  destruct (read_loop polls fuel timeout start_time w2) as [[] w3|e3 w3|];
    [exact I| |exact I].
  rewrite Hg in IH. exact IH.
Qed.

(** X22.  [read] and the cancellation flag.  A [read] that returns leaves
    every signal as it found it: a flag that is up when [read] finds a
    finger is not consumed and stays up for the next [read].  [KillSignal]
    is raised only when the flag was up, and the flag is then down;
    [NoFingerFound] only when it was not; [ReadInputError] leaves the
    signals alone.  On every way out the signals are as before or differ in
    the flag alone, and the status entry of [_data] is never written. *)
Theorem read_and_the_cancellation_flag fuel timeout (w : W) :
  match read fuel timeout w with
  | Ret _ w' =>
      signals (glob w') = signals (glob w) /\
      data_status (glob w') = data_status (glob w) /\
      g_status (glob w') = FREE
  | Raise e w' =>
      data_status (glob w') = data_status (glob w) /\
      (signals (glob w') = signals (glob w) \/
       signals (glob w') = <[kill_read_finger := None]> (signals (glob w))) /\
      (e = KillSignal ->
       signal_is_set (glob w) kill_read_finger = true /\
       signal_is_set (glob w') kill_read_finger = false) /\
      (e = NoFingerFound ->
       signal_is_set (glob w) kill_read_finger = false /\
       signals (glob w') = signals (glob w)) /\
      (e = ReadInputError -> signals (glob w') = signals (glob w))
  | Diverge => True
  end.
Proof.
  unfold read, bind, set_status, get_current_timestamp. cbv beta iota.
  match goal with |- context [read_loop fuel fuel timeout ?st ?w1] =>
    pose proof (read_loop_shape fuel fuel timeout st w1) as Hl;
    pose proof (read_loop_flag fuel fuel timeout st w1) as Hflag;
    destruct (read_loop fuel fuel timeout st w1) as [[] w2|e w2|]; [| |exact I]
  end.
  - destruct Hl as (Hg & _). cbn [glob set_glob signals data_status g_status
                                  attr_status].
    rewrite Hg. repeat split.
  - cbn [glob set_glob signals data_status] in Hflag.
    destruct Hflag as (Hd & Hcases). split; [exact Hd|].
    destruct Hcases as [(Hset & Hsig & He)|[(Hset & Hsig & He)|(He & Hsig)]].
    + split; [now right|]. split; [|split].
      * intros _. split; [exact Hset|].
        unfold signal_is_set. rewrite Hsig, lookup_insert_eq. reflexivity.
      * intros ->. destruct He as [He|He]; discriminate.
      * intros ->. destruct He as [He|He]; discriminate.
    + split; [now left|]. split; [|split].
      * intros ->. destruct He as [He|He]; discriminate.
      * intros _. now split.
      * intros _. exact Hsig.
    + subst e. split; [now left|]. split; [|split].
      * discriminate.
      * discriminate.
      * intros _. exact Hsig.
Qed.

Lemma exchanged_glob request (w w' : W) :
  exchanged request w w' -> glob w' = glob w.
Proof. intros [p ->]. reflexivity. Qed.

Lemma check_finger_shape fuel timeout (w : W) :
  match check_finger fuel timeout w with
  | Ret _ w' => g_status (glob w') = FREE
  | Raise e w' =>
      g_status (glob w') = FREE /\
      e <> NoTemplateFound /\
      (e = FingerNotFound \/ read_fault e = true \/ command_fault e = true)
  | Diverge => True
  end.
Proof.
  unfold check_finger, try_except, bind.
  pose proof (read_shape fuel timeout w) as Hr.
  pose proof (read_faults fuel timeout w) as Hrf.
  destruct (read fuel timeout w) as [[] w1|e w1|]; [| |exact I].
  2:{ destruct Hr as (Hfree & _). specialize (Hrf e w1 eq_refl).
      destruct e; try discriminate Hrf; unfold raise;
        (split; [exact Hfree|split; [discriminate|right; left; reflexivity]]). }
  destruct Hr as (Hfree & _).
  pose proof (buffer_image_shape fuel READ w1) as Hb.
  destruct (_buffer_image fuel READ w1) as [[] w2|e w2|]; [| |exact I].
  2:{ destruct Hb as (Hex & He). apply exchanged_glob in Hex.
      rewrite <- Hex in Hfree.
      destruct e; try discriminate He; unfold raise;
        first [split; [exact Hfree|split; [discriminate|right; right; reflexivity]]
              |split; [exact Hfree|split; [discriminate|now left]]]. }
  apply exchanged_glob in Hb. rewrite <- Hb in Hfree.
  pose proof (search_template_shape fuel READ w2) as Hs.
  destruct (_search_template fuel READ w2) as [ps w3|e w3|]; [| |exact I].
  - apply exchanged_glob in Hs. now rewrite Hs.
  - destruct Hs as (Hex & He). apply exchanged_glob in Hex.
    rewrite <- Hex in Hfree.
    destruct e; try discriminate He; unfold raise;
      first [split; [exact Hfree|split; [discriminate|right; right; reflexivity]]
            |split; [exact Hfree|split; [discriminate|now left]]].
Qed.

(** X23.  [check_finger] on every way out: whether it returns or raises,
    the mode is FREE.  When it returns, what it has written is a run of scan
    requests, then one image request for the read buffer and one search
    request.  What it raises is never [NoTemplateFound] (the device's "no
    match" comes out as [FingerNotFound]), and is a fault of [read], a fault
    of the image and search exchanges, or [FingerNotFound]. *)
Theorem check_finger_exits fuel timeout (w : W) :
  match check_finger fuel timeout w with
  | Ret _ w' =>
      g_status (glob w') = FREE /\
      exists k,
        written w'
        = written w ++ scans (address w) k
          ++ buffer_request (address w) READ
          ++ search_request (address w) READ
  | Raise e w' =>
      g_status (glob w') = FREE /\
      e <> NoTemplateFound /\
      (e = FingerNotFound \/ read_fault e = true \/ command_fault e = true)
  | Diverge => True
  end.
Proof.
  pose proof (check_finger_shape fuel timeout w) as Hs.
  pose proof (check_finger_ret fuel timeout w) as Hw.
  destruct (check_finger fuel timeout w) as [ps w'|e w'|]; [| |exact I].
  - split; [exact Hs|]. exact (Hw ps w' eq_refl).
  - exact Hs.
Qed.

Lemma store_template_ret fuel position char_buffer (w : W) r w' :
  _store_template fuel position char_buffer w = Ret r w' -> r = position.
Proof.
  unfold _store_template, bind.
  destruct (_send_data _ _ w) as [[] w1|e1 w1|]; try discriminate.
  destruct (_read_data fuel w1) as [[ty payload] w2|e2 w2|]; try discriminate.
  destruct (negb (is_code ty ACK)); [discriminate|].
  unfold first_byte.
  destruct (py_index payload 0) as [p0|]; cbn [lift_option];
    unfold ret, raise; [|discriminate].
  repeat match goal with
         | |- context [if ?b then _ else _] => destruct b
         end; try discriminate.
  now intros [= <- _].
Qed.

(** The [try] block of [_store_finger], on every way out. *)
Lemma store_finger_try_shape fuel position (w : W) :
  match store_finger_try get_available_position fuel position w with
  | Ret r w' =>
      g_status (glob w') = FREE /\
      exists p, r = Some p /\ forall q, position = Some q -> p = q
  | Raise e w' =>
      g_status (glob w') = FREE /\
      (read_fault e = true \/ command_fault e = true)
  | Diverge => True
  end.
Proof.
  unfold store_finger_try, bind.
  pose proof (read_shape fuel None w) as Hr.
  pose proof (read_faults fuel None w) as Hrf.
  destruct (read fuel None w) as [[] w1|e w1|]; [| |exact I].
  2:{ destruct Hr as (Hfree & _). split; [exact Hfree|].
      left. exact (Hrf e w1 eq_refl). }
  destruct Hr as (Hfree & _).
  pose proof (buffer_image_shape fuel WRITE w1) as Hb.
  destruct (_buffer_image fuel WRITE w1) as [[] w2|e w2|]; [| |exact I].
  2:{ destruct Hb as (Hex & He). apply exchanged_glob in Hex.
      rewrite <- Hex in Hfree. split; [exact Hfree|now right]. }
  apply exchanged_glob in Hb. rewrite <- Hb in Hfree.
  pose proof (create_template_shape fuel w2) as Hc.
  destruct (_create_template fuel w2) as [[] w3|e w3|]; [| |exact I].
  2:{ destruct Hc as (Hex & He). apply exchanged_glob in Hex.
      rewrite <- Hex in Hfree. split; [exact Hfree|now right]. }
  apply exchanged_glob in Hc. rewrite <- Hc in Hfree.
  assert (Hstore : forall pos (w4 : W),
             g_status (glob w4) = FREE ->
             (forall q, position = Some q -> pos = q) ->
             match
               match _store_template fuel pos WRITE w4 with
               | Ret a w5 => ret (Some a) w5
               | Raise e5 w5 => Raise e5 w5
               | Diverge => Diverge
               end
             with
             | Ret r w' =>
                 g_status (glob w') = FREE /\
                 exists p, r = Some p /\ forall q, position = Some q -> p = q
             | Raise e w' =>
                 g_status (glob w') = FREE /\
                 (read_fault e = true \/ command_fault e = true)
             | Diverge => True
             end).
  { intros pos w4 Hfree4 Hpos.
    pose proof (store_template_shape fuel pos WRITE w4) as Hst.
    pose proof (store_template_ret fuel pos WRITE w4) as Hret.
    destruct (_store_template fuel pos WRITE w4) as [a w5|e5 w5|];
      [| |exact I].
    - apply exchanged_glob in Hst. unfold ret. rewrite Hst.
      split; [exact Hfree4|]. exists a. split; [reflexivity|].
      rewrite (Hret a w5 eq_refl). exact Hpos.
    - destruct Hst as (Hex & He). apply exchanged_glob in Hex.
      rewrite Hex. split; [exact Hfree4|now right]. }
  destruct position as [pos|].
  - unfold ret at 1. apply Hstore; [exact Hfree|]. now intros q [= ->].
  - unfold get_available_position.
    pose proof (count_fingers_shape fuel w3) as Hcf.
    destruct (count_fingers fuel w3) as [c w4|e4 w4|]; [| |exact I].
    + apply exchanged_glob in Hcf. rewrite <- Hcf in Hfree.
      apply Hstore; [exact Hfree|discriminate].
    + destruct Hcf as (Hex & He). apply exchanged_glob in Hex.
      rewrite <- Hex in Hfree. split; [exact Hfree|].
      right. destruct e4; try discriminate He; reflexivity.
Qed.

(** X24.  [register] on every way out.  With the mode not FREE it raises
    [SensorIsBusy] at once: nothing is written, no clock is read, the world
    is as it was.  From a free sensor, whether it returns or raises, the
    mode is FREE afterwards; what it returns is a position, the one asked
    for when one was given; what it raises is never [SensorIsBusy],
    [FingerNotFound] or [NoAvailablePositionFound]. *)
Theorem register_exits fuel position timeout (w : W) :
  (g_status (glob w) <> FREE ->
   register fuel position timeout w = Raise SensorIsBusy w) /\
  (g_status (glob w) = FREE ->
   match register fuel position timeout w with
   | Ret r w' =>
       g_status (glob w') = FREE /\
       exists p, r = Some p /\ forall q, position = Some q -> p = q
   | Raise e w' =>
       g_status (glob w') = FREE /\
       e <> SensorIsBusy /\ e <> FingerNotFound /\
       e <> NoAvailablePositionFound
   | Diverge => True
   end).
Proof.
  split.
  - intros Hbusy. unfold register, register_with.
    destruct (g_status (glob w)); [congruence|reflexivity].
  - intros Hfree. unfold register, register_with. rewrite Hfree.
    unfold bind at 1. unfold try_except at 1. unfold bind at 1.
    pose proof (check_finger_shape fuel timeout w) as Hc.
    destruct (check_finger fuel timeout w) as [ps w1|e w1|]; [| |exact I].
    { unfold raise. cbv beta iota. repeat split; try discriminate.
      exact Hc. }
    destruct Hc as (Hfree1 & Hnt & He).
    assert (Hstore :
              match store_finger_with get_available_position fuel position w1
              with
              | Ret r w' =>
                  g_status (glob w') = FREE /\
                  exists p, r = Some p /\ forall q, position = Some q -> p = q
              | Raise e w' =>
                  g_status (glob w') = FREE /\
                  e <> SensorIsBusy /\ e <> FingerNotFound /\
                  e <> NoAvailablePositionFound
              | Diverge => True
              end).
    { unfold store_finger_with, try_except.
      pose proof (store_finger_try_shape fuel position w1) as Hs.
      destruct (store_finger_try get_available_position fuel position w1)
        as [r w2|e2 w2|]; [exact Hs| |exact I].
      destruct Hs as (Hfree2 & He2).
      destruct e2; unfold raise;
        try (split; [exact Hfree2|repeat split; discriminate]);
        destruct He2 as [He2|He2]; discriminate He2. }
    destruct He as [->|He].
    + unfold ret. cbv beta iota. exact Hstore.
    + destruct e; unfold raise; cbv beta iota;
        try (split; [exact Hfree1|repeat split; discriminate]);
        try (destruct He as [He|He]; discriminate He).
Qed.


Lemma check_finger_no_match fuel timeout r1 r2 r3 p1 p2 p3 (w : W) :
  replies fuel (serial w) (scan_request (address w)) 7 (0 :: r1) p1 ->
  replies fuel p1 (buffer_request (address w) READ) 7 (0 :: r2) p2 ->
  replies fuel p2 (search_request (address w) READ) 7 (9 :: r3) p3 ->
  check_finger fuel timeout w
  = Raise FingerNotFound
      (mkWorld p3
         (written w ++ scan_request (address w)
          ++ buffer_request (address w) READ
          ++ search_request (address w) READ)
         (address w)
         (mkGlobal (data_status (glob w)) (Some FREE) (signals (glob w)))
         (timeline w) (S (ticks w))).
Proof.
  intros H1 H2 H3. unfold check_finger, try_except, bind.
  rewrite (read_succeeds fuel timeout r1 p1 w H1).
  match goal with
  | |- context [_buffer_image ?f ?c ?w0] =>
      rewrite (buffer_image_succeeds f c r2 p2 w0 H2)
  end.
  match goal with
  | |- context [_search_template ?f ?c ?w0] =>
      rewrite (search_template_finds_none f c r3 p3 w0 H3)
  end.
  unfold raise, with_serial, emit.
  cbn [serial written address glob ticks timeline].
  now rewrite <- !app_assoc.
Qed.

(** X26.  An enrolment at a given position, end to end.  The sensor is
    free; the device answers scan and image request (read buffer) with
    success and the search with "no match" (code 9), then scan, image
    request (write buffer), create-template and store-template with success:
    [register] returns the position it was given.  Seven requests were
    written, in this order and no other; the clock was read twice, the mode
    is FREE and the signals are untouched. *)
Theorem register_stores_at_given_position fuel position timeout
    r1 r2 r3 r4 r5 r6 r7 p1 p2 p3 p4 p5 p6 p7 (w : W) :
  g_status (glob w) = FREE ->
  replies fuel (serial w) (scan_request (address w)) 7 (0 :: r1) p1 ->
  replies fuel p1 (buffer_request (address w) READ) 7 (0 :: r2) p2 ->
  replies fuel p2 (search_request (address w) READ) 7 (9 :: r3) p3 ->
  replies fuel p3 (scan_request (address w)) 7 (0 :: r4) p4 ->
  replies fuel p4 (buffer_request (address w) WRITE) 7 (0 :: r5) p5 ->
  replies fuel p5 (create_request (address w)) 7 (0 :: r6) p6 ->
  replies fuel p6 (store_request (address w) position WRITE) 7 (0 :: r7) p7 ->
  exists w',
    register fuel (Some position) timeout w = Ret (Some position) w' /\
    serial w' = p7 /\
    written w'
    = written w ++ scan_request (address w)
      ++ buffer_request (address w) READ ++ search_request (address w) READ
      ++ scan_request (address w) ++ buffer_request (address w) WRITE
      ++ create_request (address w)
      ++ store_request (address w) position WRITE /\
    g_status (glob w') = FREE /\
    signals (glob w') = signals (glob w) /\
    ticks w' = S (S (ticks w)).
Proof.
  intros Hfree H1 H2 H3 H4 H5 H6 H7. eexists. split.
  - unfold register, register_with. rewrite Hfree.
    unfold bind at 1. unfold try_except at 1. unfold bind at 1.
    rewrite (check_finger_no_match fuel timeout r1 r2 r3 p1 p2 p3 w H1 H2 H3).
    unfold ret at 1. cbv beta iota.
    unfold store_finger_with, try_except, store_finger_try, bind.
    match goal with
    | |- context [read ?f ?t ?w0] => rewrite (read_succeeds f t r4 p4 w0 H4)
    end.
    match goal with
    | |- context [_buffer_image ?f ?c ?w0] =>
        rewrite (buffer_image_succeeds f c r5 p5 w0 H5)
    end.
    match goal with
    | |- context [_create_template ?f ?w0] =>
        rewrite (create_template_succeeds f r6 p6 w0 H6)
    end.
    unfold ret at 1.
    match goal with
    | |- context [_store_template ?f ?pos ?c ?w0] =>
        rewrite (store_template_succeeds f pos c r7 p7 w0 H7)
    end.
    reflexivity.
  - cbn [serial written address glob ticks with_serial emit signals g_status
         attr_status].
    repeat split. now rewrite <- !app_assoc.
Qed.




Lemma scan_sees_no_finger fuel rest p' (w : W) :
  replies fuel (serial w) (scan_request (address w)) 7 (2 :: rest) p' ->
  _scan fuel w
  = Raise NoFingerFound
      (with_serial p' (emit (scan_request (address w)) w)).
Proof.
  intros Hrep. rewrite (scan_answered fuel 7 2 rest p' w Hrep). reflexivity.
Qed.

(** The detection loop while the device sees no finger, the flag is down
    and the time-out, if any, has not run out. *)
Lemma read_loop_waits n :
  forall polls fuel timeout start_time (w : W) pn p' rest,
    polled fuel (address w) n (serial w) pn ->
    replies fuel pn (scan_request (address w)) 7 (0 :: rest) p' ->
    signal_is_set (glob w) kill_read_finger = false ->
    (n < polls)%nat ->
    (forall T, timeout = Some T -> T <> 0 ->
       forall k, (k < n)%nat ->
         timeline w (ticks w + k) - start_time < T) ->
    read_loop polls fuel timeout start_time w
    = Ret tt
        (mkWorld p' (written w ++ scans (address w) (S n)) (address w)
           (glob w) (timeline w)
           (ticks w + (if timeout_set timeout then n else 0))).
Proof.
  induction n as [|n IH];
    intros polls fuel timeout start_time w pn p' rest Hp Hlast Hflag Hpolls
      Hclock;
    (destruct polls as [|polls]; [lia|]); cbn [read_loop];
    unfold bind, try_except.
  - inversion Hp; subst.
    rewrite (scan_succeeds fuel rest p' w Hlast). unfold ret. cbv beta iota.
    rewrite scans_one.
    replace (ticks w + (if timeout_set timeout then 0 else 0))%nat
      with (ticks w) by (destruct (timeout_set timeout); lia).
    reflexivity.
  - inversion Hp as [|n' p0 p1 p2 rest1 Hfirst Hrest]; subst.
    rewrite (scan_sees_no_finger fuel rest1 p1 w Hfirst). cbv beta iota.
    set (w1 := with_serial p1 (emit (scan_request (address w)) w)).
    unfold on_no_finger.
    change (glob w1) with (glob w). rewrite Hflag.
    destruct timeout as [T|].
    + destruct (T =? 0) eqn:ET.
      * cbv beta iota.
        rewrite (IH polls fuel (Some T) start_time w1 pn p' rest);
          try assumption; try lia.
        -- cbn [timeout_set]. rewrite ET. cbn [negb].
           unfold w1. cbn [written address glob timeline ticks with_serial
                           emit].
           rewrite scans_succ, <- app_assoc. reflexivity.
        -- intros T' [= <-] HT'. apply Z.eqb_eq in ET. congruence.
      * apply Z.eqb_neq in ET.
        unfold bind, get_current_timestamp. cbv beta iota.
        assert (Hlt : (T <=? timeline w1 (ticks w1) - start_time) = false).
        { apply Z.leb_gt.
          specialize (Hclock T eq_refl ET 0%nat ltac:(lia)).
          rewrite Nat.add_0_r in Hclock. exact Hclock. }
        rewrite Hlt. unfold ret. cbv beta iota.
        match goal with
        | |- read_loop polls fuel (Some T) start_time ?w2 = _ =>
            rewrite (IH polls fuel (Some T) start_time w2 pn p' rest);
              try assumption; try lia
        end.
        -- cbn [timeout_set]. apply Z.eqb_neq in ET. rewrite ET. cbn [negb].
           unfold w1. cbn [written address glob timeline ticks with_serial
                           emit].
           rewrite scans_succ, <- app_assoc.
           replace (S (ticks w) + n)%nat with (ticks w + S n)%nat by lia.
           reflexivity.
        -- intros T' [= <-] _ k Hk.
           cbn [timeline ticks]. unfold w1.
           cbn [timeline ticks with_serial emit].
           specialize (Hclock T eq_refl ET (S k) ltac:(lia)).
           replace (S (ticks w) + k)%nat with (ticks w + S k)%nat by lia.
           exact Hclock.
    + cbv beta iota.
      rewrite (IH polls fuel None start_time w1 pn p' rest);
        try assumption; try lia.
      * cbn [timeout_set]. unfold w1.
        cbn [written address glob timeline ticks with_serial emit].
        rewrite scans_succ, <- app_assoc. reflexivity.
      * discriminate.
Qed.

(** X28.  [read] waits for the finger.  With the cancellation flag down,
    a device that answers [n] scans with "no finger" and the next one with
    success makes [read] return after exactly [n + 1] scan requests, as long
    as the time-out, if one is in force (not [None], not 0), has not run out
    at any of the [n] clock readings taken on the way.  The mode is FREE,
    the signals are untouched, no count request was sent, and the clock was
    read once at the start and once more per "no finger" answer when a
    time-out is in force. *)
Theorem read_waits_for_the_finger n fuel timeout pn p' rest (w : W) :
  polled fuel (address w) n (serial w) pn ->
  replies fuel pn (scan_request (address w)) 7 (0 :: rest) p' ->
  signal_is_set (glob w) kill_read_finger = false ->
  (n < fuel)%nat ->
  (forall T, timeout = Some T -> T <> 0 ->
     forall k, (k < n)%nat ->
       timeline w (S (ticks w) + k) - timeline w (ticks w) < T) ->
  read fuel timeout w
  = Ret tt
      (mkWorld p' (written w ++ scans (address w) (S n)) (address w)
         (mkGlobal (data_status (glob w)) (Some FREE) (signals (glob w)))
         (timeline w)
         (S (ticks w) + (if timeout_set timeout then n else 0))).
Proof.
  intros Hp Hlast Hflag Hn Hclock.
  unfold read, bind, set_status, get_current_timestamp. cbv beta iota.
  match goal with
  | |- context [read_loop fuel fuel timeout ?st ?w0] =>
      rewrite (read_loop_waits n fuel fuel timeout st w0 pn p' rest
                 Hp Hlast Hflag Hn Hclock)
  end.
  reflexivity.
Qed.

End Sessions.

(** ** The statements above, at concrete devices *)

Lemma on_script_delivers request payload :
  delivers (put_bytes request (serial (on_script (reply payload))))
    (frame_bytes 0xFFFFFFFF ACK payload)
    (mkFake (fun _ => []) request []).
Proof.
  unfold on_script, reply, world0, scripted. cbn [serial].
  rewrite put_bytes_fake. apply fake_plays.
Qed.

Ltac concrete_bytes :=
  repeat (apply List.Forall_cons; [unfold is_byte; lia|]);
  apply List.Forall_nil.

Ltac concrete_reads_back :=
  unfold reads_back; vm_compute;
  split; [split; congruence|first [left; reflexivity|right; reflexivity]].

Ltac accepted_reply payload :=
  apply (frame_accepted 0xFFFFFFFF ACK payload);
  [discriminate|concrete_bytes|concrete_reads_back|concrete_reads_back].

Lemma bad_start_marker_after_twelve_reads_witness :
  _read_data 12 (on_script [])
  = Raise InvalidPacket (with_serial (scripted []) (on_script [])) /\
  forall few, (few < 12)%nat -> _read_data few (on_script []) = Diverge.
Proof.
  apply (bad_start_marker_after_twelve_reads (replicate 12 None) (scripted [])
           12 (on_script [])).
  - repeat (econstructor; [reflexivity|]). constructor.
  - reflexivity.
  - left. discriminate.
  - lia.
Defined.

Lemma send_data_layout_witness :
  exists a3 a2 a1 a0 lh ll ch cl,
    _send_data COMMAND [29] (on_script [])
    = Ret tt
        (emit (map byte_of
                 ([239; 1; a3; a2; a1; a0; 1; lh; ll] ++ [29] ++ [ch; cl]))
           (on_script [])) /\
    Forall is_byte [a3; a2; a1; a0; lh; ll; ch; cl] /\
    ((a3 * 256 + a2) * 256 + a1) * 256 + a0
    = address (on_script []) mod 2 ^ 32 /\
    lh * 256 + ll = (Z.of_nat (length [29]) + 2) mod 65536 /\
    ch * 256 + cl = (1 + lh + ll + sum_bytes [29]) mod 65536.
Proof.
  apply (send_data_layout COMMAND [29] (on_script [])). concrete_bytes.
Defined.

Lemma send_data_stops_at_bad_element_witness :
  _send_data COMMAND ([6; 2] ++ 256 :: [3]) (on_script [])
  = Raise StructError
      (emit (firstn 9 (frame_bytes (address (on_script [])) COMMAND
                         ([6; 2] ++ 256 :: [3]))
             ++ map byte_of [6; 2]) (on_script [])).
Proof.
  apply (send_data_stops_at_bad_element COMMAND [6; 2] 256 [3] (on_script [])).
  - concrete_bytes.
  - unfold is_byte. lia.
Defined.

Lemma checksum_sees_the_sum_only_witness :
  decode_stream 13
    (map Some (map byte_of (frame_carrying 0xFFFFFFFF ACK [0; 5] [5; 0])))
  = Some (if sum_bytes [5; 0] =? sum_bytes [0; 5]
          then inl (_enum_to_hexadecimal ACK, [5; 0])
          else inr CorruptedPacket).
Proof.
  apply (checksum_sees_the_sum_only 0xFFFFFFFF ACK [0; 5] [5; 0] 13).
  - discriminate.
  - concrete_bytes.
  - concrete_bytes.
  - reflexivity.
  - concrete_reads_back.
  - concrete_reads_back.
  - simpl; lia.
Defined.

Lemma two_byte_field_round_trip_witness :
  is_byte (_shift_right 258 8) /\ is_byte (_shift_right 258 0) /\
  _shift_right 258 8 * 256 + _shift_right 258 0 = 258 /\
  exists r,
    shift_or [Got (_shift_right 258 8); Got (_shift_right 258 0)] 0 1
      (on_script [])
    = Ret r (on_script []) /\
    payload_shift_or [_shift_right 258 8; _shift_right 258 0] 0 1
      (on_script [])
    = Ret r (on_script []) /\
    (r = 258 <-> 258 < 256 \/ 258 mod 256 = 0) /\
    (r <> 258 -> r = 258 - 258 mod 256).
Proof.
  apply (two_byte_field_round_trip 258 (on_script [])). lia.
Defined.

Lemma scan_outcomes_witness :
  _scan 12 (on_script (reply [3]))
  = Raise ReadImageError
      (with_serial (mkFake (fun _ => []) (scan_request 0xFFFFFFFF) [])
         (emit (scan_request 0xFFFFFFFF) (on_script (reply [3])))).
Proof.
  apply (scan_outcomes (frame_bytes 0xFFFFFFFF ACK [3]) 7 3 []
           (mkFake (fun _ => []) (scan_request 0xFFFFFFFF) []) 12
           (on_script (reply [3]))).
  - apply on_script_delivers.
  - accepted_reply [3].
  - simpl; lia.
Defined.

Lemma buffer_image_outcomes_witness :
  _buffer_image 12 WRITE (on_script (reply [21]))
  = Raise InvalidImageError
      (with_serial (mkFake (fun _ => []) (buffer_request 0xFFFFFFFF WRITE) [])
         (emit (buffer_request 0xFFFFFFFF WRITE) (on_script (reply [21])))).
Proof.
  apply (buffer_image_outcomes WRITE (frame_bytes 0xFFFFFFFF ACK [21]) 7 21 []
           (mkFake (fun _ => []) (buffer_request 0xFFFFFFFF WRITE) []) 12
           (on_script (reply [21]))).
  - apply on_script_delivers.
  - accepted_reply [21].
  - simpl; lia.
Defined.

Lemma search_template_outcomes_witness :
  _search_template 16 READ (on_script (reply [0; 0; 3; 0; 80]))
  = Ret (3, 80)
      (with_serial (mkFake (fun _ => []) (search_request 0xFFFFFFFF READ) [])
         (emit (search_request 0xFFFFFFFF READ)
            (on_script (reply [0; 0; 3; 0; 80])))).
Proof.
  apply (search_template_outcomes READ
           (frame_bytes 0xFFFFFFFF ACK [0; 0; 3; 0; 80]) 7 0 [0; 3; 0; 80]
           (mkFake (fun _ => []) (search_request 0xFFFFFFFF READ) []) 16
           (on_script (reply [0; 0; 3; 0; 80]))).
  - apply on_script_delivers.
  - accepted_reply [0; 0; 3; 0; 80].
  - simpl; lia.
Defined.

Lemma count_fingers_outcomes_witness :
  count_fingers 14 (on_script (reply [0; 0; 7]))
  = Ret 7
      (with_serial (mkFake (fun _ => []) (count_request 0xFFFFFFFF) [])
         (emit (count_request 0xFFFFFFFF) (on_script (reply [0; 0; 7])))).
Proof.
  apply (count_fingers_outcomes (frame_bytes 0xFFFFFFFF ACK [0; 0; 7]) 7 0
           [0; 7]
           (mkFake (fun _ => []) (count_request 0xFFFFFFFF) []) 14
           (on_script (reply [0; 0; 7]))).
  - apply on_script_delivers.
  - accepted_reply [0; 0; 7].
  - simpl; lia.
Defined.

Lemma create_template_outcomes_witness :
  _create_template 12 (on_script (reply [10]))
  = Raise CharacteristicsMismatchError
      (with_serial (mkFake (fun _ => []) (create_request 0xFFFFFFFF) [])
         (emit (create_request 0xFFFFFFFF) (on_script (reply [10])))).
Proof.
  apply (create_template_outcomes (frame_bytes 0xFFFFFFFF ACK [10]) 7 10 []
           (mkFake (fun _ => []) (create_request 0xFFFFFFFF) []) 12
           (on_script (reply [10]))).
  - apply on_script_delivers.
  - accepted_reply [10].
  - simpl; lia.
Defined.

Lemma store_template_outcomes_witness :
  _store_template 12 65541 WRITE (on_script (reply [0]))
  = Ret 65541
      (with_serial
         (mkFake (fun _ => []) (store_request 0xFFFFFFFF 65541 WRITE) [])
         (emit (store_request 0xFFFFFFFF 65541 WRITE)
            (on_script (reply [0])))) /\
  store_request 0xFFFFFFFF 65541 WRITE
  = store_request 0xFFFFFFFF (65541 mod 65536) WRITE.
Proof.
  apply (store_template_outcomes 65541 WRITE (frame_bytes 0xFFFFFFFF ACK [0])
           7 0 []
           (mkFake (fun _ => []) (store_request 0xFFFFFFFF 65541 WRITE) []) 12
           (on_script (reply [0]))).
  - apply on_script_delivers.
  - accepted_reply [0].
  - simpl; lia.
Defined.

Lemma delete_outcomes_witness :
  delete 12 5 (on_script (reply [16]))
  = Raise DeleteTemplateError
      (with_serial (mkFake (fun _ => []) (delete_request 0xFFFFFFFF 5) [])
         (emit (delete_request 0xFFFFFFFF 5) (on_script (reply [16])))) /\
  delete_request 0xFFFFFFFF 5 = delete_request 0xFFFFFFFF (5 mod 65536) /\
  map _unpack_bytes (skipn 12 (firstn 14 (delete_request 0xFFFFFFFF 5)))
  = [0; 1].
Proof.
  apply (delete_outcomes 5 (frame_bytes 0xFFFFFFFF ACK [16]) 7 16 []
           (mkFake (fun _ => []) (delete_request 0xFFFFFFFF 5) []) 12
           (on_script (reply [16]))).
  - apply on_script_delivers.
  - accepted_reply [16].
  - simpl; lia.
Defined.

Lemma erase_fingers_outcomes_witness :
  erase_fingers 12 (on_script (reply [0]))
  = Ret tt
      (with_serial (mkFake (fun _ => []) (erase_request 0xFFFFFFFF) [])
         (emit (erase_request 0xFFFFFFFF) (on_script (reply [0])))).
Proof.
  apply (erase_fingers_outcomes (frame_bytes 0xFFFFFFFF ACK [0]) 7 0 []
           (mkFake (fun _ => []) (erase_request 0xFFFFFFFF) []) 12
           (on_script (reply [0]))).
  - apply on_script_delivers.
  - accepted_reply [0].
  - simpl; lia.
Defined.

Lemma scripted_replies fuel pend payload rest request :
  payload <> [] ->
  Forall is_byte payload ->
  reads_back (packet_length payload) ->
  reads_back (packet_checksum ACK payload) ->
  (length payload + 11 <= fuel)%nat ->
  replies fuel (mkFake (fun _ => []) pend (reply payload ++ rest)) request 7
    payload (mkFake (fun _ => []) (pend ++ request) rest).
Proof.
  intros Hne Hp Hl Hc Hf. exists (frame_bytes 0xFFFFFFFF ACK payload).
  split; [|split].
  - rewrite put_bytes_fake. unfold reply. apply scripted_delivers.
  - apply (frame_accepted 0xFFFFFFFF ACK payload); assumption.
  - unfold frame_bytes, frame. rewrite length_map. cbn [app length].
    rewrite length_app. cbn [length]. lia.
Qed.

Ltac script_step :=
  eapply scripted_replies;
  [discriminate|concrete_bytes|concrete_reads_back|concrete_reads_back
  |simpl; lia].

Lemma read_first_answer_witness :
  exists w',
    read 12 (Some 5) (on_script (reply [1] ++ [])) = Raise ReadInputError w' /\
    g_status (glob w') = FREE /\
    written w' = scan_request 0xFFFFFFFF.
Proof.
  eexists. split.
  - unfold on_script, world0, scripted.
    refine (read_first_answer 12 (Some 5) 7 1 [] _ _ _ _).
    + cbn [serial address]. script_step.
    + right. lia.
  - split; reflexivity.
Defined.

Lemma unanswered_scan_is_read_input_error_witness :
  exists w',
    w' = mkWorld (mkFake (fun _ => []) (scan_request 0xFFFFFFFF) [])
           (written (on_script []) ++ scan_request (address (on_script [])))
           (address (on_script []))
           (mkGlobal (data_status (glob (on_script []))) (Some FREE)
              (signals (glob (on_script []))))
           (timeline (on_script [])) (S (ticks (on_script []))) /\
    read 12 None (on_script []) = Raise ReadInputError w' /\
    check_finger 12 None (on_script []) = Raise ReadInputError w' /\
    (g_status (glob (on_script [])) = FREE ->
     register 12 None None (on_script []) = Raise ReadInputError w').
Proof.
  apply (unanswered_scan_is_read_input_error 12 None None (replicate 12 None)
           (mkFake (fun _ => []) (scan_request 0xFFFFFFFF) [])
           (on_script [])).
  - repeat (econstructor; [reflexivity|]). constructor.
  - reflexivity.
  - left. discriminate.
  - lia.
Defined.


Lemma register_stores_at_given_position_witness :
  exists w',
    register 20 (Some 5) None
      (on_script (reply [0] ++ reply [0] ++ reply [9] ++ reply [0]
                  ++ reply [0] ++ reply [0] ++ reply [0] ++ []))
    = Ret (Some 5) w' /\
    g_status (glob w') = FREE /\ ticks w' = 2%nat.
Proof.
  edestruct (register_stores_at_given_position 20 5 None
               [] [] [] [] [] [] [])
    as (w' & Hr & _ & _ & Hfree & _ & Ht);
    [| | | | | | |
     |exists w'; split; [exact Hr|split; [exact Hfree|exact Ht]]];
    [reflexivity| | | | | | |];
    unfold on_script, world0, scripted; cbn [serial address]; script_step.
Defined.


Lemma read_waits_for_the_finger_witness :
  exists w',
    read 20 (Some 10)
      (on_script (reply [2] ++ reply [2] ++ reply [0] ++ []))
    = Ret tt w' /\
    written w' = scans 0xFFFFFFFF 3 /\
    g_status (glob w') = FREE /\ ticks w' = 3%nat.
Proof.
  eexists. split.
  - unfold on_script, world0, scripted.
    refine (read_waits_for_the_finger 2 20 (Some 10) _ _ [] _ _ _ _ _ _).
    + cbn [serial address].
      eapply polled_S; [script_step|].
      eapply polled_S; [script_step|]. apply polled_O.
    + cbn [address]. script_step.
    + reflexivity.
    + lia.
    + intros T [= <-] _ k Hk. cbn [timeline ticks].
      destruct k as [|[|k]]; simpl; lia.
  - split; [reflexivity|]. split; reflexivity.
Defined.


